(** * Attestations wrapper of the contractkit SDK: a shallow embedding

    The development follows [packages/sdk/contractkit/src/kit.ts]: the helpers
    around security codes, the decoding of packed chain results, the
    per-issuer attestation-service probes, the completion of an attestation,
    the wait for the issuer-selection window and the service status probe.

    Chain reads and HTTP requests are answers of an environment (records of
    oracles below); every one of them can fail, which is a JavaScript
    exception, modelled by the [outcome] monad. *)

From Stdlib Require Import ZArith Lia Ascii String.
From stdpp Require Import base option list strings pretty gmap fin_maps.

Local Open Scope Z_scope.

(** ** JavaScript values and exceptions *)

Module Js.

(** What a [throw] carries.  [SystemError] is the error whose [type] field
    is ['system'] (a network-level failure of the fetch layer), [TypeError]
    is the run-time error of reading a property of [null]. *)
Inductive error : Type :=
| Error (message : string)
| SystemError (message : string)
| TypeError (message : string).

Inductive outcome (A : Type) : Type :=
| Ok (a : A)
| Throw (e : error).
Arguments Ok {A} a.
Arguments Throw {A} e.

Definition bind {A B} (m : outcome A) (k : A → outcome B) : outcome B :=
  match m with
  | Ok a => k a
  | Throw e => Throw e
  end.

(** [try { body } catch (error) { handler }] *)
Definition try_catch {A} (body : outcome A) (handler : error → outcome A) : outcome A :=
  match body with
  | Ok a => Ok a
  | Throw e => handler e
  end.

(** The scalar JSON values a response body field can hold; [JUndefined] is
    an absent field. *)
Inductive value : Type :=
| JUndefined
| JNull
| JBool (b : bool)
| JNum (z : Z)
| JStr (s : string)
| JArr (items : list string).

Global Instance value_eq_dec : EqDecision value.
Proof. solve_decision. Defined.

(** ToBoolean, as used by [if (v)]. *)
Definition truthy (v : value) : bool :=
  match v with
  | JUndefined | JNull => false
  | JBool b => b
  | JNum z => negb (z =? 0)
  | JStr s => negb (String.eqb s "")
  | JArr _ => true
  end.

(** [v !== w] and [v === w], on scalars. *)
Definition strict_ne (v w : value) : bool := bool_decide (v ≠ w).
Definition strict_eq (v w : value) : bool := bool_decide (v = w).

(** [v > n] for a field that the interface declares [number | null]: a
    number is compared as such, [null] and [false] count as 0 and [true] as
    1, an absent field is [NaN] and compares false.  The numeric reading of
    strings and arrays is outside the declared interface and is not
    modelled: they compare false here. *)
Definition gt_number (v : value) (n : Z) : bool :=
  match v with
  | JNum z => n <? z
  | JBool true => n <? 1
  | JBool false | JNull => n <? 0
  | JUndefined | JStr _ | JArr _ => false
  end.

End Js.
Import Js.

(** [await e; k] and the sequencing of statements that can throw are stdpp's
    monadic bind [x ← e; k]. *)
Global Instance outcome_ret : MRet outcome := @Ok.
Global Instance outcome_bind : MBind outcome := fun A B k m => Js.bind m k.

Definition Address := string.

(** ** Security code prefix *)

Module SecurityCode.

(** [String.prototype.toLowerCase], on the ASCII range. *)
Definition lower_ascii (c : ascii) : ascii :=
  let n := nat_of_ascii c in
  if ((65 <=? n) && (n <=? 90))%nat then ascii_of_nat (n + 32) else c.

Fixpoint toLowerCase (s : string) : string :=
  match s with
  | EmptyString => EmptyString
  | String c r => String (lower_ascii c) (toLowerCase r)
  end.

(** Value of one digit in the given base, as bignumber.js reads a lower-case
    literal. *)
Definition digitValue (base : Z) (c : ascii) : option Z :=
  let n := Z.of_nat (nat_of_ascii c) in
  let d := if (48 <=? n) && (n <=? 57) then Some (n - 48)
           else if (97 <=? n) && (n <=? 102) then Some (n - 87)
           else None in
  match d with
  | Some v => if v <? base then Some v else None
  | None => None
  end.

Fixpoint parseDigits (base : Z) (acc : Z) (s : string) : option Z :=
  match s with
  | EmptyString => Some acc
  | String c r =>
      match digitValue base c with
      | Some d => parseDigits base (base * acc + d) r
      | None => None
      end
  end.

(** [new BigNumber(s)] for the integer literals: a [0x] prefix selects base
    16, a plain digit string is decimal, anything else is not a number
    ([None] stands for [NaN]). *)
Definition BigNumber (s : string) : option Z :=
  match s with
  | String "0" (String "x" r) =>
      match r with
      | EmptyString => None
      | _ => parseDigits 16 0 r
      end
  | EmptyString => None
  | _ => parseDigits 10 0 s
  end.

(** [.modulo(10)]: the remainder has the sign of the dividend. *)
Definition modulo (x : option Z) (n : Z) : option Z :=
  match x with
  | Some v => if n =? 0 then None else Some (Z.rem v n)
  | None => None
  end.

Definition hashAddressToSingleDigit (address : Address) : option Z :=
  modulo (BigNumber (toLowerCase address)) 10.

(** The template literal [`${n}`] of a number. *)
Definition numberToString (n : option Z) : string :=
  match n with
  | Some z => pretty z
  | None => "NaN"
  end.

Definition getSecurityCodePrefix (issuerAddress : Address) : string :=
  numberToString (hashAddressToSingleDigit issuerAddress).

(** An address: [0x] followed by forty hexadecimal digits of either case. *)
Definition isHexDigit (c : ascii) : bool :=
  match digitValue 16 (lower_ascii c) with Some _ => true | None => false end.

Fixpoint allHex (s : string) : bool :=
  match s with
  | EmptyString => true
  | String c r => isHexDigit c && allHex r
  end.

Definition isAddress (a : string) : bool :=
  match a with
  | String "0" (String "x" r) => (String.length r =? 40)%nat && allHex r
  | _ => false
  end.

(** The number an address denotes: its hexadecimal digits weighted by the
    powers of sixteen, most significant first. *)
Definition hexValueOf (c : ascii) : Z :=
  match digitValue 16 (lower_ascii c) with Some d => d | None => 0 end.

Fixpoint numericValue (digits : string) : Z :=
  match digits with
  | EmptyString => 0
  | String c r => hexValueOf c * 16 ^ Z.of_nat (String.length r) + numericValue r
  end.

Definition addressValue (a : Address) : Z :=
  match a with
  | String _ (String _ r) => numericValue r
  | _ => 0
  end.

Definition decimalDigit (d : Z) : string :=
  String (ascii_of_nat (48 + Z.to_nat d)) EmptyString.

End SecurityCode.

(** ** Helpers of the base package *)

Module Base.

(** [s.substr(-1) === '/'] *)
Fixpoint endsWithSlash (s : string) : bool :=
  match s with
  | EmptyString => false
  | String c EmptyString => bool_decide (c = "/"%char)
  | String _ r => endsWithSlash r
  end.

(** Modelled from the spec: [appendPath] of the base package is not among
    the sources; the issuer HTTP API of the spec addresses [{serviceURL}/status]
    and [{serviceURL}/healthz], one slash between the two parts, as the
    in-line expression of [makeIsIssuerRunningAttestationService] builds it. *)
Definition appendPath (baseUrl path : string) : string :=
  baseUrl +:+ (if endsWithSlash baseUrl then "" else "/") +:+ path.

(** The form addresses are compared in: lower case, without the [0x]
    prefix. *)
Definition normalizeAddress (a : string) : string :=
  SecurityCode.toLowerCase
    (match a with String "0" (String "x" r) => r | _ => a end).

(** Modelled from the spec: [eqAddress] of the base package is not among the
    sources; the spec compares the reported account address with the
    validator's case-insensitively.  A reported value that is not a string
    has no such form: the comparison throws. *)
Definition eqAddress (a : Address) (b : Js.value) : outcome bool :=
  match b with
  | JStr b => Ok (String.eqb (normalizeAddress a) (normalizeAddress b))
  | _ => Throw (TypeError "Cannot read property 'startsWith'")
  end.

(** Modelled from the spec: [zip3] of the base package is not among the
    sources; the completable attestations are read as (blockNumber, issuer,
    metadataURL) triples of three parallel arrays. *)
Fixpoint zip3 {A B C} (xs : list A) (ys : list B) (zs : list C) : list (A * B * C) :=
  match xs, ys, zs with
  | x :: xs, y :: ys, z :: zs => (x, y, z) :: zip3 xs ys zs
  | _, _, _ => []
  end.

Fixpoint takeString (n : nat) (s : string) : string :=
  match n, s with
  | S n, String c r => String c (takeString n r)
  | _, _ => EmptyString
  end.

Fixpoint dropString (n : nat) (s : string) : string :=
  match n, s with
  | S n, String _ r => dropString n r
  | _, _ => s
  end.

(** Modelled from the spec: [parseSolidityStringArray] of the base package is
    not among the sources; a packed string array is one integer length per
    string plus one contiguous byte blob, sliced sequentially by length, in
    array order. *)
Fixpoint parseSolidityStringArray (stringLengths : list Z) (data : string) : list string :=
  match stringLengths with
  | [] => []
  | len :: rest =>
      takeString (Z.to_nat len) data
      :: parseSolidityStringArray rest (dropString (Z.to_nat len) data)
  end.

(** [Promise.all] over probes that were all started: the results in order,
    or the first rejection. *)
Fixpoint promiseAll {B} (ps : list (outcome B)) : outcome (list B) :=
  match ps with
  | [] => mret []
  | p :: ps => b ← p; bs ← promiseAll ps; mret (b :: bs)
  end.

(** Modelled from the spec: [concurrentMap] of the base package is not among
    the sources; it is a bounded-concurrency map, at most [concurrency]
    probes in flight at any time, input order preserved in the output.  The
    input is consumed in batches of [concurrency] elements. *)
Fixpoint concurrentMap_batches {A B} (fuel concurrency : nat) (xs : list A)
    (mapFn : A → outcome B) : outcome (list B) :=
  match fuel with
  | O => mret []
  | S fuel =>
      match xs with
      | [] => mret []
      | _ =>
          batch ← promiseAll (mapFn <$> take concurrency xs);
          rest ← concurrentMap_batches fuel concurrency (drop concurrency xs) mapFn;
          mret (batch ++ rest)
      end
  end.

Definition concurrentMap {A B} (concurrency : nat) (xs : list A)
    (mapFn : A → outcome B) : outcome (list B) :=
  concurrentMap_batches (length xs) concurrency xs mapFn.

End Base.

(** ** Identity metadata, HTTP responses, chain results *)

Module Identity.

(** Modelled from the spec: the claim types are declared outside the sources;
    the wrapper looks for the attestation service URL and for the display
    name, any other type is named by its tag. *)
Inductive ClaimTypes : Type :=
| ATTESTATION_SERVICE_URL
| NAME
| OTHER (tag : string).

Global Instance ClaimTypes_eq_dec : EqDecision ClaimTypes.
Proof. solve_decision. Defined.

(** A claim of a metadata document: its type and the payload fields the
    wrapper reads ([url] of a service URL claim, [name] of a name claim). *)
Record Claim : Type := {
  claim_type : ClaimTypes;
  claim_url : string;
  claim_name : string;
}.

Record IdentityMetadataWrapper : Type := { claims : list Claim }.

(** Modelled from the spec: the metadata wrapper is not among the sources;
    it exposes a find-claim-by-type lookup, absent when no claim has the
    type. *)
Definition findClaim (metadata : IdentityMetadataWrapper) (type : ClaimTypes)
    : option Claim :=
  List.find (fun c => bool_decide (claim_type c = type)) (claims metadata).

End Identity.

Module Http.

(** A parsed JSON body: a scalar, or an object of scalar fields. *)
Inductive json : Type :=
| Scalar (v : Js.value)
| Object (fields : gmap string Js.value).

(** [body.field]: reading a property of [null] or [undefined] throws, an
    absent field is [undefined]. *)
Definition prop (body : json) (field : string) : outcome Js.value :=
  match body with
  | Object fields => Ok (default JUndefined (fields !! field))
  | Scalar JNull | Scalar JUndefined =>
      Throw (TypeError ("Cannot read property '" +:+ field +:+ "'"))
  | Scalar _ => Ok JUndefined
  end.

(** What [fetch] resolves to: [ok] is a 2xx status, [json ()] parses the
    body and rejects when it is not JSON. *)
Record Response : Type := {
  ok : bool;
  status : Z;
  json_body : outcome json;
}.

End Http.

Module Chain.

Record UnselectedRequest : Type := {
  blockNumber : Z;
  attestationsRequested : Z;
  attestationRequestFeeToken : string;
}.

(** The numbered fields of the [getCompletableAttestations] result: block
    numbers, issuers, lengths of the metadata URLs and their concatenation.
    Numerals are given by their integer value, which is what [valueToInt]
    makes of them. *)
Record GetCompletableAttestationsResponse : Type := {
  res0 : list Z;
  res1 : list Address;
  res2 : list Z;
  res3 : string;
}.

(** The four parallel arrays of [batchGetAttestationStats]. *)
Record BatchAttestationStats : Type := {
  stats0 : list Z;
  stats1 : list Address;
  stats2 : list Z;
  stats3 : list Z;
}.

Record Signature : Type := { sig_v : Z; sig_r : string; sig_s : string }.

End Chain.

(** ** The environment of a call *)

Module World.
Import Identity Http Chain.

(** Everything the wrapper asks of the outside: the contracts behind the
    kit, the metadata fetch layer, the HTTP client and the signature
    primitives.  A read at another moment is another environment. *)
Record Env : Type := {
  (* this.kit.contracts.getAccounts() and the Accounts wrapper *)
  getAccounts : outcome unit;
  hasAuthorizedAttestationSigner : Address → outcome bool;
  getAttestationSigner : Address → outcome Address;
  getMetadataURL : Address → outcome string;
  (* this.contract.methods *)
  getUnselectedRequest : string → Address → outcome UnselectedRequest;
  selectIssuersWaitBlocks : outcome Z;
  getCompletableAttestations :
    string → Address → outcome GetCompletableAttestationsResponse;
  batchGetAttestationStats : list string → outcome BatchAttestationStats;
  (* IdentityMetadataWrapper.fetchFromURL(kit, url, tries) *)
  fetchFromURL : string → Z → outcome IdentityMetadataWrapper;
  (* cross-fetch *)
  fetch : string → outcome Response;
  (* AttestationUtils.getAttestationMessageToSignFromIdentifier *)
  getAttestationMessageToSignFromIdentifier : string → Address → string;
  (* the signature a code decodes to, when it is well formed *)
  decodeSignature : string → option Signature;
  (* the address that signed a message with a signature *)
  recoverSigner : string → Signature → Address;
}.

(** The node and the wall clock during a wait: the block height a
    [getBlockNumber] issued at a given time (in milliseconds) answers, and
    how long a request issued at that time takes. *)
Record Timeline : Type := {
  blockNumberAt : Z → outcome Z;
  rpcLatency : Z → Z;
}.

End World.

(** ** The Attestations wrapper *)

Module AttestationsWrapper.
Import Base Identity Http Chain World.

Record AttestationStat : Type := {
  completed : option Z;
  total : option Z;
}.

Record ActionableAttestation : Type := {
  issuer : Address;
  act_blockNumber : Z;
  act_attestationServiceURL : string;
  name : option string;
  act_version : Js.value;
}.

(** [{ isValid: true; result } | { isValid: false; issuer }] *)
Inductive AttestationServiceRunningCheckResult : Type :=
| IsValid (result : ActionableAttestation)
| NotValid (issuer : Address).

Definition isValid (r : AttestationServiceRunningCheckResult) : bool :=
  match r with IsValid _ => true | NotValid _ => false end.

(** One entry of the completable attestations. *)
Record Completable : Type := {
  c_blockNumber : Z;
  c_issuer : Address;
  c_metadataURL : string;
}.

Definition parseGetCompletableAttestations
    (response : GetCompletableAttestationsResponse) : list Completable :=
  let metadataURLs := parseSolidityStringArray (res2 response) (res3 response) in
  (fun '(blockNumber, issuer, metadataURL) =>
     {| c_blockNumber := blockNumber; c_issuer := issuer; c_metadataURL := metadataURL |})
    <$> zip3 (res0 response) (res1 response) metadataURLs.

(** *** Probing the issuers *)

(** The body of the [try] block of the probe. *)
Definition isIssuerRunning_try (env : Env) (tries : Z) (arg : Completable)
    : outcome AttestationServiceRunningCheckResult :=
  metadata ← fetchFromURL env (c_metadataURL arg) tries;
  match findClaim metadata ATTESTATION_SERVICE_URL with
  | None =>
      Throw (Error ("No attestation service URL registered for " +:+ c_issuer arg))
  | Some attestationServiceURLClaim =>
      let nameClaim := findClaim metadata NAME in
      resp ← fetch env
        (claim_url attestationServiceURLClaim
         +:+ (if endsWithSlash (claim_url attestationServiceURLClaim) then "" else "/")
         +:+ "status");
      if negb (ok resp) then
        Throw (Error ("Request failed with status " +:+ pretty (status resp)))
      else
        body ← json_body resp;
        status ← prop body "status";
        version ← prop body "version";
        if strict_ne status (JStr "ok") then
          mret (NotValid (c_issuer arg))
        else
          mret (IsValid
            {| act_blockNumber := c_blockNumber arg;
               issuer := c_issuer arg;
               act_attestationServiceURL := claim_url attestationServiceURLClaim;
               name := claim_name <$> nameClaim;
               act_version := version |})
  end.

Definition makeIsIssuerRunningAttestationService (env : Env) (tries : Z)
    (arg : Completable) : outcome AttestationServiceRunningCheckResult :=
  try_catch (isIssuerRunning_try env tries arg)
    (fun error => mret (NotValid (c_issuer arg))).

Definition getActionableAttestations (env : Env) (identifier : string)
    (account : Address) (tries : Z) : outcome (list ActionableAttestation) :=
  result ← getCompletableAttestations env identifier account;
  results ← concurrentMap 5 (parseGetCompletableAttestations result)
              (makeIsIssuerRunningAttestationService env tries);
  mret (omap (M := list) (fun r => match r with IsValid result => Some result | NotValid _ => None end)
          results).

Definition getNonCompliantIssuers (env : Env) (identifier : string)
    (account : Address) (tries : Z) : outcome (list Address) :=
  result ← getCompletableAttestations env identifier account;
  withAttestationServiceURLs ←
    concurrentMap 5 (parseGetCompletableAttestations result)
      (makeIsIssuerRunningAttestationService env tries);
  mret (omap (M := list) (fun r => match r with IsValid _ => None | NotValid issuer => Some issuer end)
          withAttestationServiceURLs).

(** *** Completing an attestation *)

Definition verificationError (signer : Address) : Js.error :=
  Error ("Unable to parse signature (expected signer " +:+ signer +:+ ")").

(** Modelled from the spec: [SignatureUtils.parseSignature] is not among the
    sources; it recovers the signer of [code] over [message] and throws if
    the recovered signer is not the expected one or if [code] is not a
    well-formed signature. *)
Definition parseSignature (env : Env) (message code : string) (signer : Address)
    : outcome Signature :=
  match decodeSignature env code with
  | None => Throw (verificationError signer)
  | Some sig =>
      if String.eqb (normalizeAddress (recoverSigner env message sig))
                    (normalizeAddress signer)
      then Ok sig
      else Throw (verificationError signer)
  end.

(** The transaction object of [this.contract.methods.complete(identifier, v, r, s)]. *)
Record CompleteTx : Type := {
  tx_identifier : string;
  tx_v : Z;
  tx_r : string;
  tx_s : string;
}.

Definition complete (env : Env) (identifier : string) (account issuer : Address)
    (code : string) : outcome CompleteTx :=
  accounts ← getAccounts env;
  attestationSigner ← getAttestationSigner env issuer;
  let expectedSourceMessage :=
    getAttestationMessageToSignFromIdentifier env identifier account in
  sig ← parseSignature env expectedSourceMessage code attestationSigner;
  mret {| tx_identifier := identifier;
          tx_v := sig_v sig; tx_r := sig_r sig; tx_s := sig_s sig |}.

(** *** Looking identifiers up *)

Section Lookup.
Variable stats : BatchAttestationStats.

Let matches := stats0 stats.
Let addresses := stats1 stats.
Let completed_ := stats2 stats.
Let total_ := stats3 stats.

(** The inner loop, [n] turns from the cursor [rIndex] on.  An index past
    the end of an array reads [undefined], which as a key is the string
    ["undefined"]. *)
Fixpoint matching_loop (n : nat) (rIndex : nat)
    (matchingAddresses : gmap string AttestationStat)
    : gmap string AttestationStat * nat :=
  match n with
  | O => (matchingAddresses, rIndex)
  | S n =>
      let matchingAddress := default "undefined" (addresses !! rIndex) in
      matching_loop n (S rIndex)
        (<[matchingAddress :=
             {| completed := completed_ !! rIndex; total := total_ !! rIndex |}]>
           matchingAddresses)
  end.

(** Turns of [for (mIndex = 0; mIndex < numberOfMatches; mIndex++)]: none
    when the bound is [undefined] or not positive. *)
Definition turns (numberOfMatches : option Z) : nat :=
  match numberOfMatches with
  | Some n => Z.to_nat n
  | None => O
  end.

Fixpoint lookup_loop (identifiers : list string) (pIndex rIndex : nat)
    (result : gmap string (gmap string AttestationStat))
    : gmap string (gmap string AttestationStat) :=
  match identifiers with
  | [] => result
  | pHash :: rest =>
      let numberOfMatches := matches !! pIndex in
      if bool_decide (numberOfMatches = Some 0) then
        lookup_loop rest (S pIndex) rIndex result
      else
        let '(matchingAddresses, rIndex) :=
          matching_loop (turns numberOfMatches) rIndex ∅ in
        lookup_loop rest (S pIndex) rIndex (<[pHash := matchingAddresses]> result)
  end.
End Lookup.

Definition lookupIdentifiers (env : Env) (identifiers : list string)
    : outcome (gmap string (gmap string AttestationStat)) :=
  stats ← batchGetAttestationStats env identifiers;
  mret (lookup_loop stats identifiers 0 0 ∅).

(** *** Waiting for the selection window *)

Inductive Event : Type :=
| PolledBlockNumber (time : Z)
| Slept (ms : Z).

(** The clock ([Date.now ()]) and what the call did so far. *)
Record Run : Type := { now : Z; trace : list Event }.

(** How a call ends; [OutOfFuel] is a loop that was cut short. *)
Inductive completion : Type :=
| Returned
| Thrown (e : Js.error)
| OutOfFuel.

Definition awaitRead (tl : Timeline) (st : Run) : Run :=
  {| now := now st + rpcLatency tl (now st); trace := trace st |}.

Definition awaitBlockNumber (tl : Timeline) (st : Run) : Run :=
  {| now := now st + rpcLatency tl (now st);
     trace := trace st ++ [PolledBlockNumber (now st)] |}.

Definition sleep (ms : Z) (st : Run) : Run :=
  {| now := now st + Z.max 0 ms; trace := trace st ++ [Slept ms] |}.

Definition noRequestError : Js.error := Error "No unselectedRequest to wait for".
Definition timeoutError : Js.error :=
  Error "Timeout while waiting for selecting issuers".

Fixpoint wait_loop (fuel : nat) (tl : Timeline)
    (startTime timeoutSeconds pollDurationSeconds required : Z) (st : Run)
    : completion * Run :=
  match fuel with
  | O => (OutOfFuel, st)
  | S fuel =>
      if now st - startTime <? timeoutSeconds * 1000 then
        match blockNumberAt tl (now st) with
        | Throw e => (Thrown e, awaitBlockNumber tl st)
        | Ok blockNumber =>
            if required <=? blockNumber then (Returned, awaitBlockNumber tl st)
            else
              wait_loop fuel tl startTime timeoutSeconds pollDurationSeconds required
                (sleep (pollDurationSeconds * 1000) (awaitBlockNumber tl st))
        end
      else (Thrown timeoutError, st)
  end.

Definition waitForSelectingIssuers (fuel : nat) (env : Env) (tl : Timeline)
    (identifier : string) (account : Address)
    (timeoutSeconds pollDurationSeconds : Z) (st : Run) : completion * Run :=
  let startTime := now st in
  match getUnselectedRequest env identifier account with
  | Throw e => (Thrown e, awaitRead tl st)
  | Ok unselectedRequest =>
      let st := awaitRead tl st in
      match selectIssuersWaitBlocks env with
      | Throw e => (Thrown e, awaitRead tl st)
      | Ok waitBlocks =>
          let st := awaitRead tl st in
          if blockNumber unselectedRequest =? 0 then (Thrown noRequestError, st)
          else
            wait_loop fuel tl startTime timeoutSeconds pollDurationSeconds
              (blockNumber unselectedRequest + waitBlocks) st
      end
  end.

(** *** The status of an attestation service *)

Inductive AttestationServiceStatusState : Type :=
| NoAttestationSigner
| NoMetadataURL
| InvalidMetadata
| NoAttestationServiceURL
| InvalidAttestationServiceURL
| UnreachableAttestationService
| Valid
| UnreachableHealthz
| Unhealthy
| WrongAccount
| MetadataTimeout.

Record Validator : Type := {
  v_name : string;
  address : Address;
  ecdsaPublicKey : string;
  blsPublicKey : string;
  affiliation : option string;
  score : Z;
  signer : Address;
}.

(** The [error] field: [null], a caught exception, or the [error] a
    [healthz] body reports. *)
Inductive ErrorField : Type :=
| NoError
| Caught (e : Js.error)
| Reported (v : Js.value).

Record AttestationServiceStatusResponse : Type := {
  validator : Validator;
  hasAttestationSigner : bool;
  attestationSigner : Address;
  attestationServiceURL : option string;
  okStatus : bool;
  error : ErrorField;
  smsProviders : Js.value;
  blacklistedRegionCodes : list string;
  rightAccount : bool;
  metadataURL : option string;
  state : AttestationServiceStatusState;
  version : Js.value;
  ageOfLatestBlock : Js.value;
  smsProvidersRandomized : Js.value;
  maxDeliveryAttempts : Js.value;
  maxRerequestMins : Js.value;
  twilioVerifySidProvided : Js.value;
}.

(** The assignments [ret.field = x]. *)
Definition set_attestationServiceURL (x : option string) (ret : AttestationServiceStatusResponse) :=
  {| validator := validator ret; hasAttestationSigner := hasAttestationSigner ret;
     attestationSigner := attestationSigner ret; attestationServiceURL := x;
     okStatus := okStatus ret; error := error ret; smsProviders := smsProviders ret;
     blacklistedRegionCodes := blacklistedRegionCodes ret;
     rightAccount := rightAccount ret; metadataURL := metadataURL ret;
     state := state ret; version := version ret;
     ageOfLatestBlock := ageOfLatestBlock ret;
     smsProvidersRandomized := smsProvidersRandomized ret;
     maxDeliveryAttempts := maxDeliveryAttempts ret;
     maxRerequestMins := maxRerequestMins ret;
     twilioVerifySidProvided := twilioVerifySidProvided ret |}.

Definition set_okStatus (x : bool) (ret : AttestationServiceStatusResponse) :=
  {| validator := validator ret; hasAttestationSigner := hasAttestationSigner ret;
     attestationSigner := attestationSigner ret;
     attestationServiceURL := attestationServiceURL ret; okStatus := x;
     error := error ret; smsProviders := smsProviders ret;
     blacklistedRegionCodes := blacklistedRegionCodes ret;
     rightAccount := rightAccount ret; metadataURL := metadataURL ret;
     state := state ret; version := version ret;
     ageOfLatestBlock := ageOfLatestBlock ret;
     smsProvidersRandomized := smsProvidersRandomized ret;
     maxDeliveryAttempts := maxDeliveryAttempts ret;
     maxRerequestMins := maxRerequestMins ret;
     twilioVerifySidProvided := twilioVerifySidProvided ret |}.

Definition set_error (x : ErrorField) (ret : AttestationServiceStatusResponse) :=
  {| validator := validator ret; hasAttestationSigner := hasAttestationSigner ret;
     attestationSigner := attestationSigner ret;
     attestationServiceURL := attestationServiceURL ret; okStatus := okStatus ret;
     error := x; smsProviders := smsProviders ret;
     blacklistedRegionCodes := blacklistedRegionCodes ret;
     rightAccount := rightAccount ret; metadataURL := metadataURL ret;
     state := state ret; version := version ret;
     ageOfLatestBlock := ageOfLatestBlock ret;
     smsProvidersRandomized := smsProvidersRandomized ret;
     maxDeliveryAttempts := maxDeliveryAttempts ret;
     maxRerequestMins := maxRerequestMins ret;
     twilioVerifySidProvided := twilioVerifySidProvided ret |}.

Definition set_smsProviders (x : Js.value) (ret : AttestationServiceStatusResponse) :=
  {| validator := validator ret; hasAttestationSigner := hasAttestationSigner ret;
     attestationSigner := attestationSigner ret;
     attestationServiceURL := attestationServiceURL ret; okStatus := okStatus ret;
     error := error ret; smsProviders := x;
     blacklistedRegionCodes := blacklistedRegionCodes ret;
     rightAccount := rightAccount ret; metadataURL := metadataURL ret;
     state := state ret; version := version ret;
     ageOfLatestBlock := ageOfLatestBlock ret;
     smsProvidersRandomized := smsProvidersRandomized ret;
     maxDeliveryAttempts := maxDeliveryAttempts ret;
     maxRerequestMins := maxRerequestMins ret;
     twilioVerifySidProvided := twilioVerifySidProvided ret |}.

Definition set_rightAccount (x : bool) (ret : AttestationServiceStatusResponse) :=
  {| validator := validator ret; hasAttestationSigner := hasAttestationSigner ret;
     attestationSigner := attestationSigner ret;
     attestationServiceURL := attestationServiceURL ret; okStatus := okStatus ret;
     error := error ret; smsProviders := smsProviders ret;
     blacklistedRegionCodes := blacklistedRegionCodes ret; rightAccount := x;
     metadataURL := metadataURL ret; state := state ret; version := version ret;
     ageOfLatestBlock := ageOfLatestBlock ret;
     smsProvidersRandomized := smsProvidersRandomized ret;
     maxDeliveryAttempts := maxDeliveryAttempts ret;
     maxRerequestMins := maxRerequestMins ret;
     twilioVerifySidProvided := twilioVerifySidProvided ret |}.

Definition set_metadataURL (x : option string) (ret : AttestationServiceStatusResponse) :=
  {| validator := validator ret; hasAttestationSigner := hasAttestationSigner ret;
     attestationSigner := attestationSigner ret;
     attestationServiceURL := attestationServiceURL ret; okStatus := okStatus ret;
     error := error ret; smsProviders := smsProviders ret;
     blacklistedRegionCodes := blacklistedRegionCodes ret;
     rightAccount := rightAccount ret; metadataURL := x; state := state ret;
     version := version ret; ageOfLatestBlock := ageOfLatestBlock ret;
     smsProvidersRandomized := smsProvidersRandomized ret;
     maxDeliveryAttempts := maxDeliveryAttempts ret;
     maxRerequestMins := maxRerequestMins ret;
     twilioVerifySidProvided := twilioVerifySidProvided ret |}.

Definition set_state (x : AttestationServiceStatusState) (ret : AttestationServiceStatusResponse) :=
  {| validator := validator ret; hasAttestationSigner := hasAttestationSigner ret;
     attestationSigner := attestationSigner ret;
     attestationServiceURL := attestationServiceURL ret; okStatus := okStatus ret;
     error := error ret; smsProviders := smsProviders ret;
     blacklistedRegionCodes := blacklistedRegionCodes ret;
     rightAccount := rightAccount ret; metadataURL := metadataURL ret; state := x;
     version := version ret; ageOfLatestBlock := ageOfLatestBlock ret;
     smsProvidersRandomized := smsProvidersRandomized ret;
     maxDeliveryAttempts := maxDeliveryAttempts ret;
     maxRerequestMins := maxRerequestMins ret;
     twilioVerifySidProvided := twilioVerifySidProvided ret |}.

Definition set_version (x : Js.value) (ret : AttestationServiceStatusResponse) :=
  {| validator := validator ret; hasAttestationSigner := hasAttestationSigner ret;
     attestationSigner := attestationSigner ret;
     attestationServiceURL := attestationServiceURL ret; okStatus := okStatus ret;
     error := error ret; smsProviders := smsProviders ret;
     blacklistedRegionCodes := blacklistedRegionCodes ret;
     rightAccount := rightAccount ret; metadataURL := metadataURL ret;
     state := state ret; version := x; ageOfLatestBlock := ageOfLatestBlock ret;
     smsProvidersRandomized := smsProvidersRandomized ret;
     maxDeliveryAttempts := maxDeliveryAttempts ret;
     maxRerequestMins := maxRerequestMins ret;
     twilioVerifySidProvided := twilioVerifySidProvided ret |}.

Definition set_ageOfLatestBlock (x : Js.value) (ret : AttestationServiceStatusResponse) :=
  {| validator := validator ret; hasAttestationSigner := hasAttestationSigner ret;
     attestationSigner := attestationSigner ret;
     attestationServiceURL := attestationServiceURL ret; okStatus := okStatus ret;
     error := error ret; smsProviders := smsProviders ret;
     blacklistedRegionCodes := blacklistedRegionCodes ret;
     rightAccount := rightAccount ret; metadataURL := metadataURL ret;
     state := state ret; version := version ret; ageOfLatestBlock := x;
     smsProvidersRandomized := smsProvidersRandomized ret;
     maxDeliveryAttempts := maxDeliveryAttempts ret;
     maxRerequestMins := maxRerequestMins ret;
     twilioVerifySidProvided := twilioVerifySidProvided ret |}.

Definition set_smsProvidersRandomized (x : Js.value) (ret : AttestationServiceStatusResponse) :=
  {| validator := validator ret; hasAttestationSigner := hasAttestationSigner ret;
     attestationSigner := attestationSigner ret;
     attestationServiceURL := attestationServiceURL ret; okStatus := okStatus ret;
     error := error ret; smsProviders := smsProviders ret;
     blacklistedRegionCodes := blacklistedRegionCodes ret;
     rightAccount := rightAccount ret; metadataURL := metadataURL ret;
     state := state ret; version := version ret;
     ageOfLatestBlock := ageOfLatestBlock ret; smsProvidersRandomized := x;
     maxDeliveryAttempts := maxDeliveryAttempts ret;
     maxRerequestMins := maxRerequestMins ret;
     twilioVerifySidProvided := twilioVerifySidProvided ret |}.

Definition set_maxDeliveryAttempts (x : Js.value) (ret : AttestationServiceStatusResponse) :=
  {| validator := validator ret; hasAttestationSigner := hasAttestationSigner ret;
     attestationSigner := attestationSigner ret;
     attestationServiceURL := attestationServiceURL ret; okStatus := okStatus ret;
     error := error ret; smsProviders := smsProviders ret;
     blacklistedRegionCodes := blacklistedRegionCodes ret;
     rightAccount := rightAccount ret; metadataURL := metadataURL ret;
     state := state ret; version := version ret;
     ageOfLatestBlock := ageOfLatestBlock ret;
     smsProvidersRandomized := smsProvidersRandomized ret; maxDeliveryAttempts := x;
     maxRerequestMins := maxRerequestMins ret;
     twilioVerifySidProvided := twilioVerifySidProvided ret |}.

Definition set_maxRerequestMins (x : Js.value) (ret : AttestationServiceStatusResponse) :=
  {| validator := validator ret; hasAttestationSigner := hasAttestationSigner ret;
     attestationSigner := attestationSigner ret;
     attestationServiceURL := attestationServiceURL ret; okStatus := okStatus ret;
     error := error ret; smsProviders := smsProviders ret;
     blacklistedRegionCodes := blacklistedRegionCodes ret;
     rightAccount := rightAccount ret; metadataURL := metadataURL ret;
     state := state ret; version := version ret;
     ageOfLatestBlock := ageOfLatestBlock ret;
     smsProvidersRandomized := smsProvidersRandomized ret;
     maxDeliveryAttempts := maxDeliveryAttempts ret; maxRerequestMins := x;
     twilioVerifySidProvided := twilioVerifySidProvided ret |}.

Definition set_twilioVerifySidProvided (x : Js.value) (ret : AttestationServiceStatusResponse) :=
  {| validator := validator ret; hasAttestationSigner := hasAttestationSigner ret;
     attestationSigner := attestationSigner ret;
     attestationServiceURL := attestationServiceURL ret; okStatus := okStatus ret;
     error := error ret; smsProviders := smsProviders ret;
     blacklistedRegionCodes := blacklistedRegionCodes ret;
     rightAccount := rightAccount ret; metadataURL := metadataURL ret;
     state := state ret; version := version ret;
     ageOfLatestBlock := ageOfLatestBlock ret;
     smsProvidersRandomized := smsProvidersRandomized ret;
     maxDeliveryAttempts := maxDeliveryAttempts ret;
     maxRerequestMins := maxRerequestMins ret; twilioVerifySidProvided := x |}.

(** [ret] is one object, assigned to as the probe goes and seen by the
    [catch] blocks as it was left: a state monad under the exceptions. *)
Definition M (A : Type) : Type :=
  AttestationServiceStatusResponse → outcome A * AttestationServiceStatusResponse.

#[export] Instance M_ret : MRet M := fun A a ret => (Ok a, ret).
#[export] Instance M_bind : MBind M := fun A B k m ret =>
  match m ret with
  | (Ok a, ret) => k a ret
  | (Throw e, ret) => (Throw e, ret)
  end.

Definition lift {A} (o : outcome A) : M A := fun ret => (o, ret).
Definition assign (f : AttestationServiceStatusResponse → AttestationServiceStatusResponse)
    : M unit := fun ret => (Ok tt, f ret).
Definition tryCatch {A} (body : M A) (handler : Js.error → M A) : M A := fun ret =>
  match body ret with
  | (Ok a, ret) => (Ok a, ret)
  | (Throw e, ret) => handler e ret
  end.

(** What follows a [try] block: the next statement, or [return ret]. *)
Inductive Flow : Type := Next | Return.

(** [error.type === 'system'] *)
Definition isSystem (e : Js.error) : bool :=
  match e with SystemError _ => true | _ => false end.

(** Modelled from the spec: the default of the [tries] parameter of
    [fetchFromURL], which is not among the sources, is 3. *)
Definition defaultTries : Z := 3.

(** The first [try] block; [None] is [return ret]. *)
Definition resolveServiceURL (env : Env) (metadataURL : string) : M (option string) :=
  tryCatch
    (metadata ← lift (fetchFromURL env metadataURL defaultTries);
     match findClaim metadata ATTESTATION_SERVICE_URL with
     | None => assign (set_state NoAttestationServiceURL);; mret None
     | Some attestationServiceURLClaim => mret (Some (claim_url attestationServiceURLClaim))
     end)
    (fun error =>
       assign (set_state (if isSystem error then MetadataTimeout else InvalidMetadata));;
       assign (set_error (Caught error));;
       mret None).

(** The [healthz] probe, with its own [catch]. *)
Definition healthcheck (env : Env) (attestationServiceURL : string) : M unit :=
  tryCatch
    (healthzResponse ← lift (fetch env (appendPath attestationServiceURL "healthz"));
     healthzResponseBody ← lift (json_body healthzResponse);
     if negb (ok healthzResponse) then
       assign (set_state Unhealthy);;
       error ← lift (prop healthzResponseBody "error");
       if truthy error then assign (set_error (Reported error)) else mret tt
     else mret tt)
    (fun error => assign (set_state UnreachableHealthz)).

(** The second [try] block. *)
Definition probeStatus (env : Env) (validator : Validator)
    (attestationServiceURL : string) : M Flow :=
  tryCatch
    (statusResponse ← lift (fetch env (appendPath attestationServiceURL "status"));
     if negb (ok statusResponse) then
       assign (set_state UnreachableAttestationService);; mret Return
     else
       assign (set_okStatus true);;
       statusResponseBody ← lift (json_body statusResponse);
       smsProviders ← lift (prop statusResponseBody "smsProviders");
       assign (set_smsProviders smsProviders);;
       accountAddress ← lift (prop statusResponseBody "accountAddress");
       rightAccount ← lift (eqAddress (address validator) accountAddress);
       assign (set_rightAccount rightAccount);;
       assign (set_state (if rightAccount : bool then Valid else WrongAccount));;
       ageOfLatestBlock ← lift (prop statusResponseBody "ageOfLatestBlock");
       assign (set_ageOfLatestBlock ageOfLatestBlock);;
       smsProvidersRandomized ← lift (prop statusResponseBody "smsProvidersRandomized");
       assign (set_smsProvidersRandomized smsProvidersRandomized);;
       maxDeliveryAttempts ← lift (prop statusResponseBody "maxDeliveryAttempts");
       assign (set_maxDeliveryAttempts maxDeliveryAttempts);;
       maxRerequestMins ← lift (prop statusResponseBody "maxRerequestMins");
       assign (set_maxRerequestMins maxRerequestMins);;
       twilioVerifySidProvided ← lift (prop statusResponseBody "twilioVerifySidProvided");
       assign (set_twilioVerifySidProvided twilioVerifySidProvided);;
       version ← lift (prop statusResponseBody "version");
       (if truthy version then
          assign (set_version version);;
          healthcheck env attestationServiceURL;;
          isNodeSyncing ← lift (prop statusResponseBody "isNodeSyncing");
          if (strict_ne ageOfLatestBlock JNull && gt_number ageOfLatestBlock 10)
             || strict_eq isNodeSyncing (JBool true)
          then assign (set_state Unhealthy)
          else mret tt
        else assign (set_version (JStr "1.0.0")));;
       mret Next)
    (fun error =>
       assign (set_state UnreachableAttestationService);;
       assign (set_error (Caught error));;
       mret Next).

Definition getAttestationServiceStatus (env : Env) (validator : Validator)
    : outcome AttestationServiceStatusResponse :=
  accounts ← getAccounts env;
  hasAttestationSigner ← hasAuthorizedAttestationSigner env (address validator);
  attestationSigner ← getAttestationSigner env (address validator);
  let ret :=
    {| validator := validator;
       hasAttestationSigner := hasAttestationSigner;
       attestationSigner := attestationSigner;
       attestationServiceURL := None;
       okStatus := false;
       error := NoError;
       smsProviders := JArr [];
       blacklistedRegionCodes := [];
       rightAccount := false;
       metadataURL := None;
       state := NoAttestationSigner;
       version := JNull;
       ageOfLatestBlock := JNull;
       smsProvidersRandomized := JNull;
       maxDeliveryAttempts := JNull;
       maxRerequestMins := JNull;
       twilioVerifySidProvided := JNull |} in
  if negb hasAttestationSigner then mret ret
  else
    metadataURL ← getMetadataURL env (address validator);
    let ret := set_metadataURL (Some metadataURL) ret in
    if String.eqb metadataURL "" then mret (set_state NoMetadataURL ret)
    else if String.prefix "http://" metadataURL then
      mret (set_state InvalidAttestationServiceURL ret)
    else
      mret (snd
        ((resolved ← resolveServiceURL env metadataURL;
          match resolved with
          | None => mret Return
          | Some attestationServiceURL =>
              assign (set_attestationServiceURL (Some attestationServiceURL));;
              probeStatus env validator attestationServiceURL
          end) ret)).

End AttestationsWrapper.

(** ** Notions the properties are stated with *)

Module Properties.
Import Base Identity Http Chain World AttestationsWrapper.

(** The verdict of the probe on one entry, exceptions downgraded. *)
Definition classification (env : Env) (tries : Z) (arg : Completable)
    : AttestationServiceRunningCheckResult :=
  match isIssuerRunning_try env tries arg with
  | Ok r => r
  | Throw _ => NotValid (c_issuer arg)
  end.

(** The address of the status endpoint of a service URL claim. *)
Definition statusURL (claim : Claim) : string :=
  claim_url claim +:+ (if endsWithSlash (claim_url claim) then "" else "/") +:+ "status".

Definition issuerOf (r : AttestationServiceRunningCheckResult) : Address :=
  match r with
  | IsValid result => issuer result
  | NotValid issuer => issuer
  end.

Definition actionableOf (results : list AttestationServiceRunningCheckResult)
    : list ActionableAttestation :=
  omap (M := list)
    (fun r => match r with IsValid result => Some result | NotValid _ => None end) results.

Definition nonCompliantOf (results : list AttestationServiceRunningCheckResult)
    : list Address :=
  omap (M := list)
    (fun r => match r with IsValid _ => None | NotValid issuer => Some issuer end) results.

(** The named ways a probe fails. *)
Inductive probeFailure (env : Env) (tries : Z) (arg : Completable) : Prop :=
| MetadataFetchFailed e :
    fetchFromURL env (c_metadataURL arg) tries = Throw e →
    probeFailure env tries arg
| NoServiceURLClaim metadata :
    fetchFromURL env (c_metadataURL arg) tries = Ok metadata →
    findClaim metadata ATTESTATION_SERVICE_URL = None →
    probeFailure env tries arg
| StatusUnreachable metadata claim e :
    fetchFromURL env (c_metadataURL arg) tries = Ok metadata →
    findClaim metadata ATTESTATION_SERVICE_URL = Some claim →
    fetch env (statusURL claim) = Throw e →
    probeFailure env tries arg
| StatusNot2xx metadata claim resp :
    fetchFromURL env (c_metadataURL arg) tries = Ok metadata →
    findClaim metadata ATTESTATION_SERVICE_URL = Some claim →
    fetch env (statusURL claim) = Ok resp →
    ok resp = false →
    probeFailure env tries arg
| StatusBodyUnreadable metadata claim resp e :
    fetchFromURL env (c_metadataURL arg) tries = Ok metadata →
    findClaim metadata ATTESTATION_SERVICE_URL = Some claim →
    fetch env (statusURL claim) = Ok resp →
    ok resp = true →
    (body ← json_body resp; prop body "status") = Throw e →
    probeFailure env tries arg.

(** [code] is a valid signature over [message] by [signer]: it is a
    well-formed signature and the address recovered from it over the message
    is the signer's. *)
Definition validSignature (env : Env) (message code : string) (signer : Address) : Prop :=
  ∃ sig, decodeSignature env code = Some sig
         ∧ normalizeAddress (recoverSigner env message sig) = normalizeAddress signer.

(** The key and the statistics the decoding reads at a position of the flat
    arrays. *)
Definition keyAt (stats : BatchAttestationStats) (j : nat) : string :=
  default "undefined" (stats1 stats !! j).

Definition statAt (stats : BatchAttestationStats) (j : nat) : AttestationStat :=
  {| completed := stats2 stats !! j; total := stats3 stats !! j |}.

Definition runKeys (stats : BatchAttestationStats) (r n : nat) : list string :=
  keyAt stats <$> seq r n.

(** How far the identifiers at the positions [p], ..., [p + q - 1] move the
    cursor: by the sum of their match-counts. *)
Definition advance (stats : BatchAttestationStats) (p q : nat) : nat :=
  sum_list_with (fun j => turns (stats0 stats !! j)) (seq p q).

Definition cursor (stats : BatchAttestationStats) (p : nat) : nat :=
  advance stats 0 p.

(** A call that starts at time [t0]. *)
Definition start (t0 : Z) : Run := {| now := t0; trace := [] |}.

(** The poll issued at time [t] finds the chain below the required block. *)
Definition pollBelow (tl : Timeline) (required t : Z) : Prop :=
  ∃ b, blockNumberAt tl t = Ok b ∧ b < required.

(** Between two polls the clock moves on: a request and the pause after it
    take at least a millisecond together. *)
Definition clockAdvances (tl : Timeline) (pollDurationSeconds : Z) : Prop :=
  ∀ t, 1 ≤ rpcLatency tl t + Z.max 0 (pollDurationSeconds * 1000).

(** The state a probe classifies a validator into, when the call returns. *)
Definition statusState (env : Env) (validator : Validator)
    : option AttestationServiceStatusState :=
  match getAttestationServiceStatus env validator with
  | Ok ret => Some (state ret)
  | Throw _ => None
  end.

(** The status body reports a latest block older than 10, or a node that is
    syncing. *)
Definition stale (fields : gmap string Js.value) : Prop :=
  (∃ z, fields !! "ageOfLatestBlock" = Some (JNum z) ∧ 10 < z)
  ∨ fields !! "isNodeSyncing" = Some (JBool true).

(** The status body reports a recent block and a node that is not syncing. *)
Definition fresh (fields : gmap string Js.value) : Prop :=
  (∃ z, fields !! "ageOfLatestBlock" = Some (JNum z) ∧ z ≤ 10)
  ∧ fields !! "isNodeSyncing" = Some (JBool false).

(** The probe of [validator] gets as far as a status body: there is a
    signer, a metadata URL over a secure transport, metadata with a service
    URL claim for [url], and the status endpoint of [url] answers 2xx with
    the JSON object [fields], which reports the account [acct]. *)
Definition reachesStatus (env : Env) (validator : Validator) (url : string)
    (fields : gmap string Js.value) (acct : string) : Prop :=
  getAccounts env = Ok tt
  ∧ hasAuthorizedAttestationSigner env (address validator) = Ok true
  ∧ (∃ s, getAttestationSigner env (address validator) = Ok s)
  ∧ ∃ metadataURL metadata claim resp,
      getMetadataURL env (address validator) = Ok metadataURL
      ∧ String.eqb metadataURL "" = false
      ∧ String.prefix "http://" metadataURL = false
      ∧ fetchFromURL env metadataURL defaultTries = Ok metadata
      ∧ findClaim metadata ATTESTATION_SERVICE_URL = Some claim
      ∧ claim_url claim = url
      ∧ fetch env (appendPath url "status") = Ok resp
      ∧ ok resp = true
      ∧ json_body resp = Ok (Object fields)
      ∧ fields !! "accountAddress" = Some (JStr acct).

End Properties.

(** ** A sample environment

    Four validators: A runs a healthy service, the metadata of B cannot be
    fetched, the service of C answers with a degraded status and a stale
    node, and D has registered the metadata of A but has no attestation
    signer. *)

Module Sample.
Import Base Identity Http Chain World AttestationsWrapper Properties.

Definition issuerA : Address := "0x47e172F6CfB6c7D01C1574fa3E2Be7CC73269D95".
Definition issuerB : Address := "0x5409ED021D9299bf6814279A6A1411A7e866A631".
Definition issuerC : Address := "0x6Ecbe1DB9EF729CBe972C83Fb886247691Fb6beb".
Definition issuerD : Address := "0xE36Ea790bc9d7AB70C55260C66D52b1eca985f84".
Definition account : Address := "0x06cEf8E666768cC40Cc78CF93d9611019dDcB628".
Definition identifier : string := "0x1c5dd1b1a8a0bcb6bd2b8af5a3ab0fd1a1a4bd8d".

Definition metadataOf (host : string) : string := "https://" +:+ host +:+ "/metadata.json".
Definition serviceOf (host : string) : string := "https://" +:+ host +:+ "/attestations".

Definition metadata (host who : string) : IdentityMetadataWrapper :=
  {| claims :=
       [ {| claim_type := NAME; claim_url := ""; claim_name := who |};
         {| claim_type := ATTESTATION_SERVICE_URL; claim_url := serviceOf host;
            claim_name := "" |} ] |}.

Definition statusBody (status : string) (reported : Address) (age : Z)
    : gmap string Js.value :=
  <["status" := JStr status]>
    (<["version" := JStr "1.2.0"]>
       (<["accountAddress" := JStr reported]>
          (<["ageOfLatestBlock" := JNum age]>
             (<["isNodeSyncing" := JBool false]> ∅)))).

Definition response200 (body : json) : Response :=
  {| ok := true; status := 200; json_body := Ok body |}.

Definition sampleFetch (url : string) : outcome Response :=
  if String.eqb url (serviceOf "a.example" +:+ "/status") then
    Ok (response200 (Object (statusBody "ok" issuerA 3)))
  else if String.eqb url (serviceOf "a.example" +:+ "/healthz") then
    Ok (response200 (Object ∅))
  else if String.eqb url (serviceOf "c.example" +:+ "/status") then
    Ok (response200 (Object (statusBody "degraded" issuerC 20)))
  else if String.eqb url (serviceOf "c.example" +:+ "/healthz") then
    Ok (response200 (Object ∅))
  else Throw (SystemError "connection refused").

Definition sampleFetchFromURL (url : string) (tries : Z) : outcome IdentityMetadataWrapper :=
  if String.eqb url (metadataOf "a.example") then Ok (metadata "a.example" "Validator A")
  else if String.eqb url (metadataOf "c.example") then Ok (metadata "c.example" "Validator C")
  else Throw (SystemError "request timed out").

Definition sampleMetadataURL (a : Address) : string :=
  if String.eqb a issuerA then metadataOf "a.example"
  else if String.eqb a issuerB then metadataOf "b.example"
  else if String.eqb a issuerC then metadataOf "c.example"
  else if String.eqb a issuerD then metadataOf "a.example"
  else "".

Definition completable : GetCompletableAttestationsResponse :=
  {| res0 := [100; 101; 102];
     res1 := [issuerA; issuerB; issuerC];
     res2 := [31; 31; 31];
     res3 := metadataOf "a.example" +:+ metadataOf "b.example" +:+ metadataOf "c.example" |}.

Definition candidateB : Completable :=
  {| c_blockNumber := 101; c_issuer := issuerB; c_metadataURL := metadataOf "b.example" |}.

Definition candidateC : Completable :=
  {| c_blockNumber := 102; c_issuer := issuerC; c_metadataURL := metadataOf "c.example" |}.

Definition batchStats : BatchAttestationStats :=
  {| stats0 := [2; 0; 1];
     stats1 := [issuerA; issuerB; issuerC];
     stats2 := [3; 1; 0];
     stats3 := [3; 2; 4] |}.

Definition goodSignature : Signature := {| sig_v := 27; sig_r := "0x5e"; sig_s := "0x7a" |}.
Definition otherSignature : Signature := {| sig_v := 28; sig_r := "0x11"; sig_s := "0x22" |}.

Definition env : Env :=
  {| getAccounts := Ok tt;
     hasAuthorizedAttestationSigner := fun a => Ok (negb (String.eqb a issuerD));
     getAttestationSigner := fun a => Ok a;
     getMetadataURL := fun a => Ok (sampleMetadataURL a);
     getUnselectedRequest := fun id _ =>
       Ok {| blockNumber := (if String.eqb id identifier then 100 else 0);
             attestationsRequested := 3;
             attestationRequestFeeToken := "0x765DE816845861e75A25fCA122bb6898B8B1282a" |};
     selectIssuersWaitBlocks := Ok 4;
     getCompletableAttestations := fun _ _ => Ok completable;
     batchGetAttestationStats := fun _ => Ok batchStats;
     fetchFromURL := sampleFetchFromURL;
     fetch := sampleFetch;
     getAttestationMessageToSignFromIdentifier := fun id acct => id +:+ acct;
     decodeSignature := fun code =>
       if String.eqb code "goodcode" then Some goodSignature
       else if String.eqb code "othercode" then Some otherSignature
       else None;
     recoverSigner := fun _ sig => if sig_v sig =? 27 then issuerA else issuerB |}.

Definition validatorOf (who : string) (a : Address) : Validator :=
  {| v_name := who; address := a; ecdsaPublicKey := "0x04"; blsPublicKey := "0x05";
     affiliation := None; score := 1; signer := a |}.

(** A node that gains a block every five seconds from block 100 on, and one
    that is stuck at block 101; a request takes 20 milliseconds. *)
Definition movingChain : Timeline :=
  {| blockNumberAt := fun t => Ok (100 + t / 5000); rpcLatency := fun _ => 20 |}.

Definition stuckChain : Timeline :=
  {| blockNumberAt := fun _ => Ok 101; rpcLatency := fun _ => 20 |}.

End Sample.

(** ** The other operations of the Attestations wrapper *)

Module Ledger.

(** The contract methods the operations below call, beside those of
    [World.Env]. *)
Record Reads : Type := {
  lookupAccountsForIdentifier : string → outcome (list Address);
  (* this.contract.methods.validateAttestationCode(identifier, account, v, r, s).call() *)
  validateAttestationCode_call : string → Address → Z → string → string → outcome Address;
  attestationExpiryBlocks : outcome Z;
  attestationRequestFees : Address → outcome Z;
}.

End Ledger.

Module AttestationsOperations.
Import Base Chain World Ledger AttestationsWrapper.

(** The loop [for (const issuer of issuers)] of [findMatchingIssuer]: the
    signer is looked up outside the [try], the signature is parsed inside. *)
Fixpoint findMatchingIssuer_loop (env : Env) (expectedSourceMessage code : string)
    (issuers : list string) : outcome (option string) :=
  match issuers with
  | [] => mret None
  | issuer :: rest =>
      attestationSigner ← getAttestationSigner env issuer;
      try_catch
        (sig ← parseSignature env expectedSourceMessage code attestationSigner;
         mret (Some issuer))
        (fun error => findMatchingIssuer_loop env expectedSourceMessage code rest)
  end.

Definition findMatchingIssuer (env : Env) (identifier : string) (account : Address)
    (code : string) (issuers : list string) : outcome (option string) :=
  accounts ← getAccounts env;
  let expectedSourceMessage :=
    getAttestationMessageToSignFromIdentifier env identifier account in
  findMatchingIssuer_loop env expectedSourceMessage code issuers.

(** Modelled from the spec: [NULL_ADDRESS] of the base package is not among
    the sources; it is the null address, forty zeros. *)
Definition NULL_ADDRESS : Address := "0x0000000000000000000000000000000000000000".

Definition validateAttestationCode (env : Env) (reads : Reads) (identifier : string)
    (account issuer : Address) (code : string) : outcome bool :=
  accounts ← getAccounts env;
  attestationSigner ← getAttestationSigner env issuer;
  let expectedSourceMessage :=
    getAttestationMessageToSignFromIdentifier env identifier account in
  sig ← parseSignature env expectedSourceMessage code attestationSigner;
  result ← validateAttestationCode_call reads identifier account
             (sig_v sig) (sig_r sig) (sig_s sig);
  mret (negb (String.eqb (SecurityCode.toLowerCase result) NULL_ADDRESS)).

(** [Array.prototype.findIndex]: the first index whose element satisfies the
    predicate, [-1] when there is none. *)
Fixpoint findIndex_from {A} (p : A → bool) (l : list A) (i : Z) : Z :=
  match l with
  | [] => -1
  | x :: r => if p x then i else findIndex_from p r (i + 1)
  end.

Definition findIndex {A} (p : A → bool) (l : list A) : Z := findIndex_from p l 0.

(** [eqAddress] on two strings. *)
Definition sameAddress (a b : Address) : bool :=
  String.eqb (normalizeAddress a) (normalizeAddress b).

(** The transaction object of [this.contract.methods.revoke(identifer, idx)]. *)
Record RevokeTx : Type := { rv_identifier : string; rv_index : Z }.

Definition accountNotFound : Js.error :=
  Error "Account not found in identifier's accounts".

Definition revoke (reads : Reads) (identifer : string) (account : Address)
    : outcome RevokeTx :=
  accounts ← lookupAccountsForIdentifier reads identifer;
  let idx := findIndex (fun acc => sameAddress acc account) accounts in
  if idx <? 0 then Throw accountNotFound
  else mret {| rv_identifier := identifer; rv_index := idx |}.

Record AttestationsToken : Type := { tk_address : Address; fee : Z }.

Record AttestationsConfig : Type := {
  cfg_attestationExpiryBlocks : Z;
  cfg_attestationRequestFees : list AttestationsToken;
}.

Definition getConfig (reads : Reads) (tokens : list string) : outcome AttestationsConfig :=
  fees ← promiseAll
           ((fun token =>
               fee ← attestationRequestFees reads token;
               mret {| fee := fee; tk_address := token |}) <$> tokens);
  expiry ← attestationExpiryBlocks reads;
  mret {| cfg_attestationExpiryBlocks := expiry; cfg_attestationRequestFees := fees |}.

(** The transaction object of [this.contract.methods.selectIssuers(identifier)]. *)
Record SelectIssuersTx : Type := { si_identifier : string }.

Definition selectIssuers (identifier : string) : SelectIssuersTx :=
  {| si_identifier := identifier |}.

(** How a call that returns a value ends. *)
Inductive finished (A : Type) : Type :=
| Done (a : A)
| Failed (e : Js.error)
| Unfinished.
Arguments Done {A} a.
Arguments Failed {A} e.
Arguments Unfinished {A}.

(** An omitted [timeoutSeconds] or [pollDurationSeconds] takes the default of
    [waitForSelectingIssuers], 120 and 1. *)
Definition selectIssuersAfterWait (fuel : nat) (env : Env) (tl : Timeline)
    (identifier : string) (account : string)
    (timeoutSeconds pollDurationSeconds : option Z) (st : Run)
    : finished SelectIssuersTx * Run :=
  match waitForSelectingIssuers fuel env tl identifier account
          (default 120 timeoutSeconds) (default 1 pollDurationSeconds) st with
  | (Returned, st) => (Done (selectIssuers identifier), st)
  | (Thrown e, st) => (Failed e, st)
  | (OutOfFuel, st) => (Unfinished, st)
  end.

End AttestationsOperations.

(** ** The contract kit *)

Module Kit.
Import Base.

Inductive CeloContract : Type :=
| Attestations | BlockchainParameters | DowntimeSlasher | Election | GasPriceMinimum
| GoldToken | Governance | GrandaMento | LockedGold | Reserve | SortedOracles
| StableToken | StableTokenEUR | Validators.

Global Instance CeloContract_eq_dec : EqDecision CeloContract.
Proof. solve_decision. Defined.

(** The kit wrapper of a contract, as [this.contracts] hands it out. *)
Inductive Wrapper : Type := WrapperOf (contract : CeloContract).

(** What the kit asks of the registry, the wrappers and the token helper. *)
Record KitEnv : Type := {
  (* this.contracts.getX() resolves the wrapper of X, or rejects *)
  resolveContract : CeloContract → outcome unit;
  (* this.registry.addressFor(contract) *)
  addressFor : CeloContract → outcome Address;
  (* validators.getEpochSize(), as a number *)
  validators_getEpochSize : outcome Z;
  (* gasPriceMinimum.getGasPriceMinimum(currency) *)
  getGasPriceMinimum_of : Address → outcome Z;
  (* lockedCelo.getAccountTotalLockedGold(address) *)
  getAccountTotalLockedGold : Address → outcome Z;
  (* lockedCelo.getPendingWithdrawalsTotalValue(address) *)
  getPendingWithdrawalsTotalValue : Address → outcome Z;
  (* this.celoTokens.balancesOf(address): a balance per token symbol *)
  balancesOf : Address → outcome (gmap string Z);
}.

Definition getContract (env : KitEnv) (contract : CeloContract) : outcome Wrapper :=
  _ ← resolveContract env contract; mret (WrapperOf contract).

(** *** Epochs *)

(** [Math.floor(a / b)] and [a % b] on integers; [None] is a result that is
    not a finite number, which is what a division by 0 gives. *)
Definition floorDiv (a b : Z) : option Z :=
  if b =? 0 then None else Some (a / b).

Definition remainder (a b : Z) : option Z :=
  if b =? 0 then None else Some (Z.rem a b).

Definition getEpochSize (env : KitEnv) : outcome Z :=
  validators ← getContract env Validators;
  epochSize ← validators_getEpochSize env;
  mret epochSize.

Definition getFirstBlockNumberForEpoch (env : KitEnv) (epochNumber : Z) : outcome Z :=
  epochSize ← getEpochSize env;
  if epochNumber =? 0 then mret 0
  else mret ((epochNumber - 1) * epochSize + 1).

Definition getLastBlockNumberForEpoch (env : KitEnv) (epochNumber : Z) : outcome Z :=
  epochSize ← getEpochSize env;
  if epochNumber =? 0 then mret 0
  else
    firstBlockNumberForEpoch ← getFirstBlockNumberForEpoch env epochNumber;
    mret (firstBlockNumberForEpoch + (epochSize - 1)).

Definition getEpochNumberOfBlock (env : KitEnv) (blockNumber : Z) : outcome (option Z) :=
  epochSize ← getEpochSize env;
  let epochNumber := floorDiv blockNumber epochSize in
  if bool_decide (remainder blockNumber epochSize = Some 0) then mret epochNumber
  else mret ((fun n => n + 1) <$> epochNumber).

(** *** The fee currency *)

(** The part of the connection the kit writes to, and the multiplier field of
    the kit. *)
Record Connection : Type := {
  defaultFeeCurrency : option Address;
  currencyGasPrice : gmap Address string;
  gasPriceSuggestionMultiplier : Z;
}.

Definition newConnection : Connection :=
  {| defaultFeeCurrency := None; currencyGasPrice := ∅;
     gasPriceSuggestionMultiplier := 5 |}.

(** [connection.setGasPriceForCurrency(currency, gasPrice)] *)
Definition setGasPriceForCurrency (currency : Address) (gasPrice : string)
    (c : Connection) : Connection :=
  {| defaultFeeCurrency := defaultFeeCurrency c;
     currencyGasPrice := <[currency := gasPrice]> (currencyGasPrice c);
     gasPriceSuggestionMultiplier := gasPriceSuggestionMultiplier c |}.

Definition set_defaultFeeCurrency (address : option Address) (c : Connection)
    : Connection :=
  {| defaultFeeCurrency := address;
     currencyGasPrice := currencyGasPrice c;
     gasPriceSuggestionMultiplier := gasPriceSuggestionMultiplier c |}.

Definition updateGasPriceInConnectionLayer (env : KitEnv) (currency : Address)
    (c : Connection) : outcome unit * Connection :=
  match getContract env GasPriceMinimum with
  | Throw e => (Throw e, c)
  | Ok gasPriceMinimum =>
      match getGasPriceMinimum_of env currency with
      | Throw e => (Throw e, c)
      | Ok rawGasPrice =>
          let gasPrice := pretty (rawGasPrice * gasPriceSuggestionMultiplier c) in
          (Ok tt, setGasPriceForCurrency currency gasPrice c)
      end
  end.

(** [if (address)]: an address that is defined and not the empty string. *)
Definition definedAddress (address : option Address) : option Address :=
  match address with
  | Some a => if String.eqb a "" then None else Some a
  | None => None
  end.

Definition setFeeCurrency (env : KitEnv) (tokenContract : CeloContract)
    (c : Connection) : outcome unit * Connection :=
  match (if bool_decide (tokenContract = GoldToken) then Ok None
         else a ← addressFor env tokenContract; mret (Some a)) with
  | Throw e => (Throw e, c)
  | Ok address =>
      match definedAddress address with
      | Some a =>
          match updateGasPriceInConnectionLayer env a c with
          | (Ok _, c) => (Ok tt, set_defaultFeeCurrency address c)
          | (Throw e, c) => (Throw e, c)
          end
      | None => (Ok tt, set_defaultFeeCurrency address c)
      end
  end.

(** *** The total balance *)

(** The object [{ lockedCELO, pending, ...balances }]: a later key of the
    spread replaces an earlier one. *)
Definition getTotalBalance (env : KitEnv) (address : string) : outcome (gmap string Z) :=
  lockedCelo ← getContract env LockedGold;
  lockedBalance ← getAccountTotalLockedGold env address;
  pending ← try_catch (getPendingWithdrawalsTotalValue env address) (fun err => mret 0);
  balances ← balancesOf env address;
  mret (balances ∪ <["lockedCELO" := lockedBalance]> (<["pending" := pending]> ∅)).

(** *** The network configuration *)

Section NetworkConfig.
Variable Config : Type.

(** The configuration readers: of the token helper (the flag is the
    [humanReadable] argument) and of each wrapper (the argument is the list
    of token addresses, when one is passed). *)
Record ConfigEnv : Type := {
  getAddresses : outcome (list Address);
  getExchangesConfigs : bool → outcome Config;
  getStablesConfigs : bool → outcome Config;
  wrapper_getConfig : Wrapper → option (list Address) → outcome Config;
  wrapper_getHumanReadableConfig : Wrapper → option (list Address) → outcome Config;
}.

Record NetworkConfig : Type := {
  exchanges : option Config;
  stableTokens : option Config;
  election : option Config;
  attestations : option Config;
  governance : option Config;
  lockedGold : option Config;
  sortedOracles : option Config;
  gasPriceMinimum : option Config;
  reserve : option Config;
  validators : option Config;
  downtimeSlasher : option Config;
  blockchainParameters : option Config;
  grandaMento : option Config;
}.

(** The object [getHumanReadableNetworkConfig] returns has no [grandaMento]
    key. *)
Record HumanReadableNetworkConfig : Type := {
  hr_exchanges : option Config;
  hr_stableTokens : option Config;
  hr_election : option Config;
  hr_attestations : option Config;
  hr_governance : option Config;
  hr_lockedGold : option Config;
  hr_sortedOracles : option Config;
  hr_gasPriceMinimum : option Config;
  hr_reserve : option Config;
  hr_validators : option Config;
  hr_downtimeSlasher : option Config;
  hr_blockchainParameters : option Config;
}.

(** The wrappers both calls resolve, in this order. *)
Definition networkContracts : list CeloContract :=
  [Election; Attestations; Governance; LockedGold; SortedOracles; GasPriceMinimum;
   Reserve; Validators; DowntimeSlasher; BlockchainParameters; GrandaMento].

(** The element [contracts[i].method(...)] of an array literal: the call
    starts a request whose answer is awaited later; on an index past the
    end [contracts[i]] is [undefined] and reading its method throws. *)
Definition element (contracts : list Wrapper) (i : nat)
    (method : Wrapper → outcome Config) : outcome (outcome Config) :=
  match contracts !! i with
  | Some wrapper => Ok (method wrapper)
  | None => Throw (TypeError "Cannot read property 'getConfig' of undefined")
  end.

(** The elements of an array literal are evaluated from left to right. *)
Fixpoint arrayLiteral {A} (elements : list (outcome A)) : outcome (list A) :=
  match elements with
  | [] => mret []
  | e :: rest => x ← e; xs ← arrayLiteral rest; mret (x :: xs)
  end.

Definition getNetworkConfig (env : KitEnv) (cfg : ConfigEnv) : outcome NetworkConfig :=
  celoTokenAddresses ← getAddresses cfg;
  contracts ← promiseAll (getContract env <$> networkContracts);
  requests ← arrayLiteral
    [ Ok (getExchangesConfigs cfg false);
      Ok (getStablesConfigs cfg false);
      element contracts 0 (fun w => wrapper_getConfig cfg w None);
      element contracts 1 (fun w => wrapper_getConfig cfg w (Some celoTokenAddresses));
      element contracts 2 (fun w => wrapper_getConfig cfg w None);
      element contracts 3 (fun w => wrapper_getConfig cfg w None);
      element contracts 4 (fun w => wrapper_getConfig cfg w None);
      element contracts 5 (fun w => wrapper_getConfig cfg w None);
      element contracts 6 (fun w => wrapper_getConfig cfg w None);
      element contracts 7 (fun w => wrapper_getConfig cfg w None);
      element contracts 8 (fun w => wrapper_getConfig cfg w None);
      element contracts 9 (fun w => wrapper_getConfig cfg w None);
      element contracts 10 (fun w => wrapper_getConfig cfg w None);
      element contracts 11 (fun w => wrapper_getConfig cfg w None) ];
  res ← promiseAll requests;
  mret {| exchanges := res !! 0%nat;
          stableTokens := res !! 1%nat;
          election := res !! 2%nat;
          attestations := res !! 3%nat;
          governance := res !! 4%nat;
          lockedGold := res !! 5%nat;
          sortedOracles := res !! 6%nat;
          gasPriceMinimum := res !! 7%nat;
          reserve := res !! 8%nat;
          validators := res !! 9%nat;
          downtimeSlasher := res !! 10%nat;
          blockchainParameters := res !! 11%nat;
          grandaMento := res !! 12%nat |}.

Definition getHumanReadableNetworkConfig (env : KitEnv) (cfg : ConfigEnv)
    : outcome HumanReadableNetworkConfig :=
  celoTokenAddresses ← getAddresses cfg;
  contracts ← promiseAll (getContract env <$> networkContracts);
  requests ← arrayLiteral
    [ Ok (getExchangesConfigs cfg true);
      Ok (getStablesConfigs cfg true);
      element contracts 0 (fun w => wrapper_getConfig cfg w None);
      element contracts 1
        (fun w => wrapper_getHumanReadableConfig cfg w (Some celoTokenAddresses));
      element contracts 2 (fun w => wrapper_getHumanReadableConfig cfg w None);
      element contracts 3 (fun w => wrapper_getHumanReadableConfig cfg w None);
      element contracts 4 (fun w => wrapper_getHumanReadableConfig cfg w None);
      element contracts 5 (fun w => wrapper_getConfig cfg w None);
      element contracts 6 (fun w => wrapper_getConfig cfg w None);
      element contracts 7 (fun w => wrapper_getHumanReadableConfig cfg w None);
      element contracts 8 (fun w => wrapper_getHumanReadableConfig cfg w None);
      element contracts 9 (fun w => wrapper_getConfig cfg w None);
      element contracts 10 (fun w => wrapper_getConfig cfg w None) ];
  res ← promiseAll requests;
  mret {| hr_exchanges := res !! 0%nat;
          hr_stableTokens := res !! 1%nat;
          hr_election := res !! 2%nat;
          hr_attestations := res !! 3%nat;
          hr_governance := res !! 4%nat;
          hr_lockedGold := res !! 5%nat;
          hr_sortedOracles := res !! 6%nat;
          hr_gasPriceMinimum := res !! 7%nat;
          hr_reserve := res !! 8%nat;
          hr_validators := res !! 9%nat;
          hr_downtimeSlasher := res !! 10%nat;
          hr_blockchainParameters := res !! 11%nat |}.

End NetworkConfig.

End Kit.

(** ** A sample kit environment *)

Module KitSample.
Import Kit.

Definition stableTokenAddress : Address := "0x765DE816845861e75A25fCA122bb6898B8B1282a".

(** Epochs of 17280 blocks; a gas price minimum of 250 for the stable token;
    an account whose pending withdrawals cannot be read. *)
Definition env : KitEnv :=
  {| resolveContract := fun _ => Ok tt;
     addressFor := fun c =>
       match c with
       | StableToken => Ok stableTokenAddress
       | _ => Throw (Error "no address")
       end;
     validators_getEpochSize := Ok 17280;
     getGasPriceMinimum_of := fun _ => Ok 250;
     getAccountTotalLockedGold := fun _ => Ok 1000;
     getPendingWithdrawalsTotalValue := fun _ => Throw (Error "not an account");
     balancesOf := fun _ => Ok (<["CELO" := 7]> (<["cUSD" := 12]> ∅)) |}.

(** The same kit before the epoch size is set. *)
Definition unconfigured : KitEnv :=
  {| resolveContract := resolveContract env;
     addressFor := addressFor env;
     validators_getEpochSize := Ok 0;
     getGasPriceMinimum_of := getGasPriceMinimum_of env;
     getAccountTotalLockedGold := getAccountTotalLockedGold env;
     getPendingWithdrawalsTotalValue := getPendingWithdrawalsTotalValue env;
     balancesOf := balancesOf env |}.

(** Configuration readers that answer with the name of what was asked. *)
Definition name_of (w : Wrapper) (humanReadable : bool) : string :=
  match w with
  | WrapperOf c =>
      (match c with
       | Attestations => "attestations" | BlockchainParameters => "blockchainParameters"
       | DowntimeSlasher => "downtimeSlasher" | Election => "election"
       | GasPriceMinimum => "gasPriceMinimum" | GoldToken => "goldToken"
       | Governance => "governance" | GrandaMento => "grandaMento"
       | LockedGold => "lockedGold" | Reserve => "reserve"
       | SortedOracles => "sortedOracles" | StableToken => "stableToken"
       | StableTokenEUR => "stableTokenEUR" | Validators => "validators"
       end) +:+ (if humanReadable then " (readable)" else "")
  end.

Definition cfg : ConfigEnv string :=
  {| getAddresses := Ok [stableTokenAddress];
     getExchangesConfigs := fun hr => Ok ("exchanges" +:+ (if hr then " (readable)" else ""));
     getStablesConfigs := fun hr => Ok ("stableTokens" +:+ (if hr then " (readable)" else ""));
     wrapper_getConfig := fun w _ => Ok (name_of w false);
     wrapper_getHumanReadableConfig := fun w _ => Ok (name_of w true) |}.

End KitSample.

(** ** More of the sample environment *)

Module SampleOperations.
Import Chain World Ledger.

(** The sample environment with the signer of validator C out of reach. *)
Definition offline : Env :=
  {| getAccounts := getAccounts Sample.env;
     hasAuthorizedAttestationSigner := hasAuthorizedAttestationSigner Sample.env;
     getAttestationSigner := fun a =>
       if String.eqb a Sample.issuerC then Throw (Error "signer lookup failed")
       else getAttestationSigner Sample.env a;
     getMetadataURL := getMetadataURL Sample.env;
     getUnselectedRequest := getUnselectedRequest Sample.env;
     selectIssuersWaitBlocks := selectIssuersWaitBlocks Sample.env;
     getCompletableAttestations := getCompletableAttestations Sample.env;
     batchGetAttestationStats := batchGetAttestationStats Sample.env;
     fetchFromURL := fetchFromURL Sample.env;
     fetch := fetch Sample.env;
     getAttestationMessageToSignFromIdentifier :=
       getAttestationMessageToSignFromIdentifier Sample.env;
     decodeSignature := decodeSignature Sample.env;
     recoverSigner := recoverSigner Sample.env |}.

(** The sample environment with another HTTP client. *)
Definition withFetch (f : string → outcome Http.Response) : Env :=
  {| getAccounts := getAccounts Sample.env;
     hasAuthorizedAttestationSigner := hasAuthorizedAttestationSigner Sample.env;
     getAttestationSigner := getAttestationSigner Sample.env;
     getMetadataURL := getMetadataURL Sample.env;
     getUnselectedRequest := getUnselectedRequest Sample.env;
     selectIssuersWaitBlocks := selectIssuersWaitBlocks Sample.env;
     getCompletableAttestations := getCompletableAttestations Sample.env;
     batchGetAttestationStats := batchGetAttestationStats Sample.env;
     fetchFromURL := fetchFromURL Sample.env;
     fetch := f;
     getAttestationMessageToSignFromIdentifier :=
       getAttestationMessageToSignFromIdentifier Sample.env;
     decodeSignature := decodeSignature Sample.env;
     recoverSigner := recoverSigner Sample.env |}.

(** Every endpoint answers 200 with a page that is not JSON. *)
Definition garbled : Env :=
  withFetch (fun _ =>
    Ok {| Http.ok := true; Http.status := 200;
          Http.json_body := Throw (Error "Unexpected token < in JSON") |}).

(** A service of the first version: no version in its status, and a node
    whose latest block is 50 seconds old. *)
Definition legacyBody : gmap string Js.value :=
  <["status" := JStr "ok"]>
    (<["accountAddress" := JStr Sample.issuerA]>
       (<["ageOfLatestBlock" := JNum 50]> ∅)).

Definition legacy : Env :=
  withFetch (fun url =>
    if String.eqb url (Sample.serviceOf "a.example" +:+ "/status")
    then Ok (Sample.response200 (Http.Object legacyBody))
    else Throw (SystemError "connection refused")).

(** The sample services, with a healthz endpoint that answers 200 with the
    plain text [OK]. *)
Definition plainHealthz : Env :=
  withFetch (fun url =>
    if String.eqb url (Sample.serviceOf "a.example" +:+ "/healthz")
    then Ok {| Http.ok := true; Http.status := 200;
               Http.json_body := Throw (Error "Unexpected token O") |}
    else fetch Sample.env url).

(** The contract side: two accounts mapped to the sample identifier, a code
    validation that recovers validator A from the good signature, fees of 5
    per token and an expiry of 720 blocks. *)
Definition reads : Reads :=
  {| lookupAccountsForIdentifier := fun id =>
       if String.eqb id Sample.identifier then Ok [Sample.issuerD; Sample.account]
       else Ok [];
     validateAttestationCode_call := fun _ _ v _ _ =>
       Ok (if v =? 27 then Sample.issuerA
           else "0x0000000000000000000000000000000000000000");
     attestationExpiryBlocks := Ok 720;
     attestationRequestFees := fun token =>
       if String.eqb token "" then Throw (Error "unknown token") else Ok 5 |}.

End SampleOperations.

(** ** Notions of the further properties *)

Module MoreProperties.
Import Base Identity Http Chain World AttestationsWrapper Properties.
Import Ledger AttestationsOperations Kit.

(** The validators wrapper resolves and reports the epoch size [size]. *)
Definition epochSizeIs (env : KitEnv) (size : Z) : Prop :=
  resolveContract env Validators = Ok tt ∧ validators_getEpochSize env = Ok size.

(** [issuer] is an issuer whose attestation signer signed [code]. *)
Definition matches (env : Env) (message code : string) (issuer : string) : Prop :=
  ∃ signer, getAttestationSigner env issuer = Ok signer
            ∧ validSignature env message code signer.

(** The signer of [issuer] is known and did not sign [code]. *)
Definition mismatches (env : Env) (message code : string) (issuer : string) : Prop :=
  ∃ signer, getAttestationSigner env issuer = Ok signer
            ∧ ¬ validSignature env message code signer.

(** The trace of polls at the times [ts], each followed by a pause of [ms]
    milliseconds. *)
Definition rounds (ms : Z) (ts : list Z) : list Event :=
  ts ≫= (fun t => [PolledBlockNumber t; Slept ms]).

(** The probe of [validator] gets as far as the attestation service: there
    is a signer, a metadata URL over a secure transport and metadata with a
    service URL claim for [url]. *)
Definition reachesService (env : Env) (validator : Validator) (url : string) : Prop :=
  getAccounts env = Ok tt
  ∧ hasAuthorizedAttestationSigner env (address validator) = Ok true
  ∧ (∃ s, getAttestationSigner env (address validator) = Ok s)
  ∧ ∃ metadataURL metadata claim,
      getMetadataURL env (address validator) = Ok metadataURL
      ∧ String.eqb metadataURL "" = false
      ∧ String.prefix "http://" metadataURL = false
      ∧ fetchFromURL env metadataURL defaultTries = Ok metadata
      ∧ findClaim metadata ATTESTATION_SERVICE_URL = Some claim
      ∧ claim_url claim = url.

(** What a probe that ends in [Valid] has established. *)
Definition validResponse (ret : AttestationServiceStatusResponse) : Prop :=
  okStatus ret = true ∧ rightAccount ret = true ∧ error ret = NoError
  ∧ version ret ≠ JNull.

End MoreProperties.

Module SecurityCodeFacts.
Import SecurityCode.

Example prefix_of_sample :
  getSecurityCodePrefix "0x000000000000000000000000000000000000aBcD" = "1".
Proof. vm_compute. reflexivity. Qed.

Example prefix_of_garbage : getSecurityCodePrefix "issuer" = "NaN".
Proof. vm_compute. reflexivity. Qed.

Lemma digitValue_bounds base c d :
  digitValue base c = Some d → 0 ≤ d < base.
Proof.
  unfold digitValue. intros H.
  repeat case_match; simplify_eq; lia.
Qed.

Lemma hexValueOf_nonneg c : 0 ≤ hexValueOf c.
Proof.
  unfold hexValueOf. destruct (digitValue 16 (lower_ascii c)) as [d|] eqn:E; [|lia].
  apply digitValue_bounds in E. lia.
Qed.

Lemma numericValue_nonneg digits : 0 ≤ numericValue digits.
Proof.
  induction digits as [|c r IH]; simpl; [lia|].
  pose proof (hexValueOf_nonneg c).
  assert (0 ≤ 16 ^ Z.of_nat (String.length r)) by (apply Z.pow_nonneg; lia).
  nia.
Qed.

(** The left-to-right accumulation of the parser computes the positional
    value. *)
Lemma parseDigits_numericValue r : ∀ acc,
  allHex r = true →
  parseDigits 16 acc (toLowerCase r)
  = Some (acc * 16 ^ Z.of_nat (String.length r) + numericValue r).
Proof.
  induction r as [|c r IH]; intros acc Hhex; simpl.
  - f_equal. lia.
  - simpl in Hhex. apply andb_true_iff in Hhex as [Hc Hr].
    unfold isHexDigit in Hc. unfold hexValueOf.
    destruct (digitValue 16 (lower_ascii c)) as [d|] eqn:E; [|discriminate].
    rewrite IH by assumption. f_equal.
    rewrite Nat2Z.inj_succ, Z.pow_succ_r by lia. ring.
Qed.

Lemma isAddress_inv a :
  isAddress a = true →
  ∃ r, a = String "0" (String "x" r)
       ∧ String.length r = 40%nat ∧ allHex r = true.
Proof.
  unfold isAddress. intros H.
  destruct a as [|c0 a]; [discriminate|].
  destruct c0 as [[] [] [] [] [] [] [] []]; try discriminate.
  destruct a as [|c1 r]; [discriminate|].
  destruct c1 as [[] [] [] [] [] [] [] []]; try discriminate.
  apply andb_true_iff in H as [Hlen Hhex].
  apply Nat.eqb_eq in Hlen. eauto.
Qed.

Lemma BigNumber_of_address a :
  isAddress a = true → BigNumber (toLowerCase a) = Some (addressValue a).
Proof.
  intros H. apply isAddress_inv in H as (r & -> & Hlen & Hhex).
  change (toLowerCase (String "0" (String "x" r)))
    with (String "0"%char (String "x"%char (toLowerCase r))).
  unfold BigNumber.
  destruct r as [|c r]; [discriminate|].
  change (toLowerCase (String c r)) with (String (lower_ascii c) (toLowerCase r)).
  cbv iota beta.
  change (String (lower_ascii c) (toLowerCase r)) with (toLowerCase (String c r)).
  rewrite parseDigits_numericValue by assumption.
  simpl addressValue. f_equal; lia.
Qed.

Lemma pretty_digit d : 0 ≤ d < 10 → pretty d = decimalDigit d.
Proof.
  intros H.
  assert (d = 0 ∨ d = 1 ∨ d = 2 ∨ d = 3 ∨ d = 4 ∨ d = 5 ∨ d = 6 ∨ d = 7
          ∨ d = 8 ∨ d = 9) as Hd by lia.
  repeat (destruct Hd as [->|Hd]; [vm_compute; reflexivity|]).
  subst. vm_compute. reflexivity.
Qed.

(** C10. For every issuer address (the characters [0x] followed by forty
    hexadecimal digits), [getSecurityCodePrefix] returns a string of one
    character, the decimal digit of the address's numeric value modulo 10. *)
Theorem getSecurityCodePrefix_single_digit (issuerAddress : Address) :
  isAddress issuerAddress = true →
  0 ≤ addressValue issuerAddress mod 10 < 10
  ∧ getSecurityCodePrefix issuerAddress
    = decimalDigit (addressValue issuerAddress mod 10)
  ∧ String.length (getSecurityCodePrefix issuerAddress) = 1%nat.
Proof.
  intros Ha.
  assert (0 ≤ addressValue issuerAddress mod 10 < 10) as Hm
    by (apply Z.mod_pos_bound; lia).
  assert (getSecurityCodePrefix issuerAddress
          = decimalDigit (addressValue issuerAddress mod 10)) as Heq.
  { unfold getSecurityCodePrefix, hashAddressToSingleDigit.
    rewrite BigNumber_of_address by assumption.
    unfold modulo, numberToString. simpl (10 =? 0).
    cbv iota.
    rewrite Z.rem_mod_nonneg; [apply pretty_digit; assumption| |lia].
    destruct issuerAddress as [|? [|? r]]; simpl; try lia.
    apply numericValue_nonneg. }
  split; [assumption|]. split; [assumption|].
  rewrite Heq. reflexivity.
Qed.

Lemma getSecurityCodePrefix_single_digit_witness :
  isAddress "0x47e172F6CfB6c7D01C1574fa3E2Be7CC73269D95" = true
  ∧ getSecurityCodePrefix "0x47e172F6CfB6c7D01C1574fa3E2Be7CC73269D95"
    = decimalDigit (addressValue "0x47e172F6CfB6c7D01C1574fa3E2Be7CC73269D95" mod 10).
Proof.
  split; [vm_compute; reflexivity|].
  apply (getSecurityCodePrefix_single_digit
           "0x47e172F6CfB6c7D01C1574fa3E2Be7CC73269D95").
  vm_compute; reflexivity.
Defined.

End SecurityCodeFacts.

(** ** Facts about the helpers *)

Module BaseFacts.
Import Base.

Example parseSolidityStringArray_sample :
  parseSolidityStringArray [3; 0; 5] "catdogsx" = ["cat"; ""; "dogsx"].
Proof. reflexivity. Qed.

Lemma promiseAll_total {A B} (f : A → outcome B) (g : A → B) (xs : list A) :
  (∀ x, f x = Ok (g x)) → promiseAll (f <$> xs) = Ok (g <$> xs).
Proof.
  intros Hf. induction xs as [|x xs IH]; [reflexivity|].
  cbn. rewrite Hf. cbn. rewrite IH. reflexivity.
Qed.

(** Batching does not show in the result of probes that do not throw: the
    outputs come in input order. *)
Lemma concurrentMap_batches_total {A B} (f : A → outcome B) (g : A → B)
    (concurrency : nat) :
  (0 < concurrency)%nat → (∀ x, f x = Ok (g x)) →
  ∀ fuel (xs : list A), (length xs ≤ fuel)%nat →
    concurrentMap_batches fuel concurrency xs f = Ok (g <$> xs).
Proof.
  intros Hc Hf. induction fuel as [|fuel IH]; intros xs Hlen.
  - destruct xs; [reflexivity|simpl in Hlen; lia].
  - destruct xs as [|x xs]; [reflexivity|].
    cbn [concurrentMap_batches].
    rewrite (promiseAll_total f g) by assumption.
    rewrite IH by (rewrite length_drop; simpl in *; lia).
    cbn. rewrite <- fmap_app, take_drop. reflexivity.
Qed.

Lemma concurrentMap_total {A B} (f : A → outcome B) (g : A → B)
    (concurrency : nat) (xs : list A) :
  (0 < concurrency)%nat → (∀ x, f x = Ok (g x)) →
  concurrentMap concurrency xs f = Ok (g <$> xs).
Proof.
  intros Hc Hf. unfold concurrentMap.
  apply concurrentMap_batches_total; auto.
Qed.

End BaseFacts.

(** ** Facts about the issuer probes *)

Module ProbeFacts.
Import Base Identity Http Chain World AttestationsWrapper Properties BaseFacts.

Lemma probeFailure_throws env tries arg :
  probeFailure env tries arg → ∃ e, isIssuerRunning_try env tries arg = Throw e.
Proof.
  unfold isIssuerRunning_try.
  intros [e H|metadata H1 H2|metadata claim e H1 H2 H3
          |metadata claim resp H1 H2 H3 H4|metadata claim resp e H1 H2 H3 H4 H5];
    unfold statusURL in *.
  - rewrite H. cbn. eauto.
  - rewrite H1. cbn. rewrite H2. eauto.
  - rewrite H1. cbn. rewrite H2, H3. cbn. eauto.
  - rewrite H1. cbn. rewrite H2, H3. cbn. rewrite H4. cbn. eauto.
  - rewrite H1. cbn. rewrite H2, H3. cbn. rewrite H4. cbn.
    destruct (json_body resp) as [body|e']; cbn in *; [|eauto].
    rewrite H5. cbn. eauto.
Qed.

Lemma probe_classification env tries arg :
  makeIsIssuerRunningAttestationService env tries arg
  = Ok (classification env tries arg).
Proof.
  unfold makeIsIssuerRunningAttestationService, classification, try_catch.
  destruct (isIssuerRunning_try env tries arg); reflexivity.
Qed.

Lemma try_issuer env tries arg r :
  isIssuerRunning_try env tries arg = Ok r → issuerOf r = c_issuer arg.
Proof.
  unfold isIssuerRunning_try. intros H.
  repeat (match type of H with
          | context [mbind _ ?m] => destruct m; cbn in H
          | context [match ?m with _ => _ end] => destruct m; cbn in H
          | context [if ?b then _ else _] => destruct b; cbn in H
          end; try discriminate).
  all: injection H as <-; reflexivity.
Qed.

Lemma classification_issuer env tries arg :
  issuerOf (classification env tries arg) = c_issuer arg.
Proof.
  unfold classification.
  destruct (isIssuerRunning_try env tries arg) eqn:E; [|reflexivity].
  eapply try_issuer; eassumption.
Qed.

Lemma probes_of_batch env tries (cs : list Completable) :
  concurrentMap 5 cs (makeIsIssuerRunningAttestationService env tries)
  = Ok (classification env tries <$> cs).
Proof.
  apply concurrentMap_total; [lia|]. intros x. apply probe_classification.
Qed.

Lemma getActionableAttestations_eq env identifier account tries response :
  getCompletableAttestations env identifier account = Ok response →
  getActionableAttestations env identifier account tries
  = Ok (actionableOf (classification env tries <$> parseGetCompletableAttestations response)).
Proof.
  intros H. unfold getActionableAttestations. rewrite H. cbn.
  rewrite probes_of_batch. reflexivity.
Qed.

Lemma getNonCompliantIssuers_eq env identifier account tries response :
  getCompletableAttestations env identifier account = Ok response →
  getNonCompliantIssuers env identifier account tries
  = Ok (nonCompliantOf (classification env tries <$> parseGetCompletableAttestations response)).
Proof.
  intros H. unfold getNonCompliantIssuers. rewrite H. cbn.
  rewrite probes_of_batch. reflexivity.
Qed.

(** Every verdict lands in exactly one of the two selections. *)
Lemma selections_permutation (results : list AttestationServiceRunningCheckResult) :
  (issuer <$> actionableOf results) ++ nonCompliantOf results ≡ₚ issuerOf <$> results.
Proof.
  induction results as [|r rs IH]; [reflexivity|].
  destruct r as [result|i]; cbn.
  - f_equiv. exact IH.
  - rewrite <- Permutation_middle. f_equiv. exact IH.
Qed.

Lemma actionable_issuers env tries (cs : list Completable) :
  issuer <$> actionableOf (classification env tries <$> cs)
  = c_issuer <$> filter (fun c => isValid (classification env tries c) = true) cs.
Proof.
  induction cs as [|c cs IH]; [reflexivity|].
  rewrite filter_cons. cbn.
  pose proof (classification_issuer env tries c) as Hi.
  destruct (classification env tries c) as [result|i]; cbn in *.
  - rewrite decide_True by reflexivity. rewrite fmap_cons.
    f_equal; [exact Hi|exact IH].
  - rewrite decide_False by discriminate. exact IH.
Qed.

Lemma nonCompliant_issuers env tries (cs : list Completable) :
  nonCompliantOf (classification env tries <$> cs)
  = c_issuer <$> filter (fun c => isValid (classification env tries c) = false) cs.
Proof.
  induction cs as [|c cs IH]; [reflexivity|].
  rewrite filter_cons. cbn.
  pose proof (classification_issuer env tries c) as Hi.
  destruct (classification env tries c) as [result|i]; cbn in *.
  - rewrite decide_False by discriminate. exact IH.
  - rewrite decide_True by reflexivity. rewrite fmap_cons.
    f_equal; [exact Hi|exact IH].
Qed.

Lemma selections_cover env tries (cs : list Completable) :
  (issuer <$> actionableOf (classification env tries <$> cs))
  ++ nonCompliantOf (classification env tries <$> cs) ≡ₚ c_issuer <$> cs.
Proof.
  rewrite selections_permutation, <- list_fmap_compose.
  erewrite list_fmap_ext; [reflexivity|].
  intros i c _. apply classification_issuer.
Qed.

Lemma selections_disjoint env tries (cs : list Completable) :
  NoDup (c_issuer <$> cs) →
  ∀ a, a ∈ issuer <$> actionableOf (classification env tries <$> cs) →
       a ∉ nonCompliantOf (classification env tries <$> cs).
Proof.
  intros Hnodup a Ha Hn.
  rewrite <- (selections_cover env tries) in Hnodup.
  apply NoDup_app in Hnodup as (_ & Hdisj & _).
  exact (Hdisj a Ha Hn).
Qed.

(** C1. Both calls classify every candidate with the same per-issuer verdict
    and keep complementary selections.  For the candidates of one chain
    read, a set of distinct issuers, the issuers of the actionable
    attestations and the non-compliant issuers are the candidates with a
    valid and with an invalid verdict; together they are the whole candidate
    set, and no issuer is in both. *)
Theorem actionable_and_noncompliant_partition
    env identifier account tries response :
  getCompletableAttestations env identifier account = Ok response →
  NoDup (c_issuer <$> parseGetCompletableAttestations response) →
  let candidates := parseGetCompletableAttestations response in
  ∃ actionable nonCompliant,
    getActionableAttestations env identifier account tries = Ok actionable
    ∧ getNonCompliantIssuers env identifier account tries = Ok nonCompliant
    ∧ issuer <$> actionable
      = c_issuer <$> filter (fun c => isValid (classification env tries c) = true) candidates
    ∧ nonCompliant
      = c_issuer <$> filter (fun c => isValid (classification env tries c) = false) candidates
    ∧ (issuer <$> actionable) ++ nonCompliant ≡ₚ c_issuer <$> candidates
    ∧ (∀ a, a ∈ c_issuer <$> candidates ↔ a ∈ issuer <$> actionable ∨ a ∈ nonCompliant)
    ∧ (∀ a, a ∈ issuer <$> actionable → a ∉ nonCompliant).
Proof.
  intros Hread Hnodup candidates.
  eexists _, _.
  split; [eapply getActionableAttestations_eq; eassumption|].
  split; [eapply getNonCompliantIssuers_eq; eassumption|].
  fold candidates.
  pose proof (selections_cover env tries candidates) as Hperm.
  split; [apply actionable_issuers|].
  split; [apply nonCompliant_issuers|].
  split; [exact Hperm|]. split.
  - intros a. rewrite <- Hperm, elem_of_app. reflexivity.
  - apply selections_disjoint. exact Hnodup.
Qed.

(** C8. A probe never throws: whatever goes wrong inside it (the metadata
    fetch fails, the service URL claim is missing, the status endpoint is
    unreachable or answers outside 2xx, the body is not JSON or is [null],
    or any other exception of the [try] block) resolves to the invalid
    verdict of that issuer.  The batch calls therefore return whenever the
    chain read does, each verdict depends on its own candidate only, and a
    failed candidate is reported as non-compliant. *)
Theorem probe_failures_are_downgraded env identifier account tries response :
  getCompletableAttestations env identifier account = Ok response →
  let candidates := parseGetCompletableAttestations response in
  (∀ arg e, isIssuerRunning_try env tries arg = Throw e →
     makeIsIssuerRunningAttestationService env tries arg = Ok (NotValid (c_issuer arg)))
  ∧ (∀ arg, probeFailure env tries arg →
       makeIsIssuerRunningAttestationService env tries arg = Ok (NotValid (c_issuer arg)))
  ∧ (∀ arg, ∃ verdict,
       makeIsIssuerRunningAttestationService env tries arg = Ok verdict)
  ∧ concurrentMap 5 candidates (makeIsIssuerRunningAttestationService env tries)
    = Ok (classification env tries <$> candidates)
  ∧ (∃ actionable nonCompliant,
       getActionableAttestations env identifier account tries = Ok actionable
       ∧ getNonCompliantIssuers env identifier account tries = Ok nonCompliant
       ∧ ∀ arg, arg ∈ candidates → probeFailure env tries arg →
           c_issuer arg ∈ nonCompliant).
Proof.
  intros Hread candidates.
  assert (∀ arg e, isIssuerRunning_try env tries arg = Throw e →
            makeIsIssuerRunningAttestationService env tries arg
            = Ok (NotValid (c_issuer arg))) as Hcatch.
  { intros arg e H. unfold makeIsIssuerRunningAttestationService.
    rewrite H. reflexivity. }
  assert (∀ arg, probeFailure env tries arg →
            makeIsIssuerRunningAttestationService env tries arg
            = Ok (NotValid (c_issuer arg))) as Hfail.
  { intros arg Hf. destruct (probeFailure_throws env tries arg Hf) as [e He].
    eapply Hcatch; eassumption. }
  split; [exact Hcatch|]. split; [exact Hfail|].
  split; [intros arg; eexists; apply probe_classification|].
  split; [apply probes_of_batch|].
  eexists _, _.
  split; [eapply getActionableAttestations_eq; eassumption|].
  split; [eapply getNonCompliantIssuers_eq; eassumption|].
  intros arg Hin Hf. fold candidates.
  rewrite nonCompliant_issuers. apply list_elem_of_fmap.
  exists arg. split; [reflexivity|].
  apply list_elem_of_filter. split; [|assumption].
  specialize (Hfail arg Hf). rewrite probe_classification in Hfail.
  injection Hfail as ->. reflexivity.
Qed.

Lemma prop_total body field v field' :
  prop body field = Ok v → ∃ v', prop body field' = Ok v'.
Proof.
  destruct body as [[]|fields]; cbn; intros H; try discriminate; eauto.
Qed.

(** C9. A status endpoint that answers 2xx with a body whose [status] field
    is not the string ["ok"] makes the issuer invalid without an exception:
    the probe resolves to the invalid verdict, the issuer is left out of the
    actionable attestations and is returned among the non-compliant
    issuers. *)
Theorem not_ok_status_is_invalid
    env identifier account tries response arg metadata claim resp body :
  getCompletableAttestations env identifier account = Ok response →
  NoDup (c_issuer <$> parseGetCompletableAttestations response) →
  arg ∈ parseGetCompletableAttestations response →
  fetchFromURL env (c_metadataURL arg) tries = Ok metadata →
  findClaim metadata ATTESTATION_SERVICE_URL = Some claim →
  fetch env (statusURL claim) = Ok resp →
  ok resp = true →
  json_body resp = Ok body →
  prop body "status" ≠ Ok (JStr "ok") →
  makeIsIssuerRunningAttestationService env tries arg = Ok (NotValid (c_issuer arg))
  ∧ ∃ actionable nonCompliant,
      getActionableAttestations env identifier account tries = Ok actionable
      ∧ getNonCompliantIssuers env identifier account tries = Ok nonCompliant
      ∧ (c_issuer arg ∉ issuer <$> actionable)
      ∧ c_issuer arg ∈ nonCompliant.
Proof.
  intros Hread Hnodup Hin Hmeta Hclaim Hfetch Hok Hjson Hstatus.
  assert (classification env tries arg = NotValid (c_issuer arg)) as Hverdict.
  { unfold classification, isIssuerRunning_try. unfold statusURL in Hfetch.
    rewrite Hmeta. cbn. rewrite Hclaim, Hfetch. cbn. rewrite Hok, Hjson. cbn.
    destruct (prop body "status") as [v|e] eqn:Ev; cbn; [|reflexivity].
    destruct (prop_total _ _ _ "version" Ev) as [v' ->]. cbn.
    unfold strict_ne. rewrite bool_decide_eq_true_2; [reflexivity|congruence]. }
  split; [rewrite probe_classification, Hverdict; reflexivity|].
  assert (c_issuer arg
          ∈ nonCompliantOf (classification env tries <$> parseGetCompletableAttestations response))
    as Hnc.
  { rewrite nonCompliant_issuers. apply list_elem_of_fmap.
    exists arg. split; [reflexivity|].
    apply list_elem_of_filter. rewrite Hverdict. split; [reflexivity|assumption]. }
  eexists _, _.
  split; [eapply getActionableAttestations_eq; eassumption|].
  split; [eapply getNonCompliantIssuers_eq; eassumption|].
  split; [|exact Hnc].
  intros Hact.
  eapply (selections_disjoint env tries _ Hnodup); eassumption.
Qed.

Lemma sample_issuers_distinct :
  NoDup (c_issuer <$> parseGetCompletableAttestations Sample.completable).
Proof. apply (bool_decide_unpack _). vm_compute. exact I. Defined.

Lemma actionable_and_noncompliant_partition_witness :
  getCompletableAttestations Sample.env Sample.identifier Sample.account
  = Ok Sample.completable
  ∧ NoDup (c_issuer <$> parseGetCompletableAttestations Sample.completable)
  ∧ ∃ actionable nonCompliant,
      getActionableAttestations Sample.env Sample.identifier Sample.account 3
      = Ok actionable
      ∧ getNonCompliantIssuers Sample.env Sample.identifier Sample.account 3
        = Ok nonCompliant
      ∧ (issuer <$> actionable) ++ nonCompliant
        ≡ₚ [Sample.issuerA; Sample.issuerB; Sample.issuerC]
      ∧ (∀ a, a ∈ issuer <$> actionable → a ∉ nonCompliant).
Proof.
  split; [reflexivity|]. split; [exact sample_issuers_distinct|].
  destruct (actionable_and_noncompliant_partition
              Sample.env Sample.identifier Sample.account 3 Sample.completable
              eq_refl sample_issuers_distinct)
    as (actionable & nonCompliant & Ha & Hn & _ & _ & Hperm & _ & Hdisj).
  exists actionable, nonCompliant.
  split; [exact Ha|]. split; [exact Hn|]. split; [exact Hperm|exact Hdisj].
Defined.

Lemma probe_failures_are_downgraded_witness :
  getCompletableAttestations Sample.env Sample.identifier Sample.account
  = Ok Sample.completable
  ∧ probeFailure Sample.env 3 Sample.candidateB
  ∧ makeIsIssuerRunningAttestationService Sample.env 3 Sample.candidateB
    = Ok (NotValid Sample.issuerB)
  ∧ ∃ actionable nonCompliant,
      getActionableAttestations Sample.env Sample.identifier Sample.account 3
      = Ok actionable
      ∧ getNonCompliantIssuers Sample.env Sample.identifier Sample.account 3
        = Ok nonCompliant
      ∧ Sample.issuerB ∈ nonCompliant.
Proof.
  assert (probeFailure Sample.env 3 Sample.candidateB) as Hfail.
  { apply (MetadataFetchFailed _ _ _ (SystemError "request timed out")).
    vm_compute. reflexivity. }
  split; [reflexivity|]. split; [exact Hfail|].
  destruct (probe_failures_are_downgraded
              Sample.env Sample.identifier Sample.account 3 Sample.completable eq_refl)
    as (_ & Hdown & _ & _ & actionable & nonCompliant & Ha & Hn & Hreport).
  split; [exact (Hdown Sample.candidateB Hfail)|].
  exists actionable, nonCompliant.
  split; [exact Ha|]. split; [exact Hn|].
  apply (Hreport Sample.candidateB); [|exact Hfail].
  apply list_elem_of_lookup. exists 1%nat. vm_compute. reflexivity.
Defined.

Lemma not_ok_status_is_invalid_witness :
  prop (Object (Sample.statusBody "degraded" Sample.issuerC 20)) "status"
  = Ok (JStr "degraded")
  ∧ makeIsIssuerRunningAttestationService Sample.env 3 Sample.candidateC
    = Ok (NotValid Sample.issuerC)
  ∧ ∃ actionable nonCompliant,
      getActionableAttestations Sample.env Sample.identifier Sample.account 3
      = Ok actionable
      ∧ getNonCompliantIssuers Sample.env Sample.identifier Sample.account 3
        = Ok nonCompliant
      ∧ (Sample.issuerC ∉ issuer <$> actionable)
      ∧ Sample.issuerC ∈ nonCompliant.
Proof.
  split; [vm_compute; reflexivity|].
  apply (not_ok_status_is_invalid
           Sample.env Sample.identifier Sample.account 3 Sample.completable
           Sample.candidateC (Sample.metadata "c.example" "Validator C")
           {| claim_type := ATTESTATION_SERVICE_URL;
              claim_url := Sample.serviceOf "c.example"; claim_name := "" |}
           (Sample.response200 (Object (Sample.statusBody "degraded" Sample.issuerC 20)))
           (Object (Sample.statusBody "degraded" Sample.issuerC 20))).
  - reflexivity.
  - exact sample_issuers_distinct.
  - apply list_elem_of_lookup. exists 2%nat. vm_compute. reflexivity.
  - vm_compute. reflexivity.
  - vm_compute. reflexivity.
  - vm_compute. reflexivity.
  - reflexivity.
  - reflexivity.
  - vm_compute. discriminate.
Defined.

End ProbeFacts.

(** ** Facts about the completion of an attestation *)

Module CompleteFacts.
Import Base Chain World AttestationsWrapper Properties.

Lemma parseSignature_ok env message code signer sig :
  parseSignature env message code signer = Ok sig ↔
  decodeSignature env code = Some sig
  ∧ normalizeAddress (recoverSigner env message sig) = normalizeAddress signer.
Proof.
  unfold parseSignature.
  destruct (decodeSignature env code) as [sig'|]; [|split; [discriminate|intros [? _]; discriminate]].
  destruct (String.eqb_spec (normalizeAddress (recoverSigner env message sig'))
              (normalizeAddress signer)) as [Heq|Hne].
  - split; [intros [= ->]; auto|intros [[= ->] _]; reflexivity].
  - split; [discriminate|intros [[= ->] ?]; contradiction].
Qed.

Lemma parseSignature_throw env message code signer :
  ¬ validSignature env message code signer →
  parseSignature env message code signer = Throw (verificationError signer).
Proof.
  intros Hinv. destruct (parseSignature env message code signer) as [sig|e] eqn:E.
  - exfalso. apply Hinv. exists sig. apply parseSignature_ok. exact E.
  - unfold parseSignature in E.
    destruct (decodeSignature env code); [|congruence].
    destruct (String.eqb _ _); congruence.
Qed.

(** C2. Once the issuer's attestation signer is resolved, [complete]
    succeeds exactly when [code] is a valid signature by that signer over
    the message derived from the identifier and the account; the
    transaction it returns carries the components (v, r, s) of the
    signature, and otherwise it throws the verification error. *)
Theorem complete_succeeds_iff_valid_code
    env identifier account issuer code attestationSigner :
  getAccounts env = Ok tt →
  getAttestationSigner env issuer = Ok attestationSigner →
  let message := getAttestationMessageToSignFromIdentifier env identifier account in
  ((∃ tx, complete env identifier account issuer code = Ok tx)
   ↔ validSignature env message code attestationSigner)
  ∧ (∀ tx, complete env identifier account issuer code = Ok tx →
       ∃ sig, decodeSignature env code = Some sig
              ∧ normalizeAddress (recoverSigner env message sig)
                = normalizeAddress attestationSigner
              ∧ tx = {| tx_identifier := identifier; tx_v := sig_v sig;
                        tx_r := sig_r sig; tx_s := sig_s sig |})
  ∧ (¬ validSignature env message code attestationSigner →
       complete env identifier account issuer code
       = Throw (verificationError attestationSigner)).
Proof.
  intros Haccounts Hsigner message.
  assert (∀ tx, complete env identifier account issuer code = Ok tx →
            ∃ sig, decodeSignature env code = Some sig
                   ∧ normalizeAddress (recoverSigner env message sig)
                     = normalizeAddress attestationSigner
                   ∧ tx = {| tx_identifier := identifier; tx_v := sig_v sig;
                             tx_r := sig_r sig; tx_s := sig_s sig |}) as Hcarry.
  { intros tx. unfold complete. rewrite Haccounts, Hsigner. cbn. fold message.
    destruct (parseSignature env message code attestationSigner) as [sig|e] eqn:E;
      cbn; [|discriminate].
    intros [= <-]. apply parseSignature_ok in E as [Hd Hr]. eauto. }
  split; [split|split].
  - intros [tx Htx]. destruct (Hcarry tx Htx) as (sig & Hd & Hr & _).
    exists sig. auto.
  - intros [sig Hsig]. apply parseSignature_ok in Hsig.
    unfold complete. rewrite Haccounts, Hsigner. cbn. fold message.
    rewrite Hsig. cbn. eauto.
  - exact Hcarry.
  - intros Hinv. unfold complete. rewrite Haccounts, Hsigner. cbn. fold message.
    rewrite parseSignature_throw by assumption. reflexivity.
Qed.

Lemma complete_succeeds_iff_valid_code_witness :
  getAccounts Sample.env = Ok tt
  ∧ getAttestationSigner Sample.env Sample.issuerA = Ok Sample.issuerA
  ∧ (∃ tx, complete Sample.env Sample.identifier Sample.account Sample.issuerA "goodcode"
           = Ok tx)
  ∧ complete Sample.env Sample.identifier Sample.account Sample.issuerA "badcode"
    = Throw (verificationError Sample.issuerA).
Proof.
  split; [reflexivity|]. split; [reflexivity|].
  split.
  - apply (complete_succeeds_iff_valid_code
             Sample.env Sample.identifier Sample.account Sample.issuerA "goodcode"
             Sample.issuerA eq_refl eq_refl).
    exists Sample.goodSignature. split; vm_compute; reflexivity.
  - apply (complete_succeeds_iff_valid_code
             Sample.env Sample.identifier Sample.account Sample.issuerA "badcode"
             Sample.issuerA eq_refl eq_refl).
    intros (sig & Hdecode & _). vm_compute in Hdecode. discriminate.
Defined.

End CompleteFacts.

(** ** Facts about the lookup of identifiers *)

Module LookupFacts.
Import Chain World AttestationsWrapper Properties.

Section Loops.
Variable stats : BatchAttestationStats.

Lemma matching_loop_step n r acc :
  matching_loop stats (S n) r acc
  = matching_loop stats n (S r) (<[keyAt stats r := statAt stats r]> acc).
Proof. reflexivity. Qed.

Lemma matching_loop_cursor n : ∀ r acc,
  snd (matching_loop stats n r acc) = (r + n)%nat.
Proof.
  induction n as [|n IH]; intros r acc.
  - cbn. lia.
  - rewrite matching_loop_step, IH. lia.
Qed.

Lemma matching_loop_other n : ∀ r acc k,
  k ∉ runKeys stats r n →
  fst (matching_loop stats n r acc) !! k = acc !! k.
Proof.
  induction n as [|n IH]; intros r acc k Hk; [reflexivity|].
  rewrite matching_loop_step.
  unfold runKeys in Hk. cbn in Hk. apply not_elem_of_cons in Hk as [Hne Hk].
  rewrite IH by exact Hk. apply lookup_insert_ne. congruence.
Qed.

Lemma matching_loop_lookup n : ∀ r acc j,
  NoDup (runKeys stats r n) → (r ≤ j < r + n)%nat →
  fst (matching_loop stats n r acc) !! keyAt stats j = Some (statAt stats j).
Proof.
  induction n as [|n IH]; intros r acc j Hnd Hj; [lia|].
  rewrite matching_loop_step.
  unfold runKeys in Hnd. cbn in Hnd. apply NoDup_cons in Hnd as [Hfresh Hnd].
  destruct (decide (j = r)) as [->|Hne].
  - rewrite matching_loop_other by exact Hfresh. apply lookup_insert_eq.
  - apply IH; [exact Hnd|lia].
Qed.

Lemma matching_loop_size n : ∀ r acc,
  NoDup (runKeys stats r n) →
  (∀ k, k ∈ runKeys stats r n → acc !! k = None) →
  size (fst (matching_loop stats n r acc)) = (size acc + n)%nat.
Proof.
  induction n as [|n IH]; intros r acc Hnd Hfree; [cbn; lia|].
  rewrite matching_loop_step.
  unfold runKeys in Hnd, Hfree. cbn in Hnd, Hfree.
  apply NoDup_cons in Hnd as [Hfresh Hnd].
  rewrite IH.
  - rewrite map_size_insert_None by (apply Hfree; left). lia.
  - exact Hnd.
  - intros k Hk. rewrite lookup_insert_ne.
    + apply Hfree. right. exact Hk.
    + intros <-. contradiction.
Qed.

Lemma advance_step p q :
  advance stats p (S q) = (turns (stats0 stats !! p) + advance stats (S p) q)%nat.
Proof. reflexivity. Qed.

(** An identifier whose every occurrence has the match-count 0 is never
    assigned. *)
Lemma lookup_loop_absent (ids : list string) : ∀ pIndex rIndex result id,
  (∀ q, ids !! q = Some id → stats0 stats !! (pIndex + q)%nat = Some 0) →
  lookup_loop stats ids pIndex rIndex result !! id = result !! id.
Proof.
  induction ids as [|pHash rest IH]; intros pIndex rIndex result id Hzero;
    [reflexivity|].
  cbn [lookup_loop].
  assert (∀ q, rest !! q = Some id → stats0 stats !! (S pIndex + q)%nat = Some 0)
    as Hrest.
  { intros q Hq. replace (S pIndex + q)%nat with (pIndex + S q)%nat by lia.
    apply Hzero. exact Hq. }
  case_bool_decide as Hm.
  - apply IH. exact Hrest.
  - destruct (matching_loop stats _ rIndex ∅) as [m r'].
    rewrite IH by exact Hrest.
    apply lookup_insert_ne. intros ->.
    apply Hm. rewrite <- (Hzero 0%nat eq_refl). f_equal. lia.
Qed.

(** The last occurrence of an identifier with a match-count other than 0
    receives the run that starts where the preceding identifiers left the
    cursor. *)
Lemma lookup_loop_present (ids : list string) : ∀ q pIndex rIndex result id n,
  ids !! q = Some id → id ∉ drop (S q) ids →
  stats0 stats !! (pIndex + q)%nat = Some n → n ≠ 0 →
  lookup_loop stats ids pIndex rIndex result !! id
  = Some (fst (matching_loop stats (Z.to_nat n)
                 (rIndex + advance stats pIndex q) ∅)).
Proof.
  induction ids as [|pHash rest IH]; intros q pIndex rIndex result id n Hq Hlast Hn Hn0;
    [discriminate|].
  cbn [lookup_loop].
  destruct q as [|q].
  - injection Hq as ->. rewrite Nat.add_0_r in Hn. rewrite Hn.
    rewrite bool_decide_eq_false_2 by congruence.
    cbn [turns]. unfold advance. cbn [seq sum_list_with]. rewrite Nat.add_0_r.
    destruct (matching_loop stats (Z.to_nat n) rIndex ∅) as [m r'] eqn:E.
    rewrite lookup_loop_absent.
    + cbn. apply lookup_insert_eq.
    + intros q Hq. exfalso. apply Hlast. cbn.
      eapply list_elem_of_lookup_2. exact Hq.
  - cbn in Hq, Hlast.
    replace (pIndex + S q)%nat with (S pIndex + q)%nat in Hn by lia.
    rewrite advance_step.
    case_bool_decide as Hm.
    + rewrite Hm. cbn [turns]. change (Z.to_nat 0) with 0%nat.
      rewrite (IH q (S pIndex) rIndex result id n) by assumption.
      do 3 f_equal.
    + pose proof (matching_loop_cursor (turns (stats0 stats !! pIndex)) rIndex ∅) as Hc.
      destruct (matching_loop stats _ rIndex ∅) as [m r'].
      cbn in Hc. subst r'.
      rewrite (IH q (S pIndex) _ _ id n) by assumption.
      do 3 f_equal. lia.
Qed.

End Loops.

(** C7. The flat arrays are decoded with one running cursor: the run of an
    identifier starts at the sum of the match-counts of the identifiers
    before it.  An identifier of match-count [i] (at its last occurrence in
    the list) is mapped to the [i] entries of its run, one per address with
    the [completed] and [total] of the same position, exactly [i] of them
    for [i] distinct addresses; an identifier of match-count 0 (at each of
    its occurrences) is absent from the result. *)
Theorem lookupIdentifiers_decodes env (identifiers : list string) stats :
  batchGetAttestationStats env identifiers = Ok stats →
  ∃ result,
    lookupIdentifiers env identifiers = Ok result
    ∧ (∀ id,
         (∀ q, identifiers !! q = Some id → stats0 stats !! q = Some 0) →
         result !! id = None)
    ∧ (∀ p id (i : nat),
         identifiers !! p = Some id → id ∉ drop (S p) identifiers →
         stats0 stats !! p = Some (Z.of_nat i) → (0 < i)%nat →
         NoDup (runKeys stats (cursor stats p) i) →
         ∃ m, result !! id = Some m
              ∧ size m = i
              ∧ ∀ k, (k < i)%nat →
                  m !! keyAt stats (cursor stats p + k)
                  = Some (statAt stats (cursor stats p + k))).
Proof.
  intros Hread. unfold lookupIdentifiers. rewrite Hread. cbn.
  eexists. split; [reflexivity|]. split.
  - intros id Hzero. rewrite lookup_loop_absent; [apply lookup_empty|].
    exact Hzero.
  - intros p id i Hp Hlast Hi Hpos Hnd.
    eexists. split.
    + rewrite (lookup_loop_present stats identifiers p 0 0 ∅ id (Z.of_nat i));
        [reflexivity|assumption|assumption|assumption|lia].
    + rewrite Nat2Z.id. cbn [Nat.add]. fold (cursor stats p). split.
      * rewrite matching_loop_size; [rewrite map_size_empty; lia|exact Hnd|].
        intros k _. apply lookup_empty.
      * intros k Hk. apply matching_loop_lookup; [exact Hnd|lia].
Qed.

Lemma lookupIdentifiers_decodes_witness :
  batchGetAttestationStats Sample.env ["id1"; "id2"; "id3"] = Ok Sample.batchStats
  ∧ ∃ result,
      lookupIdentifiers Sample.env ["id1"; "id2"; "id3"] = Ok result
      ∧ result !! "id2" = None
      ∧ (∃ m, result !! "id1" = Some m ∧ size m = 2%nat
              ∧ m !! Sample.issuerB = Some {| completed := Some 1; total := Some 2 |})
      ∧ (∃ m, result !! "id3" = Some m ∧ size m = 1%nat
              ∧ m !! Sample.issuerC = Some {| completed := Some 0; total := Some 4 |}).
Proof.
  split; [reflexivity|].
  destruct (lookupIdentifiers_decodes Sample.env ["id1"; "id2"; "id3"] Sample.batchStats
              eq_refl) as (result & Hres & Habsent & Hpresent).
  exists result. split; [exact Hres|]. split; [|split].
  - apply Habsent. intros [|[|[|q]]] Hq; cbn in Hq; try discriminate; reflexivity.
  - destruct (Hpresent 0%nat "id1" 2%nat eq_refl) as (m & Hm & Hsize & Hrun).
    + apply (bool_decide_unpack _). vm_compute. exact I.
    + reflexivity.
    + lia.
    + apply (bool_decide_unpack _). vm_compute. exact I.
    + exists m. split; [exact Hm|]. split; [exact Hsize|].
      exact (Hrun 1%nat ltac:(lia)).
  - destruct (Hpresent 2%nat "id3" 1%nat eq_refl) as (m & Hm & Hsize & Hrun).
    + apply (bool_decide_unpack _). vm_compute. exact I.
    + reflexivity.
    + lia.
    + apply (bool_decide_unpack _). vm_compute. exact I.
    + exists m. split; [exact Hm|]. split; [exact Hsize|].
      exact (Hrun 0%nat ltac:(lia)).
Defined.

End LookupFacts.

(** ** Facts about the wait for the selection window *)

Module WaitFacts.
Import Chain World AttestationsWrapper Properties.

Section Loop.
Variables (tl : Timeline) (startTime timeoutSeconds pollDurationSeconds required : Z).

Lemma wait_loop_trace fuel : ∀ st res st',
  wait_loop fuel tl startTime timeoutSeconds pollDurationSeconds required st
  = (res, st') →
  ∀ e, e ∈ trace st → e ∈ trace st'.
Proof.
  induction fuel as [|fuel IH]; intros st res st' H e He; cbn in H.
  - injection H as _ <-. exact He.
  - destruct (now st - startTime <? timeoutSeconds * 1000);
      [|injection H as _ <-; exact He].
    destruct (blockNumberAt tl (now st)) as [b|err].
    + destruct (required <=? b).
      * injection H as _ <-. cbn. apply elem_of_app. left. exact He.
      * eapply IH; [exact H|]. cbn.
        rewrite !elem_of_app. left. left. exact He.
    + injection H as _ <-. cbn. apply elem_of_app. left. exact He.
Qed.

(** A loop that ends after polls that all found the chain below the
    required block ends with the timeout error. *)
Lemma wait_loop_timeout fuel : ∀ st res st',
  wait_loop fuel tl startTime timeoutSeconds pollDurationSeconds required st
  = (res, st') →
  res ≠ OutOfFuel →
  (∀ t, PolledBlockNumber t ∈ trace st' → pollBelow tl required t) →
  res = Thrown timeoutError.
Proof.
  induction fuel as [|fuel IH]; intros st res st' H Hfuel Hbelow; cbn in H.
  - injection H as <- _. contradiction.
  - destruct (now st - startTime <? timeoutSeconds * 1000);
      [|injection H as <- _; reflexivity].
    assert (PolledBlockNumber (now st) ∈ trace st') as Hpolled.
    { destruct (blockNumberAt tl (now st)) as [b|err].
      - destruct (required <=? b).
        + injection H as _ <-. cbn. apply elem_of_app. right. left.
        + eapply wait_loop_trace; [exact H|]. cbn.
          rewrite !elem_of_app. left. right. left.
      - injection H as _ <-. cbn. apply elem_of_app. right. left. }
    destruct (Hbelow _ Hpolled) as (b & Hb & Hlt).
    rewrite Hb in H.
    destruct (Z.leb_spec required b); [lia|].
    eapply IH; eassumption.
Qed.

(** With a clock that moves on, the loop ends within the fuel of one
    turn per millisecond left, and one more. *)
Lemma wait_loop_terminates :
  clockAdvances tl pollDurationSeconds →
  ∀ fuel st,
    Z.max 0 (timeoutSeconds * 1000 - (now st - startTime)) < Z.of_nat fuel →
    fst (wait_loop fuel tl startTime timeoutSeconds pollDurationSeconds required st)
    ≠ OutOfFuel.
Proof.
  intros Hclock. induction fuel as [|fuel IH]; intros st Hfuel; [lia|].
  cbn [wait_loop].
  destruct (Z.ltb_spec (now st - startTime) (timeoutSeconds * 1000));
    [|cbn; discriminate].
  destruct (blockNumberAt tl (now st)) as [b|err]; [|cbn; discriminate].
  destruct (required <=? b); [cbn; discriminate|].
  apply IH. cbn. specialize (Hclock (now st)). lia.
Qed.

End Loop.

(** C3. When the unselected request that the call reads has block number 0,
    the call ends at once with an exception and never asks for the block
    height (its trace stays empty, whatever the fuel); the exception is the
    no-request error as soon as the read of the wait blocks returns. *)
Theorem wait_without_request_fails_immediately
    fuel env tl identifier account timeoutSeconds pollDurationSeconds t0
    unselectedRequest :
  getUnselectedRequest env identifier account = Ok unselectedRequest →
  blockNumber unselectedRequest = 0 →
  ∃ e st',
    waitForSelectingIssuers fuel env tl identifier account
      timeoutSeconds pollDurationSeconds (start t0) = (Thrown e, st')
    ∧ trace st' = []
    ∧ (∀ waitBlocks, selectIssuersWaitBlocks env = Ok waitBlocks → e = noRequestError).
Proof.
  intros Hread Hzero. unfold waitForSelectingIssuers. rewrite Hread.
  destruct (selectIssuersWaitBlocks env) as [waitBlocks|err].
  - rewrite Hzero. cbn. eexists _, _. split; [reflexivity|]. split; [reflexivity|].
    intros _ _. reflexivity.
  - eexists _, _. split; [reflexivity|]. split; [reflexivity|].
    intros ? [=].
Qed.

(** C4. With a pending request and [r] the block of the request plus the
    wait blocks: when the first poll finds the chain at [r] or beyond, the
    call returns and its trace is that one poll, without a sleep; and with a
    clock that moves on, every run with enough fuel ends, and ends with the
    timeout error when all its polls found the chain below [r]. *)
Theorem wait_returns_or_times_out
    env tl identifier account timeoutSeconds pollDurationSeconds t0
    unselectedRequest waitBlocks :
  getUnselectedRequest env identifier account = Ok unselectedRequest →
  blockNumber unselectedRequest ≠ 0 →
  selectIssuersWaitBlocks env = Ok waitBlocks →
  let r := blockNumber unselectedRequest + waitBlocks in
  let firstPoll := now (awaitRead tl (awaitRead tl (start t0))) in
  (∀ b fuel,
     firstPoll - t0 < timeoutSeconds * 1000 →
     blockNumberAt tl firstPoll = Ok b → r ≤ b →
     ∃ st',
       waitForSelectingIssuers (S fuel) env tl identifier account
         timeoutSeconds pollDurationSeconds (start t0) = (Returned, st')
       ∧ trace st' = [PolledBlockNumber firstPoll])
  ∧ (clockAdvances tl pollDurationSeconds →
     ∃ fuel0, ∀ fuel, (fuel0 ≤ fuel)%nat →
       ∃ res st',
         waitForSelectingIssuers fuel env tl identifier account
           timeoutSeconds pollDurationSeconds (start t0) = (res, st')
         ∧ res ≠ OutOfFuel
         ∧ ((∀ t, PolledBlockNumber t ∈ trace st' → pollBelow tl r t) →
            res = Thrown timeoutError)).
Proof.
  intros Hread Hpending Hwait r firstPoll.
  assert (∀ fuel,
            waitForSelectingIssuers fuel env tl identifier account
              timeoutSeconds pollDurationSeconds (start t0)
            = wait_loop fuel tl t0 timeoutSeconds pollDurationSeconds r
                (awaitRead tl (awaitRead tl (start t0)))) as Hunfold.
  { intros fuel. unfold waitForSelectingIssuers. rewrite Hread, Hwait.
    destruct (Z.eqb_spec (blockNumber unselectedRequest) 0); [contradiction|].
    reflexivity. }
  split.
  - intros b fuel Hfirst Hb Hreached. rewrite Hunfold. cbn [wait_loop].
    fold firstPoll.
    destruct (Z.ltb_spec (firstPoll - t0) (timeoutSeconds * 1000)); [|lia].
    rewrite Hb. destruct (Z.leb_spec r b); [|lia].
    eexists. split; reflexivity.
  - intros Hclock.
    exists (S (Z.to_nat (Z.max 0 (timeoutSeconds * 1000 - (firstPoll - t0))))).
    intros fuel Hfuel. rewrite Hunfold.
    destruct (wait_loop fuel tl t0 timeoutSeconds pollDurationSeconds r
                (awaitRead tl (awaitRead tl (start t0)))) as [res st'] eqn:E.
    exists res, st'. split; [reflexivity|].
    assert (res ≠ OutOfFuel) as Hres.
    { pose proof (wait_loop_terminates tl t0 timeoutSeconds pollDurationSeconds r
                    Hclock fuel (awaitRead tl (awaitRead tl (start t0)))) as Hterm.
      rewrite E in Hterm. apply Hterm. fold firstPoll. lia. }
    split; [exact Hres|].
    intros Hbelow. eapply wait_loop_timeout; eassumption.
Qed.

Lemma wait_without_request_fails_immediately_witness :
  blockNumber {| blockNumber := 0; attestationsRequested := 3;
                 attestationRequestFeeToken := "0x765DE816845861e75A25fCA122bb6898B8B1282a" |}
  = 0
  ∧ ∃ st',
      waitForSelectingIssuers 10 Sample.env Sample.movingChain "unknown" Sample.account
        120 1 (start 0) = (Thrown noRequestError, st')
      ∧ trace st' = [].
Proof.
  split; [reflexivity|].
  destruct (wait_without_request_fails_immediately
              10 Sample.env Sample.movingChain "unknown" Sample.account 120 1 0
              {| blockNumber := 0; attestationsRequested := 3;
                 attestationRequestFeeToken :=
                   "0x765DE816845861e75A25fCA122bb6898B8B1282a" |}
              eq_refl eq_refl) as (e & st' & Hrun & Htrace & Herr).
  exists st'. rewrite <- (Herr 4 eq_refl). split; [exact Hrun|exact Htrace].
Defined.

Lemma wait_returns_or_times_out_witness :
  (∃ st',
     waitForSelectingIssuers 1 Sample.env Sample.movingChain Sample.identifier
       Sample.account 120 1 (start 20000) = (Returned, st')
     ∧ trace st' = [PolledBlockNumber 20040])
  ∧ (∃ fuel0, ∀ fuel, (fuel0 ≤ fuel)%nat →
       ∃ st',
         waitForSelectingIssuers fuel Sample.env Sample.stuckChain Sample.identifier
           Sample.account 12 5 (start 0) = (Thrown timeoutError, st')).
Proof.
  split.
  - destruct (wait_returns_or_times_out
                Sample.env Sample.movingChain Sample.identifier Sample.account 120 1 20000
                {| blockNumber := 100; attestationsRequested := 3;
                   attestationRequestFeeToken :=
                     "0x765DE816845861e75A25fCA122bb6898B8B1282a" |}
                4 eq_refl ltac:(discriminate) eq_refl) as [Hfirst _].
    apply (Hfirst 104 0%nat); [reflexivity|reflexivity|discriminate].
  - destruct (wait_returns_or_times_out
                Sample.env Sample.stuckChain Sample.identifier Sample.account 12 5 0
                {| blockNumber := 100; attestationsRequested := 3;
                   attestationRequestFeeToken :=
                     "0x765DE816845861e75A25fCA122bb6898B8B1282a" |}
                4 eq_refl ltac:(discriminate) eq_refl) as [_ Htimeout].
    destruct Htimeout as [fuel0 Hfuel0].
    + intros t. cbn. lia.
    + exists fuel0. intros fuel Hfuel.
      destruct (Hfuel0 fuel Hfuel) as (res & st' & Hrun & _ & Hres).
      exists st'. rewrite Hrun. f_equal. apply Hres.
      intros t _. exists 101. split; [reflexivity|]. cbn. lia.
Defined.

End WaitFacts.

(** ** Facts about the service status probe *)

Module StatusFacts.
Import Base Identity Http Chain World AttestationsWrapper Properties.

(** One step of the probe: binds, assignments and handlers computed. *)
Ltac step :=
  cbv beta iota delta
    [tryCatch lift assign mbind mret M_bind M_ret outcome_bind outcome_ret Js.bind
     negb snd fst].

Lemma healthcheck_total env url ret :
  ∃ ret', healthcheck env url ret = (Ok tt, ret').
Proof.
  unfold healthcheck. step.
  destruct (fetch env (appendPath url "healthz")) as [resp|e]; step; [|eauto].
  destruct (json_body resp) as [body|e]; step; [|eauto].
  destruct (ok resp); step; [eauto|].
  destruct (prop body "error") as [v|e]; step; [|eauto].
  destruct (truthy v); step; eauto.
Qed.

Lemma stale_test fields :
  stale fields →
  (strict_ne (default JUndefined (fields !! "ageOfLatestBlock")) JNull
   && gt_number (default JUndefined (fields !! "ageOfLatestBlock")) 10)
  || strict_eq (default JUndefined (fields !! "isNodeSyncing")) (JBool true) = true.
Proof.
  intros [(z & -> & Hz)| ->]; cbn.
  - destruct (Z.ltb_spec 10 z); [reflexivity|lia].
  - apply orb_true_r.
Qed.

Lemma fresh_test fields :
  fresh fields →
  (strict_ne (default JUndefined (fields !! "ageOfLatestBlock")) JNull
   && gt_number (default JUndefined (fields !! "ageOfLatestBlock")) 10)
  || strict_eq (default JUndefined (fields !! "isNodeSyncing")) (JBool true) = false.
Proof.
  intros [(z & -> & Hz) ->]; cbn.
  destruct (Z.ltb_spec 10 z); [lia|reflexivity].
Qed.

Lemma reachesStatus_run env validator url fields acct :
  reachesStatus env validator url fields acct →
  ∃ ret resp,
    getAttestationServiceStatus env validator
    = Ok (snd (probeStatus env validator url ret))
    ∧ fetch env (appendPath url "status") = Ok resp
    ∧ ok resp = true
    ∧ json_body resp = Ok (Object fields)
    ∧ fields !! "accountAddress" = Some (JStr acct).
Proof.
  intros (Ha & Hh & [sg Hs] & metadataURL & metadata & claim & resp
          & Hm & Hne & Hsec & Hf & Hc & Hu & Hst & Hok & Hj & Hacct).
  unfold getAttestationServiceStatus, resolveServiceURL.
  rewrite Ha, Hh, Hs. step. rewrite Hm. step. rewrite Hne, Hsec.
  rewrite Hf. step. rewrite Hc. step. rewrite Hu.
  eexists _, resp. split; [reflexivity|]. auto.
Qed.

(** The probe up to the [version] test, on a status body. *)
Lemma probeStatus_versioned env validator url ret resp fields acct :
  fetch env (appendPath url "status") = Ok resp →
  ok resp = true →
  json_body resp = Ok (Object fields) →
  fields !! "accountAddress" = Some (JStr acct) →
  truthy (default JUndefined (fields !! "version")) = true →
  ∃ ret1 ret2,
    state ret1 = (if String.eqb (normalizeAddress (address validator)) (normalizeAddress acct)
                  then Valid else WrongAccount)
    ∧ healthcheck env url ret1 = (Ok tt, ret2)
    ∧ snd (probeStatus env validator url ret)
      = if (strict_ne (default JUndefined (fields !! "ageOfLatestBlock")) JNull
            && gt_number (default JUndefined (fields !! "ageOfLatestBlock")) 10)
           || strict_eq (default JUndefined (fields !! "isNodeSyncing")) (JBool true)
        then set_state Unhealthy ret2 else ret2.
Proof.
  intros Hst Hok Hj Hacct Hv.
  unfold probeStatus. step. rewrite Hst. step. rewrite Hok. step. rewrite Hj. step.
  unfold prop. step. rewrite Hacct.
  change (default JUndefined (Some (JStr acct))) with (JStr acct).
  unfold eqAddress. step. rewrite Hv. step.
  match goal with
  | |- context [healthcheck env url ?r] =>
      destruct (healthcheck_total env url r) as [ret2 Hh]; exists r, ret2
  end.
  split; [reflexivity|]. split; [exact Hh|].
  rewrite Hh. step.
  destruct ((_ && _) || _); reflexivity.
Qed.

Lemma healthcheck_unreachable env url ret e :
  fetch env (appendPath url "healthz") = Throw e →
  healthcheck env url ret = (Ok tt, set_state UnreachableHealthz ret).
Proof. intros H. unfold healthcheck. step. rewrite H. reflexivity. Qed.

Lemma healthcheck_healthy env url ret hresp hbody :
  fetch env (appendPath url "healthz") = Ok hresp →
  ok hresp = true → json_body hresp = Ok hbody →
  healthcheck env url ret = (Ok tt, ret).
Proof.
  intros H Hok Hj. unfold healthcheck. step. rewrite H. step.
  rewrite Hj. step. rewrite Hok. reflexivity.
Qed.

(** C6. On a status body that declares a version (a [version] field that
    the test [if (statusResponseBody.version)] accepts), the check of the
    node comes after the healthz probe and decides whatever that probe
    found: a reported age of the latest block above 10, or a syncing node,
    makes the final state [Unhealthy].  Without it the state would be
    [UnreachableHealthz] for an unreachable healthz endpoint and [Valid]
    (for the right account) for a healthy one: both are overridden. *)
Theorem staleness_overrides_healthz env validator url fields acct :
  reachesStatus env validator url fields acct →
  truthy (default JUndefined (fields !! "version")) = true →
  (stale fields → statusState env validator = Some Unhealthy)
  ∧ (fresh fields →
     ∀ e, fetch env (appendPath url "healthz") = Throw e →
     statusState env validator = Some UnreachableHealthz)
  ∧ (fresh fields →
     ∀ hresp hbody,
       fetch env (appendPath url "healthz") = Ok hresp →
       ok hresp = true → json_body hresp = Ok hbody →
       statusState env validator
       = Some (if String.eqb (normalizeAddress (address validator)) (normalizeAddress acct)
               then Valid else WrongAccount)).
Proof.
  intros Hreach Hversion.
  destruct (reachesStatus_run _ _ _ _ _ Hreach)
    as (ret & resp & Hrun & Hst & Hok & Hj & Hacct).
  destruct (probeStatus_versioned env validator url ret resp fields acct
              Hst Hok Hj Hacct Hversion) as (ret1 & ret2 & Hstate & Hhealth & Hend).
  unfold statusState. rewrite Hrun, Hend.
  split; [|split].
  - intros Hstale. rewrite (stale_test _ Hstale). reflexivity.
  - intros Hfresh e He. rewrite (fresh_test _ Hfresh).
    rewrite (healthcheck_unreachable _ _ _ _ He) in Hhealth.
    injection Hhealth as <-. reflexivity.
  - intros Hfresh hresp hbody Hh Hhok Hhj. rewrite (fresh_test _ Hfresh).
    rewrite (healthcheck_healthy _ _ _ _ _ Hh Hhok Hhj) in Hhealth.
    injection Hhealth as <-. rewrite Hstate. reflexivity.
Qed.

(** C5. The classification stops at the first decision point that applies,
    in the order: no attestation signer, no metadata URL, a metadata URL
    over [http://], a failed metadata fetch, no service URL claim, an
    unreachable status endpoint.  In particular a validator without an
    authorized attestation signer is classified [NoAttestationSigner]
    whatever metadata URL is registered and whatever the services answer:
    nothing else is looked at, the response keeps its initial fields. *)
Theorem status_classification_order env validator attestationSigner :
  getAccounts env = Ok tt →
  getAttestationSigner env (address validator) = Ok attestationSigner →
  (hasAuthorizedAttestationSigner env (address validator) = Ok false →
     ∃ ret, getAttestationServiceStatus env validator = Ok ret
            ∧ state ret = NoAttestationSigner
            ∧ metadataURL ret = None ∧ attestationServiceURL ret = None
            ∧ okStatus ret = false ∧ error ret = NoError)
  ∧ (∀ url,
       hasAuthorizedAttestationSigner env (address validator) = Ok true →
       getMetadataURL env (address validator) = Ok url →
       (url = "" → statusState env validator = Some NoMetadataURL)
       ∧ (url ≠ "" → String.prefix "http://" url = true →
          statusState env validator = Some InvalidAttestationServiceURL)
       ∧ (url ≠ "" → String.prefix "http://" url = false →
          (∀ e, fetchFromURL env url defaultTries = Throw e →
             statusState env validator
             = Some (if isSystem e then MetadataTimeout else InvalidMetadata))
          ∧ (∀ metadata,
               fetchFromURL env url defaultTries = Ok metadata →
               (findClaim metadata ATTESTATION_SERVICE_URL = None →
                  statusState env validator = Some NoAttestationServiceURL)
               ∧ (∀ claim,
                    findClaim metadata ATTESTATION_SERVICE_URL = Some claim →
                    (∀ e, fetch env (appendPath (claim_url claim) "status") = Throw e →
                       statusState env validator = Some UnreachableAttestationService)
                    ∧ (∀ resp,
                         fetch env (appendPath (claim_url claim) "status") = Ok resp →
                         ok resp = false →
                         statusState env validator
                         = Some UnreachableAttestationService))))).
Proof.
  intros Ha Hs. split.
  - intros Hh. unfold getAttestationServiceStatus. rewrite Ha, Hh, Hs. step.
    eexists. split; [reflexivity|]. cbn. auto.
  - intros url Hh Hm.
    unfold statusState, getAttestationServiceStatus. rewrite Ha, Hh, Hs. step.
    rewrite Hm. step.
    split; [|split].
    + intros ->. reflexivity.
    + intros Hne Hhttp.
      destruct (String.eqb_spec url ""); [contradiction|].
      rewrite Hhttp. reflexivity.
    + intros Hne Hhttp.
      destruct (String.eqb_spec url ""); [contradiction|].
      rewrite Hhttp. unfold resolveServiceURL. step. split.
      * intros e He. rewrite He. step. destruct (isSystem e); reflexivity.
      * intros metadata Hf. rewrite Hf. step. split.
        -- intros Hc. rewrite Hc. reflexivity.
        -- intros claim Hc. rewrite Hc. step. unfold probeStatus. step. split.
           ++ intros e He. rewrite He. reflexivity.
           ++ intros resp Hr Hok. rewrite Hr. step. rewrite Hok. reflexivity.
Qed.

Lemma status_classification_order_witness :
  hasAuthorizedAttestationSigner Sample.env Sample.issuerD = Ok false
  ∧ getMetadataURL Sample.env Sample.issuerD = Ok (Sample.metadataOf "a.example")
  ∧ statusState Sample.env (Sample.validatorOf "A" Sample.issuerA) = Some Valid
  ∧ ∃ ret,
      getAttestationServiceStatus Sample.env (Sample.validatorOf "D" Sample.issuerD)
      = Ok ret
      ∧ state ret = NoAttestationSigner.
Proof.
  split; [reflexivity|]. split; [reflexivity|]. split; [vm_compute; reflexivity|].
  destruct (status_classification_order
              Sample.env (Sample.validatorOf "D" Sample.issuerD) Sample.issuerD
              eq_refl eq_refl) as [Hnone _].
  destruct (Hnone eq_refl) as (ret & Hret & Hstate & _).
  exists ret. split; [exact Hret|exact Hstate].
Defined.

Lemma sample_reachesStatus :
  reachesStatus Sample.env (Sample.validatorOf "C" Sample.issuerC)
    (Sample.serviceOf "c.example") (Sample.statusBody "degraded" Sample.issuerC 20)
    Sample.issuerC.
Proof.
  split; [reflexivity|]. split; [reflexivity|]. split; [eexists; reflexivity|].
  exists (Sample.metadataOf "c.example"), (Sample.metadata "c.example" "Validator C"),
    {| claim_type := ATTESTATION_SERVICE_URL;
       claim_url := Sample.serviceOf "c.example"; claim_name := "" |},
    (Sample.response200 (Object (Sample.statusBody "degraded" Sample.issuerC 20))).
  repeat split; vm_compute; reflexivity.
Defined.

Lemma staleness_overrides_healthz_witness :
  stale (Sample.statusBody "degraded" Sample.issuerC 20)
  ∧ (∃ hresp, fetch Sample.env (appendPath (Sample.serviceOf "c.example") "healthz")
              = Ok hresp ∧ ok hresp = true)
  ∧ statusState Sample.env (Sample.validatorOf "C" Sample.issuerC) = Some Unhealthy.
Proof.
  assert (stale (Sample.statusBody "degraded" Sample.issuerC 20)) as Hstale.
  { left. exists 20. split; [vm_compute; reflexivity|lia]. }
  split; [exact Hstale|].
  split; [eexists; split; vm_compute; reflexivity|].
  apply (staleness_overrides_healthz
           Sample.env (Sample.validatorOf "C" Sample.issuerC)
           (Sample.serviceOf "c.example") (Sample.statusBody "degraded" Sample.issuerC 20)
           Sample.issuerC sample_reachesStatus);
    [vm_compute; reflexivity|exact Hstale].
Defined.

End StatusFacts.


(** ** The sample environment, run *)

Module SampleFacts.
Import Base Identity Http Chain World AttestationsWrapper Properties Sample.

Example sample_candidates :
  c_metadataURL <$> parseGetCompletableAttestations completable
  = [metadataOf "a.example"; metadataOf "b.example"; metadataOf "c.example"].
Proof. vm_compute. reflexivity. Qed.

Example sample_actionable :
  issuer <$> match getActionableAttestations env identifier account 3 with
             | Ok l => l | Throw _ => [] end = [issuerA].
Proof. vm_compute. reflexivity. Qed.

Example sample_nonCompliant :
  getNonCompliantIssuers env identifier account 3 = Ok [issuerB; issuerC].
Proof. vm_compute. reflexivity. Qed.

Example sample_status_A :
  statusState env (validatorOf "A" issuerA) = Some Valid.
Proof. vm_compute. reflexivity. Qed.

Example sample_status_B :
  statusState env (validatorOf "B" issuerB) = Some MetadataTimeout.
Proof. vm_compute. reflexivity. Qed.

Example sample_status_C :
  statusState env (validatorOf "C" issuerC) = Some Unhealthy.
Proof. vm_compute. reflexivity. Qed.

Example sample_status_D :
  statusState env (validatorOf "D" issuerD) = Some NoAttestationSigner.
Proof. vm_compute. reflexivity. Qed.

Example sample_wait_returns :
  waitForSelectingIssuers 10 env movingChain identifier account 120 5 (start 0)
  = (Returned,
     {| now := 20140;
        trace := [PolledBlockNumber 40; Slept 5000; PolledBlockNumber 5060; Slept 5000;
                  PolledBlockNumber 10080; Slept 5000; PolledBlockNumber 15100; Slept 5000;
                  PolledBlockNumber 20120] |}).
Proof. vm_compute. reflexivity. Qed.

Example sample_wait_times_out :
  fst (waitForSelectingIssuers 10 env stuckChain identifier account 12 5 (start 0))
  = Thrown timeoutError.
Proof. vm_compute. reflexivity. Qed.

Example sample_wait_no_request :
  waitForSelectingIssuers 10 env movingChain "unknown" account 120 1 (start 0)
  = (Thrown noRequestError, {| now := 40; trace := [] |}).
Proof. vm_compute. reflexivity. Qed.

Example sample_lookup :
  (size <$> (match lookupIdentifiers env ["id1"; "id2"; "id3"] with
             | Ok result => result | Throw _ => ∅ end !! "id1"),
   match lookupIdentifiers env ["id1"; "id2"; "id3"] with
   | Ok result => result | Throw _ => ∅ end !! "id2")
  = (Some 2%nat, None).
Proof. vm_compute. reflexivity. Qed.

Example sample_complete :
  complete env identifier account issuerA "goodcode"
  = Ok {| tx_identifier := identifier; tx_v := 27; tx_r := "0x5e"; tx_s := "0x7a" |}.
Proof. vm_compute. reflexivity. Qed.

Example sample_complete_wrong_signer :
  complete env identifier account issuerA "othercode"
  = Throw (verificationError issuerA).
Proof. vm_compute. reflexivity. Qed.

End SampleFacts.

(** ** Facts about epochs *)

Module EpochFacts.
Import Kit MoreProperties.

Lemma getEpochSize_is env size : epochSizeIs env size → getEpochSize env = Ok size.
Proof.
  intros [Hr Hs]. unfold getEpochSize, getContract. rewrite Hr. cbn.
  rewrite Hs. reflexivity.
Qed.

Lemma getFirstBlockNumberForEpoch_is env size n :
  epochSizeIs env size →
  getFirstBlockNumberForEpoch env n
  = Ok (if n =? 0 then 0 else (n - 1) * size + 1).
Proof.
  intros H. unfold getFirstBlockNumberForEpoch.
  rewrite (getEpochSize_is _ _ H). cbn. destruct (n =? 0); reflexivity.
Qed.

Lemma getLastBlockNumberForEpoch_is env size n :
  epochSizeIs env size →
  getLastBlockNumberForEpoch env n = Ok (if n =? 0 then 0 else n * size).
Proof.
  intros H. unfold getLastBlockNumberForEpoch.
  rewrite (getEpochSize_is _ _ H). cbn.
  destruct (Z.eqb_spec n 0) as [->|Hn]; [reflexivity|].
  rewrite (getFirstBlockNumberForEpoch_is _ _ _ H). cbn.
  destruct (Z.eqb_spec n 0); [contradiction|]. f_equal. ring.
Qed.






(** X3. With an epoch size of 0 the epoch number of a block is not a finite
    number, and the call returns it without an exception, while the first
    and last blocks of an epoch are still computed. *)
Theorem epoch_number_with_zero_size env b n :
  epochSizeIs env 0 →
  getEpochNumberOfBlock env b = Ok None
  ∧ getFirstBlockNumberForEpoch env n = Ok (if n =? 0 then 0 else 1)
  ∧ getLastBlockNumberForEpoch env n = Ok 0.
Proof.
  intros H.
  rewrite (getFirstBlockNumberForEpoch_is _ _ _ H),
          (getLastBlockNumberForEpoch_is _ _ _ H).
  split; [|split].
  - unfold getEpochNumberOfBlock. rewrite (getEpochSize_is _ _ H). reflexivity.
  - destruct (n =? 0); f_equal; ring.
  - destruct (n =? 0); f_equal; ring.
Qed.

Lemma epoch_number_with_zero_size_witness :
  epochSizeIs KitSample.unconfigured 0
  ∧ getEpochNumberOfBlock KitSample.unconfigured 100 = Ok None.
Proof.
  assert (epochSizeIs KitSample.unconfigured 0) as H by (split; reflexivity).
  split; [exact H|].
  apply (epoch_number_with_zero_size KitSample.unconfigured 100 1 H).
Defined.

End EpochFacts.

(** ** Facts about the network configuration *)

Module NetworkConfigFacts.
Import Base Kit.

Lemma promiseAll_resolved env :
  (∀ c, c ∈ networkContracts → resolveContract env c = Ok tt) →
  promiseAll (getContract env <$> networkContracts) = Ok (WrapperOf <$> networkContracts).
Proof.
  intros Hall. unfold networkContracts in *. cbn. unfold getContract.
  repeat (rewrite Hall by (repeat first [left | right]); cbn).
  reflexivity.
Qed.

Lemma promiseAll_length {B} (ps : list (outcome B)) (bs : list B) :
  promiseAll ps = Ok bs → length bs = length ps.
Proof.
  revert bs. induction ps as [|p ps IH]; intros bs H; cbn in H.
  - injection H as <-. reflexivity.
  - destruct p as [b|e]; cbn in H; [|discriminate].
    destruct (promiseAll ps) as [bs'|e]; cbn in H; [|discriminate].
    injection H as <-. cbn. f_equal. apply IH. reflexivity.
Qed.

(** X4. [getNetworkConfig] never returns a configuration: it resolves eleven
    wrappers and then reads [contracts[11]], which is [undefined], so once
    the token addresses and the wrappers are there it throws a [TypeError];
    before that it throws what a failed lookup threw. *)
Theorem getNetworkConfig_never_returns {Config} (env : KitEnv) (cfg : ConfigEnv Config) :
  ∃ e, getNetworkConfig Config env cfg = Throw e
       ∧ (∀ addresses contracts,
            getAddresses Config cfg = Ok addresses →
            promiseAll (getContract env <$> networkContracts) = Ok contracts →
            e = TypeError "Cannot read property 'getConfig' of undefined").
Proof.
  unfold getNetworkConfig.
  destruct (getAddresses Config cfg) as [addresses|e];
    [|exists e; split; [reflexivity|discriminate]].
  destruct (promiseAll (getContract env <$> networkContracts)) as [contracts|e] eqn:E;
    [|exists e; split; [reflexivity|discriminate]].
  apply promiseAll_length in E. rewrite length_fmap in E. cbn in E.
  do 11 (destruct contracts as [|? contracts]; [discriminate|]).
  destruct contracts; [|discriminate].
  eexists. split; [reflexivity|]. intros. reflexivity.
Qed.

Example sample_network_config :
  getNetworkConfig string KitSample.env KitSample.cfg
  = Throw (TypeError "Cannot read property 'getConfig' of undefined").
Proof. vm_compute. reflexivity. Qed.

(** X5. When every lookup and every configuration read returns,
    [getHumanReadableNetworkConfig] returns, under each key, the
    configuration of the contract of that name: the plain one for the
    election, the gas price minimum, the reserve and the blockchain
    parameters, the human readable one for the others, the attestations being
    asked with the token addresses.  The configuration of GrandaMento is read
    as well, and a failure of that read fails the call, although the result
    has no key for it. *)
Theorem getHumanReadableNetworkConfig_fields {Config} (env : KitEnv)
    (cfg : ConfigEnv Config) addresses exchangesConfig stablesConfig
    (plain readable : Wrapper → option (list Address) → Config) :
  getAddresses Config cfg = Ok addresses →
  (∀ c, c ∈ networkContracts → resolveContract env c = Ok tt) →
  getExchangesConfigs Config cfg true = Ok exchangesConfig →
  getStablesConfigs Config cfg true = Ok stablesConfig →
  (∀ w a, wrapper_getHumanReadableConfig Config cfg w a = Ok (readable w a)) →
  (∀ w a, w ≠ WrapperOf GrandaMento →
          wrapper_getConfig Config cfg w a = Ok (plain w a)) →
  (∀ grandaMentoConfig,
     wrapper_getConfig Config cfg (WrapperOf GrandaMento) None = Ok grandaMentoConfig →
     getHumanReadableNetworkConfig Config env cfg
     = Ok {| hr_exchanges := Some exchangesConfig;
             hr_stableTokens := Some stablesConfig;
             hr_election := Some (plain (WrapperOf Election) None);
             hr_attestations := Some (readable (WrapperOf Attestations) (Some addresses));
             hr_governance := Some (readable (WrapperOf Governance) None);
             hr_lockedGold := Some (readable (WrapperOf LockedGold) None);
             hr_sortedOracles := Some (readable (WrapperOf SortedOracles) None);
             hr_gasPriceMinimum := Some (plain (WrapperOf GasPriceMinimum) None);
             hr_reserve := Some (plain (WrapperOf Reserve) None);
             hr_validators := Some (readable (WrapperOf Validators) None);
             hr_downtimeSlasher := Some (readable (WrapperOf DowntimeSlasher) None);
             hr_blockchainParameters :=
               Some (plain (WrapperOf BlockchainParameters) None) |})
  ∧ (∀ e,
       wrapper_getConfig Config cfg (WrapperOf GrandaMento) None = Throw e →
       getHumanReadableNetworkConfig Config env cfg = Throw e).
Proof.
  intros Ha Hres Hex Hst Hreadable Hplain.
  unfold getHumanReadableNetworkConfig. rewrite Ha. cbn [mbind outcome_bind Js.bind].
  rewrite (promiseAll_resolved env Hres). cbn [mbind outcome_bind Js.bind].
  cbn [fmap list_fmap networkContracts arrayLiteral element lookup list_lookup
       mbind mret outcome_bind outcome_ret Js.bind promiseAll].
  rewrite Hex, Hst, !Hreadable.
  rewrite (Hplain (WrapperOf Election)), (Hplain (WrapperOf GasPriceMinimum)),
          (Hplain (WrapperOf Reserve)), (Hplain (WrapperOf BlockchainParameters))
    by discriminate.
  split.
  - intros g Hg. rewrite Hg. reflexivity.
  - intros e He. rewrite He. reflexivity.
Qed.

Lemma getHumanReadableNetworkConfig_fields_witness :
  (∀ c, c ∈ networkContracts → resolveContract KitSample.env c = Ok tt)
  ∧ ∃ config,
      getHumanReadableNetworkConfig string KitSample.env KitSample.cfg = Ok config
      ∧ hr_election string config = Some "election"
      ∧ hr_attestations string config = Some "attestations (readable)"
      ∧ hr_blockchainParameters string config = Some "blockchainParameters".
Proof.
  assert (∀ c, c ∈ networkContracts → resolveContract KitSample.env c = Ok tt) as Hres
    by (intros c _; reflexivity).
  split; [exact Hres|].
  destruct (getHumanReadableNetworkConfig_fields KitSample.env KitSample.cfg
              [KitSample.stableTokenAddress] "exchanges (readable)"
              "stableTokens (readable)"
              (fun w _ => KitSample.name_of w false)
              (fun w _ => KitSample.name_of w true)
              eq_refl Hres eq_refl eq_refl
              (fun w a => eq_refl) (fun w a _ => eq_refl)) as [Hok _].
  eexists. split; [exact (Hok "grandaMento" eq_refl)|].
  split; [reflexivity|]. split; reflexivity.
Defined.

End NetworkConfigFacts.

(** ** Facts about the fee currency and the total balance *)

Module KitStateFacts.
Import Base Kit.

Lemma updateGasPrice_failure env currency c e c' :
  updateGasPriceInConnectionLayer env currency c = (Throw e, c') → c' = c.
Proof.
  unfold updateGasPriceInConnectionLayer.
  destruct (getContract env GasPriceMinimum); [|intros [= _ <-]; reflexivity].
  destruct (getGasPriceMinimum_of env currency); [discriminate|].
  intros [= _ <-]. reflexivity.
Qed.

Lemma updateGasPrice_success env currency c c' :
  updateGasPriceInConnectionLayer env currency c = (Ok tt, c') →
  ∃ rawGasPrice,
    getGasPriceMinimum_of env currency = Ok rawGasPrice
    ∧ c' = setGasPriceForCurrency currency
             (pretty (rawGasPrice * gasPriceSuggestionMultiplier c)) c.
Proof.
  unfold updateGasPriceInConnectionLayer.
  destruct (getContract env GasPriceMinimum); [|discriminate].
  destruct (getGasPriceMinimum_of env currency) as [raw|]; [|discriminate].
  intros [= <-]. eauto.
Qed.

(** X6. [setFeeCurrency] changes the connection only when it succeeds: a
    failed registry or gas price lookup leaves the default fee currency and
    the gas prices as they were.  On success the default fee currency is the
    registry address of the token, with the suggested gas price of that
    currency (the minimum times the multiplier) registered, or [undefined]
    for the gold token, for which nothing is looked up and no gas price is
    touched. *)
Theorem setFeeCurrency_outcomes env tokenContract c result c' :
  setFeeCurrency env tokenContract c = (result, c') →
  match result with
  | Throw e => c' = c ∧ tokenContract ≠ GoldToken
  | Ok _ =>
      if bool_decide (tokenContract = GoldToken)
      then c' = set_defaultFeeCurrency None c
      else ∃ address,
             addressFor env tokenContract = Ok address
             ∧ defaultFeeCurrency c' = Some address
             ∧ (address ≠ "" →
                ∃ rawGasPrice,
                  getGasPriceMinimum_of env address = Ok rawGasPrice
                  ∧ currencyGasPrice c' !! address
                    = Some (pretty (rawGasPrice * gasPriceSuggestionMultiplier c)))
  end.
Proof.
  unfold setFeeCurrency. case_bool_decide as Hgold.
  - cbn. intros [= <- <-]. reflexivity.
  - destruct (addressFor env tokenContract) as [address|e]; cbn.
    + unfold definedAddress. destruct (String.eqb_spec address "") as [->|Hne].
      * intros [= <- <-].
        exists "". split; [reflexivity|]. split; [reflexivity|]. congruence.
      * destruct (updateGasPriceInConnectionLayer env address c) as [[[]|e] c1] eqn:E.
        -- intros [= <- <-].
           apply updateGasPrice_success in E as (raw & Hraw & ->).
           exists address. split; [reflexivity|]. split; [reflexivity|].
           intros _. exists raw. split; [exact Hraw|]. cbn. apply lookup_insert_eq.
        -- intros [= <- <-]. apply updateGasPrice_failure in E. auto.
    + intros [= <- <-]. auto.
Qed.

Lemma setFeeCurrency_outcomes_witness :
  ∃ c',
    setFeeCurrency KitSample.env StableToken newConnection = (Ok tt, c')
    ∧ defaultFeeCurrency c' = Some KitSample.stableTokenAddress
    ∧ currencyGasPrice c' !! KitSample.stableTokenAddress = Some "1250".
Proof.
  destruct (setFeeCurrency KitSample.env StableToken newConnection) as [result c'] eqn:E.
  pose proof (setFeeCurrency_outcomes _ _ _ _ _ E) as H.
  assert (result = Ok tt) as -> by (vm_compute in E; congruence).
  exists c'. split; [reflexivity|].
  cbn in H. destruct H as (address & Ha & Hd & Hp).
  vm_compute in Ha. injection Ha as <-.
  split; [exact Hd|].
  destruct (Hp ltac:(discriminate)) as (raw & Hraw & Hprice).
  vm_compute in Hraw. injection Hraw as <-. exact Hprice.
Defined.

(** X7. [getTotalBalance] does not depend on the pending withdrawals being
    readable: when the locked gold wrapper, the locked balance and the token
    balances are there it returns, with a pending value of 0 if that read
    threw; any of the three other reads that fails makes the call fail.  The
    token balances come last in the object, a key of theirs replaces a
    [lockedCELO] or [pending] key. *)
Theorem getTotalBalance_pending_is_optional env address locked balances :
  resolveContract env LockedGold = Ok tt →
  getAccountTotalLockedGold env address = Ok locked →
  balancesOf env address = Ok balances →
  ∃ total pending,
    getTotalBalance env address = Ok total
    ∧ pending = match getPendingWithdrawalsTotalValue env address with
                | Ok p => p
                | Throw _ => 0
                end
    ∧ (∀ k v, balances !! k = Some v → total !! k = Some v)
    ∧ (balances !! "lockedCELO" = None → total !! "lockedCELO" = Some locked)
    ∧ (balances !! "pending" = None → total !! "pending" = Some pending)
    ∧ dom total = dom balances ∪ {["lockedCELO"; "pending"]}.
Proof.
  intros Hr Hl Hb. unfold getTotalBalance, getContract.
  rewrite Hr. cbn. rewrite Hl. cbn.
  set (pending := match getPendingWithdrawalsTotalValue env address with
                  | Ok p => p | Throw _ => 0 end).
  assert (try_catch (getPendingWithdrawalsTotalValue env address) (λ _, mret 0)
          = Ok pending) as ->.
  { unfold pending. destruct (getPendingWithdrawalsTotalValue env address); reflexivity. }
  cbn. rewrite Hb. cbn.
  eexists _, pending. split; [reflexivity|]. split; [reflexivity|].
  split; [|split; [|split]].
  - intros k v Hk. apply lookup_union_Some_l. exact Hk.
  - intros Hk. rewrite lookup_union_r by exact Hk. apply lookup_insert_eq.
  - intros Hk. rewrite lookup_union_r by exact Hk.
    rewrite lookup_insert_ne by discriminate. apply lookup_insert_eq.
  - rewrite dom_union_L, !dom_insert_L, dom_empty_L. set_solver.
Qed.

Lemma getTotalBalance_pending_is_optional_witness :
  (∃ e, getPendingWithdrawalsTotalValue KitSample.env "0xabc" = Throw e)
  ∧ ∃ total,
      getTotalBalance KitSample.env "0xabc" = Ok total
      ∧ total !! "pending" = Some 0
      ∧ total !! "lockedCELO" = Some 1000
      ∧ total !! "cUSD" = Some 12.
Proof.
  split; [eexists; reflexivity|].
  destruct (getTotalBalance_pending_is_optional KitSample.env "0xabc" 1000
              (<["CELO" := 7]> (<["cUSD" := 12]> ∅)) eq_refl eq_refl eq_refl)
    as (total & pending & Ht & Hp & Hb & Hl & Hpe & _).
  exists total. split; [exact Ht|].
  split; [|split].
  - rewrite (Hpe ltac:(vm_compute; reflexivity)). rewrite Hp. reflexivity.
  - apply Hl. vm_compute. reflexivity.
  - apply Hb. vm_compute. reflexivity.
Defined.

End KitStateFacts.

(** ** Facts about the other operations of the wrapper *)

Module OperationsFacts.
Import Base Chain World Ledger AttestationsWrapper AttestationsOperations Properties.
Import MoreProperties CompleteFacts.

Lemma parseSignature_decides env message code signer :
  (∃ sig, parseSignature env message code signer = Ok sig
          ∧ validSignature env message code signer)
  ∨ (parseSignature env message code signer = Throw (verificationError signer)
     ∧ ¬ validSignature env message code signer).
Proof.
  destruct (parseSignature env message code signer) as [sig|e] eqn:E.
  - left. exists sig. split; [reflexivity|].
    exists sig. apply parseSignature_ok. exact E.
  - right. assert (¬ validSignature env message code signer) as Hn.
    { intros [sig Hsig]. apply parseSignature_ok in Hsig. congruence. }
    split; [|exact Hn]. rewrite <- E. apply parseSignature_throw. exact Hn.
Qed.

Lemma findMatchingIssuer_loop_step env message code (issuer : string)
    (rest : list string) signer :
  getAttestationSigner env issuer = Ok signer →
  (validSignature env message code signer →
   findMatchingIssuer_loop env message code (issuer :: rest) = Ok (Some issuer))
  ∧ (¬ validSignature env message code signer →
     findMatchingIssuer_loop env message code (issuer :: rest)
     = findMatchingIssuer_loop env message code rest).
Proof.
  intros Hs. cbn [findMatchingIssuer_loop]. rewrite Hs. cbn.
  destruct (parseSignature_decides env message code signer) as [(sig & -> & Hv)|[-> Hn]];
    cbn; split; intros; try contradiction; reflexivity.
Qed.

Lemma findMatchingIssuer_loop_some env message code (issuers : list string) issuer :
  findMatchingIssuer_loop env message code issuers = Ok (Some issuer) →
  ∃ k, issuers !! k = Some issuer
       ∧ matches env message code issuer
       ∧ ∀ j other, (j < k)%nat → issuers !! j = Some other →
                    mismatches env message code other.
Proof.
  induction issuers as [|i rest IH]; [discriminate|].
  intros H.
  destruct (getAttestationSigner env i) as [signer|e] eqn:Hs;
    [|cbn in H; rewrite Hs in H; discriminate].
  destruct (findMatchingIssuer_loop_step env message code i rest signer Hs) as [Hyes Hno].
  destruct (parseSignature_decides env message code signer) as [(sig & _ & Hv)|[_ Hn]].
  - rewrite (Hyes Hv) in H. injection H as <-.
    exists 0%nat. split; [reflexivity|]. split; [exists signer; auto|]. lia.
  - rewrite (Hno Hn) in H. destruct (IH H) as (k & Hk & Hm & Hbefore).
    exists (S k). split; [exact Hk|]. split; [exact Hm|].
    intros [|j] other Hj Hother.
    + injection Hother as <-. exists signer. auto.
    + apply (Hbefore j); [lia|exact Hother].
Qed.

Lemma findMatchingIssuer_loop_none env message code (issuers : list string) :
  findMatchingIssuer_loop env message code issuers = Ok None ↔
  ∀ issuer, issuer ∈ issuers → mismatches env message code issuer.
Proof.
  induction issuers as [|i rest IH].
  - split; [intros _ ? Hin; inversion Hin|reflexivity].
  - split.
    + intros H.
      destruct (getAttestationSigner env i) as [signer|e] eqn:Hs;
        [|cbn in H; rewrite Hs in H; discriminate].
      destruct (findMatchingIssuer_loop_step env message code i rest signer Hs)
        as [Hyes Hno].
      destruct (parseSignature_decides env message code signer) as [(sig & _ & Hv)|[_ Hn]].
      * rewrite (Hyes Hv) in H. discriminate.
      * rewrite (Hno Hn) in H. intros issuer Hin.
        apply elem_of_cons in Hin as [->|Hin]; [exists signer; auto|].
        apply IH; assumption.
    + intros Hall.
      destruct (Hall i ltac:(left)) as (signer & Hs & Hn).
      destruct (findMatchingIssuer_loop_step env message code i rest signer Hs) as [_ Hno].
      rewrite (Hno Hn). apply IH. intros issuer Hin. apply Hall. right. exact Hin.
Qed.

(** X8. [findMatchingIssuer] returns the first issuer of the list whose
    attestation signer signed the code: the issuer it returns is in the
    list, its signer validates the code, and every issuer before it has a
    signer that does not; it returns [null] exactly when no issuer of the
    list has a signer that validates the code (the empty list included). *)
Theorem findMatchingIssuer_first_match env identifier account code (issuers : list string) :
  getAccounts env = Ok tt →
  let message := getAttestationMessageToSignFromIdentifier env identifier account in
  (∀ issuer,
     findMatchingIssuer env identifier account code issuers = Ok (Some issuer) →
     ∃ k, issuers !! k = Some issuer
          ∧ matches env message code issuer
          ∧ ∀ j other, (j < k)%nat → issuers !! j = Some other →
                       mismatches env message code other)
  ∧ (findMatchingIssuer env identifier account code issuers = Ok None ↔
     ∀ issuer, issuer ∈ issuers → mismatches env message code issuer).
Proof.
  intros Ha message. unfold findMatchingIssuer. rewrite Ha. cbn. fold message.
  split.
  - intros issuer. apply findMatchingIssuer_loop_some.
  - apply findMatchingIssuer_loop_none.
Qed.

Lemma findMatchingIssuer_first_match_witness :
  getAccounts Sample.env = Ok tt
  ∧ findMatchingIssuer Sample.env Sample.identifier Sample.account "othercode"
      [Sample.issuerA; Sample.issuerB; Sample.issuerC] = Ok (Some Sample.issuerB)
  ∧ mismatches Sample.env
      (getAttestationMessageToSignFromIdentifier Sample.env Sample.identifier
         Sample.account) "othercode" Sample.issuerA.
Proof.
  split; [reflexivity|].
  assert (findMatchingIssuer Sample.env Sample.identifier Sample.account "othercode"
            [Sample.issuerA; Sample.issuerB; Sample.issuerC] = Ok (Some Sample.issuerB))
    as Hrun by (vm_compute; reflexivity).
  split; [exact Hrun|].
  destruct (findMatchingIssuer_first_match Sample.env Sample.identifier Sample.account
              "othercode" [Sample.issuerA; Sample.issuerB; Sample.issuerC] eq_refl)
    as [Hsome _].
  destruct (Hsome Sample.issuerB Hrun) as (k & Hk & _ & Hbefore).
  destruct k as [|[|k]]; [discriminate| |].
  - apply (Hbefore 0%nat); [lia|reflexivity].
  - apply (Hbefore 0%nat); [lia|reflexivity].
Defined.

(** X9. The issuer [findMatchingIssuer] finds is one the attestation can be
    completed with: [complete] with that issuer and the same code returns
    its transaction. *)
Theorem found_issuer_completes env identifier account code (issuers : list string) issuer :
  findMatchingIssuer env identifier account code issuers = Ok (Some issuer) →
  ∃ tx, complete env identifier account issuer code = Ok tx
        ∧ tx_identifier tx = identifier.
Proof.
  intros H.
  assert (getAccounts env = Ok tt) as Ha.
  { unfold findMatchingIssuer in H. destruct (getAccounts env) as [[]|]; [reflexivity|].
    discriminate. }
  destruct (findMatchingIssuer_first_match env identifier account code issuers Ha)
    as [Hsome _].
  destruct (Hsome issuer H) as (k & _ & (signer & Hs & sig & Hd & Hr) & _).
  unfold complete. rewrite Ha, Hs. cbn.
  rewrite (proj2 (parseSignature_ok _ _ _ _ sig) (conj Hd Hr)). cbn.
  eexists. split; reflexivity.
Qed.

Lemma found_issuer_completes_witness :
  findMatchingIssuer Sample.env Sample.identifier Sample.account "goodcode"
    [Sample.issuerB; Sample.issuerA] = Ok (Some Sample.issuerA)
  ∧ ∃ tx, complete Sample.env Sample.identifier Sample.account Sample.issuerA "goodcode"
          = Ok tx ∧ tx_identifier tx = Sample.identifier.
Proof.
  assert (findMatchingIssuer Sample.env Sample.identifier Sample.account "goodcode"
            [Sample.issuerB; Sample.issuerA] = Ok (Some Sample.issuerA))
    as Hrun by (vm_compute; reflexivity).
  split; [exact Hrun|].
  exact (found_issuer_completes Sample.env Sample.identifier Sample.account "goodcode"
           [Sample.issuerB; Sample.issuerA] Sample.issuerA Hrun).
Defined.

(** X10. A signer lookup that fails is not skipped: when the issuers before
    an issuer do not match and the lookup of its signer throws,
    [findMatchingIssuer] throws that error, whatever issuers follow. *)
Theorem findMatchingIssuer_lookup_failure
    env identifier account code (before after : list string) (issuer : string) e :
  getAccounts env = Ok tt →
  (∀ other, other ∈ before →
     mismatches env (getAttestationMessageToSignFromIdentifier env identifier account)
       code other) →
  getAttestationSigner env issuer = Throw e →
  findMatchingIssuer env identifier account code (before ++ issuer :: after) = Throw e.
Proof.
  intros Ha Hbefore He. unfold findMatchingIssuer. rewrite Ha. cbn.
  induction before as [|b before IH]; cbn [app].
  - cbn. rewrite He. reflexivity.
  - destruct (Hbefore b ltac:(left)) as (signer & Hs & Hn).
    destruct (findMatchingIssuer_loop_step env
                (getAttestationMessageToSignFromIdentifier env identifier account)
                code b (before ++ issuer :: after) signer Hs) as [_ Hno].
    rewrite (Hno Hn). apply IH. intros other Hin. apply Hbefore. right. exact Hin.
Qed.

Lemma findMatchingIssuer_lookup_failure_witness :
  findMatchingIssuer SampleOperations.offline Sample.identifier Sample.account "goodcode"
    [Sample.issuerB; Sample.issuerC; Sample.issuerA]
  = Throw (Error "signer lookup failed").
Proof.
  apply (findMatchingIssuer_lookup_failure SampleOperations.offline Sample.identifier
           Sample.account "goodcode" [Sample.issuerB] [Sample.issuerA] Sample.issuerC
           (Error "signer lookup failed") eq_refl); [|reflexivity].
  intros other Hin. apply list_elem_of_singleton in Hin as ->.
  exists Sample.issuerB. split; [reflexivity|].
  intros (sig & Hd & Hr). vm_compute in Hd. injection Hd as <-.
  vm_compute in Hr. discriminate.
Defined.

Lemma findIndex_from_spec {A} (p : A → bool) (l : list A) : ∀ i,
  (findIndex_from p l i = -1 ∧ ∀ x, x ∈ l → p x = false)
  ∨ (∃ k x, findIndex_from p l i = i + Z.of_nat k
            ∧ l !! k = Some x ∧ p x = true
            ∧ ∀ j y, (j < k)%nat → l !! j = Some y → p y = false).
Proof.
  induction l as [|x l IH]; intros i.
  - left. split; [reflexivity|]. intros x Hx. inversion Hx.
  - cbn [findIndex_from]. destruct (p x) eqn:Hp.
    + right. exists 0%nat, x. split; [lia|]. split; [reflexivity|].
      split; [exact Hp|]. lia.
    + destruct (IH (i + 1)) as [[Hnone Hall]|(k & y & Hk & Hy & Hpy & Hbefore)].
      * left. split; [exact Hnone|]. intros z Hz.
        apply elem_of_cons in Hz as [->|Hz]; auto.
      * right. exists (S k), y. split; [lia|]. split; [exact Hy|].
        split; [exact Hpy|]. intros [|j] z Hj Hz.
        -- injection Hz as <-. exact Hp.
        -- apply (Hbefore j); [lia|exact Hz].
Qed.

(** X11. [revoke] addresses the account by the index of its first occurrence
    in the accounts of the identifier, compared as addresses (case and [0x]
    prefix apart): the index of the transaction is within the list, the
    account there is the given one and no account before it is; and it
    throws the not-found error exactly when no account of the list is the
    given one (an identifier without accounts included). *)
Theorem revoke_index_of_first_match reads identifer account accounts :
  lookupAccountsForIdentifier reads identifer = Ok accounts →
  (∀ tx, revoke reads identifer account = Ok tx →
     rv_identifier tx = identifer
     ∧ ∃ k found,
         rv_index tx = Z.of_nat k
         ∧ accounts !! k = Some found
         ∧ sameAddress found account = true
         ∧ ∀ j other, (j < k)%nat → accounts !! j = Some other →
                      sameAddress other account = false)
  ∧ (revoke reads identifer account = Throw accountNotFound ↔
     ∀ other, other ∈ accounts → sameAddress other account = false).
Proof.
  intros Hread. unfold revoke, findIndex. rewrite Hread. cbn.
  destruct (findIndex_from_spec (λ acc, sameAddress acc account) accounts 0)
    as [[-> Hall]|(k & found & -> & Hk & Hp & Hbefore)].
  - cbn. split; [discriminate|]. split; [intros _; exact Hall|reflexivity].
  - destruct (Z.ltb_spec (0 + Z.of_nat k) 0); [lia|]. split.
    + intros tx [= <-]. cbn. split; [reflexivity|].
      exists k, found. split; [lia|]. auto.
    + split; [discriminate|]. intros Hall.
      rewrite Hall in Hp; [discriminate|]. eapply list_elem_of_lookup_2. exact Hk.
Qed.

Lemma revoke_index_of_first_match_witness :
  lookupAccountsForIdentifier SampleOperations.reads Sample.identifier
  = Ok [Sample.issuerD; Sample.account]
  ∧ revoke SampleOperations.reads Sample.identifier
      "0x06CEF8E666768CC40CC78CF93D9611019DDCB628"
    = Ok {| rv_identifier := Sample.identifier; rv_index := 1 |}
  ∧ revoke SampleOperations.reads Sample.identifier Sample.issuerA
    = Throw accountNotFound.
Proof.
  split; [reflexivity|].
  destruct (revoke_index_of_first_match SampleOperations.reads Sample.identifier
              Sample.issuerA [Sample.issuerD; Sample.account] eq_refl) as [_ Hnone].
  split; [vm_compute; reflexivity|].
  apply Hnone. intros other Hin.
  apply elem_of_cons in Hin as [->|Hin]; [vm_compute; reflexivity|].
  apply list_elem_of_singleton in Hin as ->. vm_compute. reflexivity.
Defined.

(** X12. [validateAttestationCode] has the precondition of [complete]: when
    [complete] throws, it throws the same error without asking the contract;
    when [complete] returns a transaction, it asks the contract with the
    signature components of that transaction, and answers whether the
    address the contract recovered is not the null address, case apart. *)
Theorem validateAttestationCode_follows_complete
    env reads identifier account issuer code :
  (∀ e, complete env identifier account issuer code = Throw e →
        validateAttestationCode env reads identifier account issuer code = Throw e)
  ∧ (∀ tx, complete env identifier account issuer code = Ok tx →
       validateAttestationCode env reads identifier account issuer code
       = (result ← validateAttestationCode_call reads identifier account
                     (tx_v tx) (tx_r tx) (tx_s tx);
          mret (negb (String.eqb (SecurityCode.toLowerCase result) NULL_ADDRESS)))).
Proof.
  unfold complete, validateAttestationCode.
  destruct (getAccounts env) as [[]|e0]; cbn; [|split; [intros e [= ->]; reflexivity|discriminate]].
  destruct (getAttestationSigner env issuer) as [signer|e0]; cbn;
    [|split; [intros e [= ->]; reflexivity|discriminate]].
  destruct (parseSignature env _ code signer) as [sig|e0]; cbn;
    [|split; [intros e [= ->]; reflexivity|discriminate]].
  split; [discriminate|]. intros tx [= <-]. reflexivity.
Qed.

Example sample_validateAttestationCode :
  validateAttestationCode Sample.env SampleOperations.reads Sample.identifier
    Sample.account Sample.issuerA "goodcode" = Ok true
  ∧ validateAttestationCode Sample.env SampleOperations.reads Sample.identifier
      Sample.account Sample.issuerB "othercode" = Ok false
  ∧ validateAttestationCode Sample.env SampleOperations.reads Sample.identifier
      Sample.account Sample.issuerA "othercode"
    = Throw (verificationError Sample.issuerA).
Proof. vm_compute. repeat split. Qed.

Lemma promiseAll_fees reads (tokens : list string) fees :
  promiseAll
    ((λ token, fee ← attestationRequestFees reads token;
               mret {| fee := fee; tk_address := token |}) <$> tokens) = Ok fees →
  tk_address <$> fees = tokens
  ∧ Forall (λ t, attestationRequestFees reads (tk_address t) = Ok (fee t)) fees.
Proof.
  revert fees. induction tokens as [|token tokens IH]; intros fees H; cbn in H.
  - injection H as <-. split; [reflexivity|constructor].
  - destruct (attestationRequestFees reads token) as [f|e] eqn:Ef; cbn in H;
      [|discriminate].
    destruct (promiseAll _) as [rest|e] eqn:Er; cbn in H; [|discriminate].
    injection H as <-. destruct (IH rest eq_refl) as [Ha Hf].
    split; [cbn; f_equal; exact Ha|]. constructor; [exact Ef|exact Hf].
Qed.

(** X13. The configuration [getConfig] returns has one fee entry per token of
    the list, in the order of the list, each with the address of its token
    and the fee the contract reports for it, beside the expiry the contract
    reports; when a fee read fails the call fails. *)
Theorem getConfig_fee_per_token reads (tokens : list string) :
  (∀ config, getConfig reads tokens = Ok config →
     tk_address <$> cfg_attestationRequestFees config = tokens
     ∧ Forall (λ t, attestationRequestFees reads (tk_address t) = Ok (fee t))
         (cfg_attestationRequestFees config)
     ∧ attestationExpiryBlocks reads = Ok (cfg_attestationExpiryBlocks config))
  ∧ (∀ token, token ∈ tokens →
       (∃ e, attestationRequestFees reads token = Throw e) →
       ∃ e, getConfig reads tokens = Throw e).
Proof.
  unfold getConfig. split.
  - intros config H.
    destruct (promiseAll _) as [fees|e] eqn:Ef; cbn in H; [|discriminate].
    destruct (attestationExpiryBlocks reads) as [expiry|e]; cbn in H; [|discriminate].
    injection H as <-. cbn. destruct (promiseAll_fees _ _ _ Ef). auto.
  - intros token Hin [e He].
    destruct (promiseAll _) as [fees|e'] eqn:Ef; cbn; [|eauto].
    exfalso. destruct (promiseAll_fees _ _ _ Ef) as [Ha Hf].
    rewrite <- Ha in Hin. apply list_elem_of_fmap in Hin as (t & -> & Ht).
    rewrite Forall_forall in Hf. specialize (Hf t Ht). congruence.
Qed.

Example sample_getConfig :
  getConfig SampleOperations.reads ["0xaa"; "0xbb"]
  = Ok {| cfg_attestationExpiryBlocks := 720;
          cfg_attestationRequestFees :=
            [ {| tk_address := "0xaa"; fee := 5 |}; {| tk_address := "0xbb"; fee := 5 |} ] |}
  ∧ getConfig SampleOperations.reads ["0xaa"; ""] = Throw (Error "unknown token").
Proof. vm_compute. split; reflexivity. Qed.

End OperationsFacts.

(** ** More facts about the wait for the selection window *)

Module WaitTraceFacts.
Import Chain World AttestationsWrapper AttestationsOperations Properties.
Import MoreProperties.

Section Loop.
Variables (tl : Timeline) (t0 timeoutSeconds pollDurationSeconds required : Z).

Lemma wait_loop_returned fuel : ∀ st st',
  wait_loop fuel tl t0 timeoutSeconds pollDurationSeconds required st = (Returned, st') →
  ∃ ts t b,
    trace st' = trace st ++ rounds (pollDurationSeconds * 1000) ts ++ [PolledBlockNumber t]
    ∧ blockNumberAt tl t = Ok b ∧ required ≤ b
    ∧ t - t0 < timeoutSeconds * 1000
    ∧ Forall (fun t' => pollBelow tl required t' ∧ t' - t0 < timeoutSeconds * 1000) ts.
Proof.
  induction fuel as [|fuel IH]; intros st st' H; cbn in H; [discriminate|].
  destruct (Z.ltb_spec (now st - t0) (timeoutSeconds * 1000)); [|discriminate].
  destruct (blockNumberAt tl (now st)) as [b|e] eqn:Hb; [|discriminate].
  destruct (Z.leb_spec required b).
  - injection H as <-. exists [], (now st), b. cbn. auto.
  - destruct (IH _ _ H) as (ts & t & b' & Htrace & Hb' & Hr & Ht & Hts).
    exists (now st :: ts), t, b'. cbn in Htrace. cbn.
    split; [rewrite Htrace, <- !app_assoc; reflexivity|].
    split; [exact Hb'|]. split; [exact Hr|]. split; [exact Ht|].
    constructor; [|exact Hts]. split; [exists b; auto|assumption].
Qed.

End Loop.

Lemma waitForSelectingIssuers_loop fuel env tl identifier account
    timeoutSeconds pollDurationSeconds t0 result st' :
  waitForSelectingIssuers fuel env tl identifier account
    timeoutSeconds pollDurationSeconds (start t0) = (result, st') →
  result = Returned →
  ∃ unselectedRequest waitBlocks,
    getUnselectedRequest env identifier account = Ok unselectedRequest
    ∧ blockNumber unselectedRequest ≠ 0
    ∧ selectIssuersWaitBlocks env = Ok waitBlocks
    ∧ wait_loop fuel tl t0 timeoutSeconds pollDurationSeconds
        (blockNumber unselectedRequest + waitBlocks)
        (awaitRead tl (awaitRead tl (start t0))) = (Returned, st').
Proof.
  unfold waitForSelectingIssuers. intros H ->.
  destruct (getUnselectedRequest env identifier account) as [ur|]; [|discriminate].
  destruct (selectIssuersWaitBlocks env) as [wb|]; [|discriminate].
  destruct (Z.eqb_spec (blockNumber ur) 0); [discriminate|].
  exists ur, wb. auto.
Qed.

(** X14. A wait returns only on evidence: there was a pending request, and
    the trace of the call is a series of polls before the deadline that each
    found the chain below the required block, each followed by one pause of
    the poll duration, and then one last poll, before the deadline too, that
    found the chain at the required block or beyond. *)
Theorem wait_returns_on_evidence fuel env tl identifier account
    timeoutSeconds pollDurationSeconds t0 st' :
  waitForSelectingIssuers fuel env tl identifier account
    timeoutSeconds pollDurationSeconds (start t0) = (Returned, st') →
  ∃ unselectedRequest waitBlocks ts t b,
    getUnselectedRequest env identifier account = Ok unselectedRequest
    ∧ blockNumber unselectedRequest ≠ 0
    ∧ selectIssuersWaitBlocks env = Ok waitBlocks
    ∧ trace st' = rounds (pollDurationSeconds * 1000) ts ++ [PolledBlockNumber t]
    ∧ blockNumberAt tl t = Ok b
    ∧ blockNumber unselectedRequest + waitBlocks ≤ b
    ∧ t - t0 < timeoutSeconds * 1000
    ∧ Forall (fun t' => pollBelow tl (blockNumber unselectedRequest + waitBlocks) t'
                        ∧ t' - t0 < timeoutSeconds * 1000) ts.
Proof.
  intros H.
  destruct (waitForSelectingIssuers_loop _ _ _ _ _ _ _ _ _ _ H eq_refl)
    as (ur & wb & Hur & Hpending & Hwb & Hloop).
  destruct (wait_loop_returned _ _ _ _ _ _ _ _ Hloop)
    as (ts & t & b & Htrace & Hb & Hr & Ht & Hts).
  exists ur, wb, ts, t, b. cbn in Htrace. auto 10.
Qed.

Lemma wait_returns_on_evidence_witness :
  ∃ st' ts t,
    waitForSelectingIssuers 10 Sample.env Sample.movingChain Sample.identifier
      Sample.account 120 5 (start 0) = (Returned, st')
    ∧ trace st' = rounds 5000 ts ++ [PolledBlockNumber t]
    ∧ blockNumberAt Sample.movingChain t = Ok 104.
Proof.
  destruct (waitForSelectingIssuers 10 Sample.env Sample.movingChain Sample.identifier
              Sample.account 120 5 (start 0)) as [result st'] eqn:E.
  assert (result = Returned) as -> by (vm_compute in E; congruence).
  destruct (wait_returns_on_evidence _ _ _ _ _ _ _ _ _ E)
    as (ur & wb & ts & t & b & _ & _ & _ & Htrace & Hb & _).
  exists st', ts, t. split; [reflexivity|]. split; [exact Htrace|].
  assert (trace st' = [PolledBlockNumber 40; Slept 5000; PolledBlockNumber 5060;
                       Slept 5000; PolledBlockNumber 10080; Slept 5000;
                       PolledBlockNumber 15100; Slept 5000; PolledBlockNumber 20120])
    as Hrun by (vm_compute in E; injection E as <-; reflexivity).
  rewrite Htrace in Hrun.
  assert (t = 20120) as ->.
  { apply (f_equal last) in Hrun. rewrite last_snoc in Hrun. cbn in Hrun. congruence. }
  vm_compute. reflexivity.
Defined.

(** X15. The time the two reads take counts against the timeout: when it has
    run out by the time they return (as with a timeout of 0), the call throws
    the timeout error without a single poll, wherever the chain is. *)
Theorem wait_times_out_before_polling env tl identifier account
    timeoutSeconds pollDurationSeconds t0 unselectedRequest waitBlocks fuel :
  getUnselectedRequest env identifier account = Ok unselectedRequest →
  blockNumber unselectedRequest ≠ 0 →
  selectIssuersWaitBlocks env = Ok waitBlocks →
  timeoutSeconds * 1000 ≤ now (awaitRead tl (awaitRead tl (start t0))) - t0 →
  ∃ st',
    waitForSelectingIssuers (S fuel) env tl identifier account
      timeoutSeconds pollDurationSeconds (start t0) = (Thrown timeoutError, st')
    ∧ trace st' = [].
Proof.
  intros Hur Hpending Hwb Hlate. unfold waitForSelectingIssuers.
  rewrite Hur, Hwb. destruct (Z.eqb_spec (blockNumber unselectedRequest) 0);
    [contradiction|].
  cbn [wait_loop]. change (now (start t0)) with t0.
  destruct (Z.ltb_spec (now (awaitRead tl (awaitRead tl (start t0))) - t0)
              (timeoutSeconds * 1000)); [lia|].
  eexists. split; reflexivity.
Qed.

Lemma wait_times_out_before_polling_witness :
  blockNumberAt Sample.movingChain 1000000 = Ok 300
  ∧ ∃ st',
      waitForSelectingIssuers 5 Sample.env Sample.movingChain Sample.identifier
        Sample.account 0 1 (start 1000000) = (Thrown timeoutError, st')
      ∧ trace st' = [].
Proof.
  split; [reflexivity|].
  apply (wait_times_out_before_polling Sample.env Sample.movingChain Sample.identifier
           Sample.account 0 1 1000000
           {| blockNumber := 100; attestationsRequested := 3;
              attestationRequestFeeToken :=
                "0x765DE816845861e75A25fCA122bb6898B8B1282a" |} 4 4%nat
           eq_refl ltac:(discriminate) eq_refl).
  vm_compute. discriminate.
Defined.

(** X16. [selectIssuersAfterWait] builds the selection transaction, for the
    identifier it was given, only after a wait that returned: there was a
    pending request and the last poll, within the timeout (120 seconds when
    none is given), found the chain at the required block or beyond.  When
    the wait throws, its error is the error of the call. *)
Theorem selectIssuersAfterWait_after_window fuel env tl identifier account
    timeoutSeconds pollDurationSeconds t0 result st' :
  selectIssuersAfterWait fuel env tl identifier account
    timeoutSeconds pollDurationSeconds (start t0) = (result, st') →
  match result with
  | Done tx =>
      tx = selectIssuers identifier
      ∧ ∃ unselectedRequest waitBlocks t b,
          getUnselectedRequest env identifier account = Ok unselectedRequest
          ∧ blockNumber unselectedRequest ≠ 0
          ∧ selectIssuersWaitBlocks env = Ok waitBlocks
          ∧ last (trace st') = Some (PolledBlockNumber t)
          ∧ blockNumberAt tl t = Ok b
          ∧ blockNumber unselectedRequest + waitBlocks ≤ b
          ∧ t - t0 < default 120 timeoutSeconds * 1000
  | Failed e =>
      waitForSelectingIssuers fuel env tl identifier account
        (default 120 timeoutSeconds) (default 1 pollDurationSeconds) (start t0)
      = (Thrown e, st')
  | Unfinished => True
  end.
Proof.
  unfold selectIssuersAfterWait.
  destruct (waitForSelectingIssuers fuel env tl identifier account
              (default 120 timeoutSeconds) (default 1 pollDurationSeconds) (start t0))
    as [[| e |] st1] eqn:E; intros [= <- <-]; [|reflexivity|exact I].
  split; [reflexivity|].
  destruct (wait_returns_on_evidence _ _ _ _ _ _ _ _ _ E)
    as (ur & wb & ts & t & b & Hur & Hp & Hwb & Htrace & Hb & Hr & Ht & _).
  exists ur, wb, t, b. rewrite Htrace, last_snoc. auto 10.
Qed.

Lemma selectIssuersAfterWait_after_window_witness :
  ∃ st' t b,
    selectIssuersAfterWait 10 Sample.env Sample.movingChain Sample.identifier
      Sample.account None (Some 5) (start 0)
    = (Done {| si_identifier := Sample.identifier |}, st')
    ∧ last (trace st') = Some (PolledBlockNumber t)
    ∧ blockNumberAt Sample.movingChain t = Ok b
    ∧ 104 ≤ b.
Proof.
  destruct (selectIssuersAfterWait 10 Sample.env Sample.movingChain Sample.identifier
              Sample.account None (Some 5) (start 0)) as [result st'] eqn:E.
  pose proof (selectIssuersAfterWait_after_window _ _ _ _ _ _ _ _ _ _ E) as H.
  assert (result = Done {| si_identifier := Sample.identifier |}) as ->
    by (vm_compute in E; injection E as <- _; reflexivity).
  destruct H as (_ & ur & wb & t & b & Hur & _ & Hwb & Hlast & Hb & Hreached & _).
  vm_compute in Hur. injection Hur as <-. vm_compute in Hwb. injection Hwb as <-.
  exists st', t, b. split; [reflexivity|]. split; [exact Hlast|].
  split; [exact Hb|exact Hreached].
Defined.

End WaitTraceFacts.

(** ** More facts about the service status probe *)

Module StatusEdgeFacts.
Import Base Identity Http Chain World AttestationsWrapper Properties StatusFacts.
Import MoreProperties.

Lemma reachesService_run env validator url :
  reachesService env validator url →
  ∃ ret,
    getAttestationServiceStatus env validator
    = Ok (snd (probeStatus env validator url ret))
    ∧ okStatus ret = false ∧ error ret = NoError
    ∧ attestationServiceURL ret = Some url.
Proof.
  intros (Ha & Hh & [sg Hs] & metadataURL & metadata & claim
          & Hm & Hne & Hsec & Hf & Hc & Hu).
  unfold getAttestationServiceStatus, resolveServiceURL.
  rewrite Ha, Hh, Hs. step. rewrite Hm. step. rewrite Hne, Hsec.
  rewrite Hf. step. rewrite Hc. step. rewrite Hu.
  eexists. split; [reflexivity|]. cbn. auto.
Qed.

Lemma reachesStatus_service env validator url fields acct :
  reachesStatus env validator url fields acct → reachesService env validator url.
Proof.
  intros (Ha & Hh & Hs & metadataURL & metadata & claim & resp
          & Hm & Hne & Hsec & Hf & Hc & Hu & _).
  split; [exact Ha|]. split; [exact Hh|]. split; [exact Hs|].
  exists metadataURL, metadata, claim. auto 10.
Qed.

(** X17. A status endpoint that answers 2xx with a body that cannot be read
    as JSON is classified [UnreachableAttestationService], with the parse
    error recorded, although the response keeps [okStatus] set: the flag is
    raised before the body is read and the [catch] block does not lower
    it. *)
Theorem unreadable_status_body_keeps_okStatus env validator url resp e :
  reachesService env validator url →
  fetch env (appendPath url "status") = Ok resp →
  ok resp = true →
  json_body resp = Throw e →
  ∃ ret,
    getAttestationServiceStatus env validator = Ok ret
    ∧ state ret = UnreachableAttestationService
    ∧ okStatus ret = true
    ∧ error ret = Caught e
    ∧ attestationServiceURL ret = Some url.
Proof.
  intros Hreach Hst Hok Hj.
  destruct (reachesService_run _ _ _ Hreach) as (ret & -> & _ & _ & Hurl).
  eexists. split; [reflexivity|].
  unfold probeStatus. step. rewrite Hst. step. rewrite Hok. step. rewrite Hj. step.
  cbn. auto.
Qed.

(** X18. A status body without a version is taken as version 1.0.0: the
    healthz endpoint is not asked and the age of the latest block and the
    syncing flag are not looked at, so the state is [Valid] for the right
    account and [WrongAccount] otherwise, however stale the node is. *)
Theorem legacy_status_skips_health_checks env validator url fields acct :
  reachesStatus env validator url fields acct →
  truthy (default JUndefined (fields !! "version")) = false →
  ∃ ret,
    getAttestationServiceStatus env validator = Ok ret
    ∧ state ret = (if String.eqb (normalizeAddress (address validator))
                        (normalizeAddress acct)
                   then Valid else WrongAccount)
    ∧ version ret = JStr "1.0.0"
    ∧ okStatus ret = true
    ∧ error ret = NoError
    ∧ ageOfLatestBlock ret = default JUndefined (fields !! "ageOfLatestBlock").
Proof.
  intros Hreach Hv.
  destruct (reachesService_run _ _ _ (reachesStatus_service _ _ _ _ _ Hreach))
    as (ret & -> & _ & Herr & _).
  destruct (reachesStatus_run _ _ _ _ _ Hreach) as (_ & resp & _ & Hst & Hok & Hj & Hacct).
  eexists. split; [reflexivity|].
  unfold probeStatus. step. rewrite Hst. step. rewrite Hok. step. rewrite Hj. step.
  unfold prop. step. rewrite Hacct.
  change (default JUndefined (Some (JStr acct))) with (JStr acct).
  unfold eqAddress. step. rewrite Hv. step. cbn.
  split; [reflexivity|]. split; [reflexivity|]. split; [reflexivity|].
  split; [exact Herr|reflexivity].
Qed.

(** A body one property of which could be read lets every property be read. *)
Lemma prop_fields body field v :
  prop body field = Ok v →
  ∃ read : string → Js.value, ∀ f, prop body f = Ok (read f).
Proof.
  destruct body as [[]|fields]; cbn; intros H; try discriminate.
  all: try (exists (fun _ => JUndefined); reflexivity).
  exists (fun f => default JUndefined (fields !! f)). reflexivity.
Qed.

(** What the healthz probe leaves of the response. *)
Lemma healthcheck_cases env url ret :
  healthcheck env url ret
  = (Ok tt,
     match fetch env (appendPath url "healthz") with
     | Throw _ => set_state UnreachableHealthz ret
     | Ok healthzResponse =>
         match json_body healthzResponse with
         | Throw _ => set_state UnreachableHealthz ret
         | Ok healthzResponseBody =>
             if ok healthzResponse then ret
             else
               match prop healthzResponseBody "error" with
               | Throw _ => set_state UnreachableHealthz (set_state Unhealthy ret)
               | Ok error =>
                   if truthy error
                   then set_error (Reported error) (set_state Unhealthy ret)
                   else set_state Unhealthy ret
               end
         end
     end).
Proof.
  unfold healthcheck. step.
  destruct (fetch env (appendPath url "healthz")) as [resp|e]; step; [|reflexivity].
  destruct (json_body resp) as [body|e]; step; [|reflexivity].
  destruct (ok resp); step; [reflexivity|].
  destruct (prop body "error") as [v|e]; step; [|reflexivity].
  destruct (truthy v); reflexivity.
Qed.

Lemma healthcheck_valid env url ret ret' :
  healthcheck env url ret = (Ok tt, ret') → state ret' = Valid → ret' = ret.
Proof.
  rewrite healthcheck_cases. intros [= <-].
  repeat case_match; cbn; intros; try discriminate; reflexivity.
Qed.

(** One step of the probe, the projection of the final response kept. *)
Ltac keep_step :=
  cbv beta iota delta
    [tryCatch lift assign mbind mret M_bind M_ret outcome_bind outcome_ret Js.bind negb].

Lemma probeStatus_valid env validator url ret :
  error ret = NoError →
  state (snd (probeStatus env validator url ret)) = Valid →
  validResponse (snd (probeStatus env validator url ret))
  ∧ hasAttestationSigner (snd (probeStatus env validator url ret))
    = hasAttestationSigner ret
  ∧ metadataURL (snd (probeStatus env validator url ret)) = metadataURL ret
  ∧ attestationServiceURL (snd (probeStatus env validator url ret))
    = attestationServiceURL ret.
Proof.
  intros Herr. unfold probeStatus. step.
  destruct (fetch env (appendPath url "status")) as [resp|e]; step;
    [|cbn; discriminate].
  destruct (ok resp); step; [|cbn; discriminate].
  destruct (json_body resp) as [body|e]; step; [|cbn; discriminate].
  destruct (prop body "smsProviders") as [sms|e] eqn:Esms; step; [|cbn; discriminate].
  destruct (prop_fields body "smsProviders" sms Esms) as [read Hread].
  rewrite !Hread. step.
  destruct (eqAddress (address validator) (read "accountAddress")) as [right|e]; step;
    [|cbn; discriminate].
  destruct (truthy (read "version")) eqn:Ev; step.
  - match goal with
    | |- context [healthcheck env url ?r] =>
        destruct (healthcheck env url r) as [o ret2] eqn:Eh;
        pose proof (healthcheck_cases env url r) as Hc;
        rewrite Eh in Hc; injection Hc as -> _;
        pose proof (healthcheck_valid env url r ret2 Eh) as Hvalid;
        clear Eh
    end.
    step. destruct ((_ && _) || _); step; cbn [snd];
      [intros Hs; cbn in Hs; discriminate|].
    intros Hstate. pose proof (Hvalid Hstate) as Heq. subst ret2.
    cbn in Hstate |- *. destruct right; [|discriminate].
    split; [|auto]. split; [reflexivity|]. split; [reflexivity|].
    split; [exact Herr|]. intros Hnull. cbn in Hnull. rewrite Hnull in Ev. discriminate.
  - cbn. intros Hstate. destruct right; [|discriminate].
    split; [|auto]. split; [reflexivity|]. split; [reflexivity|].
    split; [exact Herr|discriminate].
Qed.

(** X19. A response in state [Valid] is backed by every check: the validator
    has an attestation signer and a registered metadata URL that is not over
    [http://], the metadata names a service URL, the status endpoint answered
    2xx for the right account, no error was recorded, and a version is
    set. *)
Theorem valid_state_is_backed env validator ret :
  getAttestationServiceStatus env validator = Ok ret →
  state ret = Valid →
  hasAttestationSigner ret = true
  ∧ hasAuthorizedAttestationSigner env (address validator) = Ok true
  ∧ (∃ url, metadataURL ret = Some url ∧ url ≠ ""
            ∧ String.prefix "http://" url = false
            ∧ getMetadataURL env (address validator) = Ok url)
  ∧ is_Some (attestationServiceURL ret)
  ∧ okStatus ret = true
  ∧ rightAccount ret = true
  ∧ error ret = NoError
  ∧ version ret ≠ JNull.
Proof.
  unfold getAttestationServiceStatus.
  destruct (getAccounts env) as [[]|]; keep_step; [|discriminate].
  destruct (hasAuthorizedAttestationSigner env (address validator)) as [has|]; keep_step;
    [|discriminate].
  destruct (getAttestationSigner env (address validator)) as [sg|]; keep_step; [|discriminate].
  destruct has; keep_step; [|intros [= <-]; discriminate].
  destruct (getMetadataURL env (address validator)) as [url|]; keep_step; [|discriminate].
  destruct (String.eqb_spec url "") as [->|Hne]; [intros [= <-]; discriminate|].
  destruct (String.prefix "http://" url) eqn:Hsec; [intros [= <-]; discriminate|].
  unfold resolveServiceURL. keep_step.
  destruct (fetchFromURL env url defaultTries) as [metadata|e]; keep_step;
    [|intros [= <-]; cbn; destruct (isSystem e); discriminate].
  destruct (findClaim metadata ATTESTATION_SERVICE_URL) as [claim|]; keep_step;
    [|intros [= <-]; discriminate].
  intros [= <-] Hstate.
  match type of Hstate with
  | context [probeStatus env validator ?u ?r] =>
      destruct (probeStatus_valid env validator u r eq_refl Hstate)
        as ((Hok & Hright & Herr & Hver) & Hsigner & Hmeta & Hurl)
  end.
  rewrite Hsigner, Hmeta, Hurl. cbn.
  split; [reflexivity|]. split; [reflexivity|].
  split; [exists url; auto|]. split; [eauto|]. auto.
Qed.

Lemma valid_state_is_backed_witness :
  ∃ ret,
    getAttestationServiceStatus Sample.env (Sample.validatorOf "A" Sample.issuerA) = Ok ret
    ∧ state ret = Valid
    ∧ okStatus ret = true ∧ rightAccount ret = true ∧ error ret = NoError.
Proof.
  destruct (getAttestationServiceStatus Sample.env (Sample.validatorOf "A" Sample.issuerA))
    as [ret|e] eqn:E; [|vm_compute in E; discriminate].
  assert (state ret = Valid) as Hstate
    by (vm_compute in E; injection E as <-; reflexivity).
  destruct (valid_state_is_backed _ _ _ E Hstate)
    as (_ & _ & _ & _ & Hok & Hright & Herr & _).
  exists ret. auto.
Defined.

Lemma unreadable_status_body_keeps_okStatus_witness :
  ∃ ret,
    getAttestationServiceStatus SampleOperations.garbled
      (Sample.validatorOf "A" Sample.issuerA) = Ok ret
    ∧ state ret = UnreachableAttestationService
    ∧ okStatus ret = true.
Proof.
  destruct (unreadable_status_body_keeps_okStatus SampleOperations.garbled
              (Sample.validatorOf "A" Sample.issuerA) (Sample.serviceOf "a.example")
              {| ok := true; status := 200;
                 json_body := Throw (Error "Unexpected token < in JSON") |}
              (Error "Unexpected token < in JSON"))
    as (ret & Hret & Hstate & Hok & _).
  - split; [reflexivity|]. split; [reflexivity|]. split; [eexists; reflexivity|].
    exists (Sample.metadataOf "a.example"), (Sample.metadata "a.example" "Validator A"),
      {| claim_type := ATTESTATION_SERVICE_URL;
         claim_url := Sample.serviceOf "a.example"; claim_name := "" |}.
    repeat split; vm_compute; reflexivity.
  - vm_compute. reflexivity.
  - reflexivity.
  - reflexivity.
  - exists ret. auto.
Defined.

Lemma legacy_status_skips_health_checks_witness :
  stale SampleOperations.legacyBody
  ∧ ∃ ret,
      getAttestationServiceStatus SampleOperations.legacy
        (Sample.validatorOf "A" Sample.issuerA) = Ok ret
      ∧ state ret = Valid
      ∧ version ret = JStr "1.0.0"
      ∧ ageOfLatestBlock ret = JNum 50.
Proof.
  split; [left; exists 50; split; [vm_compute; reflexivity|lia]|].
  destruct (legacy_status_skips_health_checks SampleOperations.legacy
              (Sample.validatorOf "A" Sample.issuerA) (Sample.serviceOf "a.example")
              SampleOperations.legacyBody Sample.issuerA)
    as (ret & Hret & Hstate & Hversion & _ & _ & Hage).
  - split; [reflexivity|]. split; [reflexivity|]. split; [eexists; reflexivity|].
    exists (Sample.metadataOf "a.example"), (Sample.metadata "a.example" "Validator A"),
      {| claim_type := ATTESTATION_SERVICE_URL;
         claim_url := Sample.serviceOf "a.example"; claim_name := "" |},
      (Sample.response200 (Object SampleOperations.legacyBody)).
    repeat split; vm_compute; reflexivity.
  - vm_compute. reflexivity.
  - exists ret. split; [exact Hret|]. split; [exact Hstate|].
    split; [exact Hversion|exact Hage].
Defined.

(** The probe on a status body with a version, up to the test of the node. *)
Lemma probeStatus_versioned_run env validator url ret resp fields acct :
  fetch env (appendPath url "status") = Ok resp →
  ok resp = true →
  json_body resp = Ok (Object fields) →
  fields !! "accountAddress" = Some (JStr acct) →
  truthy (default JUndefined (fields !! "version")) = true →
  fresh fields →
  ∃ ret1,
    error ret1 = error ret
    ∧ state ret1 = (if String.eqb (normalizeAddress (address validator))
                         (normalizeAddress acct)
                    then Valid else WrongAccount)
    ∧ snd (probeStatus env validator url ret) = snd (healthcheck env url ret1).
Proof.
  intros Hst Hok Hj Hacct Hv Hfresh.
  unfold probeStatus. step. rewrite Hst. step. rewrite Hok. step. rewrite Hj. step.
  unfold prop. step. rewrite Hacct.
  change (default JUndefined (Some (JStr acct))) with (JStr acct).
  unfold eqAddress. step. rewrite Hv. step.
  rewrite (fresh_test _ Hfresh).
  match goal with
  | |- context [healthcheck env url ?r] =>
      exists r; rewrite (healthcheck_cases env url r)
  end.
  split; [reflexivity|]. split; reflexivity.
Qed.

(** X20. The healthz probe reads the body before it looks at the status
    code.  On a fresh node with a version: a healthz answer whose body is
    not JSON gives [UnreachableHealthz], whatever its status code, a 2xx
    included; an answer outside 2xx with a JSON body gives [Unhealthy], with
    the [error] of the body recorded when it has one. *)
Theorem healthz_body_is_read_first env validator url fields acct hresp :
  reachesStatus env validator url fields acct →
  truthy (default JUndefined (fields !! "version")) = true →
  fresh fields →
  fetch env (appendPath url "healthz") = Ok hresp →
  (∀ e, json_body hresp = Throw e →
        statusState env validator = Some UnreachableHealthz)
  ∧ (∀ fieldsz,
       json_body hresp = Ok (Object fieldsz) → ok hresp = false →
       ∃ ret,
         getAttestationServiceStatus env validator = Ok ret
         ∧ state ret = Unhealthy
         ∧ error ret = (if truthy (default JUndefined (fieldsz !! "error"))
                        then Reported (default JUndefined (fieldsz !! "error"))
                        else NoError)).
Proof.
  intros Hreach Hv Hfresh Hh.
  destruct (reachesService_run _ _ _ (reachesStatus_service _ _ _ _ _ Hreach))
    as (ret & Hrun & _ & Herr & _).
  destruct (reachesStatus_run _ _ _ _ _ Hreach) as (_ & resp & _ & Hst & Hok & Hj & Hacct).
  destruct (probeStatus_versioned_run env validator url ret resp fields acct
              Hst Hok Hj Hacct Hv Hfresh) as (ret1 & Herr1 & Hstate1 & Hend).
  unfold statusState. rewrite Hrun, Hend, healthcheck_cases, Hh. cbn [snd].
  split.
  - intros e He. rewrite He. reflexivity.
  - intros fieldsz Hz Hnok. rewrite Hz, Hnok. cbn [prop].
    eexists. split; [reflexivity|].
    destruct (truthy (default JUndefined (fieldsz !! "error"))); cbn;
      [split; reflexivity|]. split; [reflexivity|]. congruence.
Qed.

Lemma healthz_body_is_read_first_witness :
  (∃ hresp, fetch SampleOperations.plainHealthz
              (appendPath (Sample.serviceOf "a.example") "healthz") = Ok hresp
            ∧ ok hresp = true)
  ∧ statusState SampleOperations.plainHealthz (Sample.validatorOf "A" Sample.issuerA)
    = Some UnreachableHealthz.
Proof.
  split; [eexists; split; vm_compute; reflexivity|].
  destruct (healthz_body_is_read_first SampleOperations.plainHealthz
              (Sample.validatorOf "A" Sample.issuerA) (Sample.serviceOf "a.example")
              (Sample.statusBody "ok" Sample.issuerA 3) Sample.issuerA
              {| ok := true; status := 200; json_body := Throw (Error "Unexpected token O") |})
    as [Hgarbled _].
  - split; [reflexivity|]. split; [reflexivity|]. split; [eexists; reflexivity|].
    exists (Sample.metadataOf "a.example"), (Sample.metadata "a.example" "Validator A"),
      {| claim_type := ATTESTATION_SERVICE_URL;
         claim_url := Sample.serviceOf "a.example"; claim_name := "" |},
      (Sample.response200 (Object (Sample.statusBody "ok" Sample.issuerA 3))).
    repeat split; vm_compute; reflexivity.
  - vm_compute. reflexivity.
  - split; [exists 3; split; [vm_compute; reflexivity|lia]|vm_compute; reflexivity].
  - vm_compute. reflexivity.
  - exact (Hgarbled _ eq_refl).
Defined.

End StatusEdgeFacts.

(** ** More facts about probes, lookups and security codes *)

Module ProbeEdgeFacts.
Import Base Identity Http Chain World AttestationsWrapper Properties.

(** X21. A probe finds an issuer valid in one way only: its metadata was
    fetched and names a service URL, the status endpoint of that URL
    answered 2xx with a JSON body whose [status] is the string ["ok"]; the
    attestation then carries the block number and the issuer of the chain
    entry, the service URL and the name of the metadata, and the version
    the body reports. *)
Theorem valid_verdict_iff env tries arg result :
  makeIsIssuerRunningAttestationService env tries arg = Ok (IsValid result) ↔
  ∃ metadata claim resp body version,
    fetchFromURL env (c_metadataURL arg) tries = Ok metadata
    ∧ findClaim metadata ATTESTATION_SERVICE_URL = Some claim
    ∧ fetch env (statusURL claim) = Ok resp
    ∧ ok resp = true
    ∧ json_body resp = Ok body
    ∧ prop body "status" = Ok (JStr "ok")
    ∧ prop body "version" = Ok version
    ∧ result = {| act_blockNumber := c_blockNumber arg;
                  issuer := c_issuer arg;
                  act_attestationServiceURL := claim_url claim;
                  name := claim_name <$> findClaim metadata NAME;
                  act_version := version |}.
Proof.
  unfold makeIsIssuerRunningAttestationService, isIssuerRunning_try, statusURL, try_catch.
  split.
  - destruct (fetchFromURL env (c_metadataURL arg) tries) as [metadata|] eqn:Em; cbn;
      [|discriminate].
    destruct (findClaim metadata ATTESTATION_SERVICE_URL) as [claim|] eqn:Ec; cbn;
      [|discriminate].
    destruct (fetch env _) as [resp|] eqn:Ef; cbn; [|discriminate].
    destruct (ok resp) eqn:Eok; cbn; [|discriminate].
    destruct (json_body resp) as [body|] eqn:Ej; cbn; [|discriminate].
    destruct (prop body "status") as [status|] eqn:Es; cbn; [|discriminate].
    destruct (prop body "version") as [version|] eqn:Ev; cbn; [|discriminate].
    unfold strict_ne. case_bool_decide as Hne; cbn; [discriminate|].
    intros [= <-]. exists metadata, claim, resp, body, version.
    assert (status = JStr "ok") as -> by (destruct (decide (status = JStr "ok")); tauto).
    repeat split; assumption.
  - intros (metadata & claim & resp & body & version
            & -> & Hc & Hf & Hok & Hj & Hs & Hv & ->).
    cbn. rewrite Hc, Hf. cbn. rewrite Hok, Hj. cbn. rewrite Hs, Hv. cbn.
    reflexivity.
Qed.

Lemma endsWithSlash_slash url : endsWithSlash (url +:+ "/") = true.
Proof.
  induction url as [|c r IH]; [reflexivity|].
  change (String c r +:+ "/") with (String c (r +:+ "/")).
  destruct r as [|c' r']; [reflexivity|exact IH].
Qed.

Lemma append_assoc (a b c : string) : (a +:+ b) +:+ c = a +:+ (b +:+ c).
Proof.
  induction a as [|x a IH]; [reflexivity|].
  change (String x ((a +:+ b) +:+ c) = String x (a +:+ (b +:+ c))).
  f_equal. exact IH.
Qed.

(** X22. A service URL registered with a closing slash and the same URL
    without it are probed at the same status endpoint, the URL followed by
    one slash and [status]. *)
Theorem status_endpoint_ignores_closing_slash (url : string) name :
  endsWithSlash url = false →
  statusURL {| claim_type := ATTESTATION_SERVICE_URL; claim_url := url +:+ "/";
               claim_name := name |}
  = statusURL {| claim_type := ATTESTATION_SERVICE_URL; claim_url := url;
                 claim_name := name |}
  ∧ statusURL {| claim_type := ATTESTATION_SERVICE_URL; claim_url := url;
                 claim_name := name |} = url +:+ "/status"
  ∧ appendPath (url +:+ "/") "healthz" = appendPath url "healthz".
Proof.
  intros Hno. unfold statusURL, appendPath. cbn [claim_url].
  rewrite endsWithSlash_slash, Hno, !append_assoc. auto.
Qed.

Lemma status_endpoint_ignores_closing_slash_witness :
  endsWithSlash (Sample.serviceOf "a.example") = false
  ∧ statusURL {| claim_type := ATTESTATION_SERVICE_URL;
                 claim_url := "https://a.example/attestations/"; claim_name := "" |}
    = "https://a.example/attestations/status".
Proof.
  split; [reflexivity|].
  destruct (status_endpoint_ignores_closing_slash (Sample.serviceOf "a.example") ""
              eq_refl) as (Hsame & Hurl & _).
  exact (eq_trans Hsame Hurl).
Defined.

End ProbeEdgeFacts.

Module LookupEdgeFacts.
Import Chain World AttestationsWrapper Properties LookupFacts.

Section Loops.
Variable stats : BatchAttestationStats.

Lemma lookup_loop_is_Some (ids : list string) : ∀ pIndex rIndex result id,
  is_Some (lookup_loop stats ids pIndex rIndex result !! id) ↔
  is_Some (result !! id)
  ∨ ∃ q, ids !! q = Some id ∧ stats0 stats !! (pIndex + q)%nat ≠ Some 0.
Proof.
  induction ids as [|pHash rest IH]; intros pIndex rIndex result id.
  - cbn. split; [auto|]. intros [H|(q & Hq & _)]; [exact H|discriminate].
  - cbn [lookup_loop]. case_bool_decide as Hm.
    + rewrite IH. split.
      * intros [H|(q & Hq & Hn)]; [auto|]. right. exists (S q).
        split; [exact Hq|]. replace (pIndex + S q)%nat with (S pIndex + q)%nat by lia.
        exact Hn.
      * intros [H|(q & Hq & Hn)]; [auto|]. destruct q as [|q].
        -- rewrite Nat.add_0_r in Hn. contradiction.
        -- right. exists q. split; [exact Hq|].
           replace (S pIndex + q)%nat with (pIndex + S q)%nat by lia. exact Hn.
    + destruct (matching_loop stats _ rIndex ∅) as [m r']. rewrite IH. split.
      * intros [H|(q & Hq & Hn)].
        -- destruct (decide (pHash = id)) as [->|Hne].
           ++ right. exists 0%nat. split; [reflexivity|]. rewrite Nat.add_0_r. exact Hm.
           ++ left. rewrite lookup_insert_ne in H by exact Hne. exact H.
        -- right. exists (S q). split; [exact Hq|].
           replace (pIndex + S q)%nat with (S pIndex + q)%nat by lia. exact Hn.
      * intros [H|(q & Hq & Hn)].
        -- left. destruct (decide (pHash = id)) as [->|Hne].
           ++ rewrite lookup_insert_eq. eauto.
           ++ rewrite lookup_insert_ne by exact Hne. exact H.
        -- destruct q as [|q].
           ++ injection Hq as ->. left. rewrite lookup_insert_eq. eauto.
           ++ right. exists q. split; [exact Hq|].
              replace (S pIndex + q)%nat with (pIndex + S q)%nat by lia. exact Hn.
Qed.

(** An identifier whose last occurrence has no match-count receives an empty
    mapping. *)
Lemma lookup_loop_missing id : ∀ q (ids : list string) p r acc,
  ids !! q = Some id → id ∉ drop (S q) ids →
  stats0 stats !! (p + q)%nat = None →
  lookup_loop stats ids p r acc !! id = Some ∅.
Proof.
  induction q as [|q IH]; intros ids p r acc Hq Hlast Hnone.
  - destruct ids as [|i ids]; [discriminate|]. injection Hq as ->.
    cbn [lookup_loop]. rewrite Nat.add_0_r in Hnone. rewrite Hnone.
    rewrite bool_decide_eq_false_2 by discriminate. cbn [turns matching_loop].
    rewrite lookup_loop_absent; [apply lookup_insert_eq|].
    intros k Hk. exfalso. apply Hlast. cbn. eapply list_elem_of_lookup_2. exact Hk.
  - destruct ids as [|i ids]; [discriminate|]. cbn in Hq, Hlast.
    cbn [lookup_loop].
    replace (p + S q)%nat with (S p + q)%nat in Hnone by lia.
    case_bool_decide.
    + apply IH; assumption.
    + destruct (matching_loop stats _ r ∅). apply IH; assumption.
Qed.

End Loops.

(** X23. The identifiers of the result are identifiers that were asked for,
    and an identifier is in the result exactly when one of its occurrences
    in the list has a match-count other than the number 0.  A match-count
    that is missing, because the contract returned fewer counts than there
    are identifiers, is not 0: such an identifier is in the result, with an
    empty mapping when it is the only occurrence. *)
Theorem lookupIdentifiers_keys env (identifiers : list string) stats :
  batchGetAttestationStats env identifiers = Ok stats →
  ∃ result,
    lookupIdentifiers env identifiers = Ok result
    ∧ (∀ id, is_Some (result !! id) ↔
             ∃ q, identifiers !! q = Some id ∧ stats0 stats !! q ≠ Some 0)
    ∧ (∀ id, is_Some (result !! id) → id ∈ identifiers)
    ∧ (∀ q id, identifiers !! q = Some id → id ∉ drop (S q) identifiers →
               stats0 stats !! q = None → result !! id = Some ∅).
Proof.
  intros Hread. unfold lookupIdentifiers. rewrite Hread. cbn.
  eexists. split; [reflexivity|].
  assert (∀ id, is_Some (lookup_loop stats identifiers 0 0 ∅ !! id) ↔
                ∃ q, identifiers !! q = Some id ∧ stats0 stats !! q ≠ Some 0) as Hkeys.
  { intros id. rewrite lookup_loop_is_Some. cbn [Nat.add]. split.
    - intros [H|H]; [|exact H]. rewrite lookup_empty in H. destruct H. discriminate.
    - auto. }
  split; [exact Hkeys|]. split.
  - intros id H. apply Hkeys in H as (q & Hq & _).
    eapply list_elem_of_lookup_2. exact Hq.
  - intros q id Hq Hlast Hnone. apply (lookup_loop_missing stats id q); assumption.
Qed.

Lemma lookupIdentifiers_keys_witness :
  ∃ result,
    lookupIdentifiers Sample.env ["id1"; "id2"; "id3"; "id4"] = Ok result
    ∧ result !! "id4" = Some ∅
    ∧ ¬ is_Some (result !! "id2").
Proof.
  destruct (lookupIdentifiers_keys Sample.env ["id1"; "id2"; "id3"; "id4"]
              Sample.batchStats eq_refl) as (result & Hres & Hkeys & _ & Hmissing).
  exists result. split; [exact Hres|]. split.
  - apply (Hmissing 3%nat); [reflexivity| |reflexivity].
    apply (bool_decide_unpack _). vm_compute. exact I.
  - intros H. apply Hkeys in H as (q & Hq & Hn).
    destruct q as [|[|[|[|q]]]]; cbn in Hq; try discriminate. apply Hn. reflexivity.
Defined.

End LookupEdgeFacts.

Module SecurityCodeEdgeFacts.
Import Base SecurityCode SecurityCodeFacts.

Lemma lower_ascii_idempotent c : lower_ascii (lower_ascii c) = lower_ascii c.
Proof. destruct c as [[] [] [] [] [] [] [] []]; reflexivity. Qed.

Lemma toLowerCase_idempotent s : toLowerCase (toLowerCase s) = toLowerCase s.
Proof.
  induction s as [|c r IH]; [reflexivity|].
  cbn. rewrite lower_ascii_idempotent, IH. reflexivity.
Qed.

(** X24. The security code prefix does not depend on the case an address is
    written in: two addresses that [eqAddress] takes for the same have the
    same prefix, and so have an address and its lower-case form. *)
Theorem getSecurityCodePrefix_ignores_case (a b : Address) :
  isAddress a = true → isAddress b = true →
  eqAddress a (JStr b) = Ok true →
  getSecurityCodePrefix a = getSecurityCodePrefix b
  ∧ getSecurityCodePrefix (toLowerCase a) = getSecurityCodePrefix a.
Proof.
  intros Ha Hb Heq. split.
  - apply isAddress_inv in Ha as (ra & -> & _ & _).
    apply isAddress_inv in Hb as (rb & -> & _ & _).
    unfold eqAddress, normalizeAddress in Heq. injection Heq as Heq.
    apply String.eqb_eq in Heq.
    unfold getSecurityCodePrefix, hashAddressToSingleDigit.
    change (toLowerCase (String "0" (String "x" ra)))
      with (String "0"%char (String "x"%char (toLowerCase ra))).
    change (toLowerCase (String "0" (String "x" rb)))
      with (String "0"%char (String "x"%char (toLowerCase rb))).
    rewrite Heq. reflexivity.
  - unfold getSecurityCodePrefix, hashAddressToSingleDigit.
    rewrite toLowerCase_idempotent. reflexivity.
Qed.

Lemma getSecurityCodePrefix_ignores_case_witness :
  eqAddress "0x47e172F6CfB6c7D01C1574fa3E2Be7CC73269D95"
    (JStr "0x47E172F6CFB6C7D01C1574FA3E2BE7CC73269D95") = Ok true
  ∧ getSecurityCodePrefix "0x47e172F6CfB6c7D01C1574fa3E2Be7CC73269D95"
    = getSecurityCodePrefix "0x47E172F6CFB6C7D01C1574FA3E2BE7CC73269D95".
Proof.
  split; [vm_compute; reflexivity|].
  apply (getSecurityCodePrefix_ignores_case
           "0x47e172F6CfB6c7D01C1574fa3E2Be7CC73269D95"
           "0x47E172F6CFB6C7D01C1574FA3E2BE7CC73269D95");
    vm_compute; reflexivity.
Defined.

End SecurityCodeEdgeFacts.
